(** * The ticker board's price and company-information layer

    A shallow embedding of [app_Version2.py]: the symbol resolver
    [to_symbol], the cached company lookup [fetch_company_info], the batch
    quote fetch [get_latest_prices] with its per-symbol fallbacks, the
    routes [/] and [/prices]; and of the company search and the analysis
    of [app.py].

    Modelling conventions.
    - A Python [str] is a [string]; the text operations are those of the
      ASCII range (code points above 127 are left alone by [py_upper] and
      are not white space for [py_strip]).
    - A Python [dict] with string keys is a [gmap string _].
    - A float is a binary64 number: Rocq's primitive [float], whose
      operations round to nearest, ties to even, as the hardware does.
      Infinities, NaN and the two zeros are part of it. [round] on a Python
      float is the correctly rounded decimal rounding of CPython; [round] on
      a numpy float is numpy's scale, [rint], unscale.
    - The data provider and the clock are oracles that may answer each call
      differently; every call is appended to a log kept in the world state.
    - Python exceptions are values of an exception-and-state monad;
      [try ... except Exception] is [try_except].
    - The company details come in two layers. In the first the names and
      descriptions that the provider supplies are strings, as documented.
      The second, [Dyn], takes them as JSON values of any kind, where the
      slice of line 166 may raise; [Text] embeds the first into the second,
      and the two agree there. *)

From Stdlib Require Import Ascii QArith Qround Qabs Lqa Floats.
From Stdlib Require String.
From stdpp Require Import gmap strings list fin_maps.

(** ** Python string operations *)

Module PyStr.

(** [str.isspace] on the ASCII range: TAB, LF, VT, FF, CR, the four
    separators FS GS RS US, and the blank. *)
Definition py_isspace (c : ascii) : bool :=
  match c with
  | "009" | "010" | "011" | "012" | "013"
  | "028" | "029" | "030" | "031" | " " => true
  | _ => false
  end%char.

Definition upper_char (c : ascii) : ascii :=
  let n := nat_of_ascii c in
  if (97 <=? n)%nat && (n <=? 122)%nat then ascii_of_nat (n - 32) else c.

Fixpoint py_upper (s : string) : string :=
  match s with
  | EmptyString => EmptyString
  | String c s' => String (upper_char c) (py_upper s')
  end.

Fixpoint py_lstrip (s : string) : string :=
  match s with
  | EmptyString => EmptyString
  | String c s' => if py_isspace c then py_lstrip s' else s
  end.

Fixpoint py_rstrip (s : string) : string :=
  match s with
  | EmptyString => EmptyString
  | String c s' =>
      match py_rstrip s' with
      | EmptyString => if py_isspace c then EmptyString else String c EmptyString
      | r => String c r
      end
  end.

Definition py_strip (s : string) : string := py_lstrip (py_rstrip s).

(** [s.endswith(suf)]: some tail of [s] is [suf]. *)
Fixpoint py_endswith (s suf : string) : bool :=
  if String.eqb s suf then true
  else match s with
       | EmptyString => false
       | String _ s' => py_endswith s' suf
       end.

(** [s[:n]] for a non-negative [n]. *)
Fixpoint py_take (n : nat) (s : string) : string :=
  match n, s with
  | S n', String c s' => String c (py_take n' s')
  | _, _ => EmptyString
  end.

(** [sep.join(l)] *)
Fixpoint py_join (sep : string) (l : list string) : string :=
  match l with
  | [] => EmptyString
  | [x] => x
  | x :: rest => x +:+ sep +:+ py_join sep rest
  end.

(** [s.split(sep)] for a one-character separator. *)
Fixpoint py_split (sep : ascii) (s : string) : list string :=
  match s with
  | EmptyString => [EmptyString]
  | String c s' =>
      if Ascii.eqb c sep then EmptyString :: py_split sep s'
      else match py_split sep s' with
           | [] => [String c EmptyString]
           | w :: ws => String c w :: ws
           end
  end.

(** Truthiness of a string: non-empty. *)
Definition py_truthy (s : string) : bool :=
  match s with EmptyString => false | _ => true end.

(** A string is headed when it does not begin with white space. *)
Definition headed (s : string) : Prop :=
  match s with String c _ => py_isspace c = false | EmptyString => True end.

End PyStr.
Import PyStr.

(** ** The symbol resolver (lines 25-29) *)

Definition to_symbol (ticker : string) : string :=
  let ticker := py_upper (py_strip ticker) in
  if py_endswith ticker ".NS" || py_endswith ticker ".BO" then ticker
  else ticker +:+ ".NS".

(** ** Numbers

    Closing prices are binary64 floats: pandas hands out [numpy.float64]
    values, whose arithmetic is that of the hardware. pandas marks a
    missing value with NaN, and the batch branch calls [dropna] on what it
    reads. *)

Definition pyfloat := float.
Bind Scope float_scope with pyfloat.

Definition fsub (a b : pyfloat) : pyfloat := (a - b)%float.
Definition fdiv (a b : pyfloat) : pyfloat := (a / b)%float.
Definition fmul (a b : pyfloat) : pyfloat := (a * b)%float.

(** [a != 0]: NaN is different from every number, and [-0.0] is zero. *)
Definition f_nonzero (a : pyfloat) : bool := negb (a =? 0)%float.

(** Nearest integer, ties to the even one. *)
Definition round_half_even (q : Q) : Z :=
  let f := Qfloor q in
  match Qcompare (q - inject_Z f) (1 # 2) with
  | Lt => f
  | Gt => (f + 1)%Z
  | Eq => if Z.even f then f else (f + 1)%Z
  end.

Definition round_q (q : Q) (ndigits : nat) : Q :=
  let scale := (10 ^ Pos.of_nat ndigits)%positive in
  Qmake (round_half_even (q * inject_Z (Zpos scale))) scale.

(** The rational that a finite float with sign [s], mantissa [m] and
    exponent [e] stands for: plus or minus [m * 2^e]. *)
Definition exact (s : bool) (m : positive) (e : Z) : Q :=
  let n := cond_Zopp s (Zpos m) in
  match e with
  | Z0 => inject_Z n
  | Zpos p => inject_Z (n * 2 ^ Zpos p)
  | Zneg p => n # (2 ^ p)
  end.

(** The float nearest to a rational, ties to the even mantissa: the
    correctly rounded quotient of numerator and denominator. [szero] is the
    sign given to a zero. *)
Definition nearest (q : Q) (szero : bool) : pyfloat :=
  match Qnum q with
  | Z0 => SF2Prim (S754_zero szero)
  | Zpos n =>
      SF2Prim (SF64div (S754_finite false n 0) (S754_finite false (Qden q) 0))
  | Zneg n =>
      SF2Prim (SF64div (S754_finite true n 0) (S754_finite false (Qden q) 0))
  end.

(** The float of a natural number below [2^63]; exact up to [2^53]. *)
Definition float_of_Z (k : Z) : pyfloat := of_uint63 (Uint63.of_Z k).

(** C's [rint] in the default rounding mode: the nearest integer, ties to
    the even one, with the sign of the argument. A float whose exponent is
    not negative is an integer already; so are the infinities, and NaN
    stays NaN. *)
Definition rint (x : pyfloat) : pyfloat :=
  match Prim2SF x with
  | S754_finite s m (Zneg p) =>
      let r := float_of_Z (round_half_even (exact false m (Zneg p))) in
      if s then (- r)%float else r
  | _ => x
  end.

(** numpy's table of powers of ten, which holds the doubles [1e0] to
    [1e22]. *)
Definition power_of_ten (n : nat) : pyfloat :=
  nearest (inject_Z (10 ^ Z.of_nat n)) false.

(** [round(x, decimals)] on a [numpy.float64], for [decimals >= 0]: numpy
    multiplies by the power of ten, applies [rint], and divides. *)
Definition np_round (x : pyfloat) (decimals : nat) : pyfloat :=
  (rint (x * power_of_ten decimals) / power_of_ten decimals)%float.

(** [round(x, ndigits)] on a Python float, for [1 <= ndigits <= 323]:
    CPython rounds the exact value of [x] to [ndigits] decimals, ties to
    even, and returns the float nearest to that decimal. Zeros, infinities
    and NaN are returned as they are. *)
Definition py_round (x : pyfloat) (ndigits : nat) : pyfloat :=
  match Prim2SF x with
  | S754_finite s m e => nearest (round_q (exact s m e) ndigits) s
  | _ => x
  end.

(** [series.dropna()] *)
Definition dropna (series : list pyfloat) : list pyfloat :=
  filter (λ x, is_nan x = false) series.

(** ** Records of the service *)

(** The value dictionaries [{'price': ..., 'change_pct': ...}]; [None] is
    Python's [None]. *)
Module Quote.
Record t := mk { price : option pyfloat; change_pct : option pyfloat }.
End Quote.

(** The dictionaries [{'name': ..., 'description': ...}]. *)
Module Info.
Record t := mk { name : string; description : string }.
End Info.

(** Cache entries [{'info': ..., 'fetched_at': ...}]. *)
Module Entry.
Record t := mk { info : Info.t; fetched_at : Q }.
End Entry.

(** One value of the response of [/prices]. *)
Module Row.
Record t := mk {
  symbol : string;
  name : string;
  description : string;
  price : option pyfloat;
  change_pct : option pyfloat }.
End Row.

Definition null_quote : Quote.t := Quote.mk None None.

Definition COMPANY_INFO_TTL : Q := 60 * 60.
Definition MAX : nat := 200.

(** ** The data provider and the clock *)

(** What [yf.download(...)] hands back. A frame is empty, or has MultiIndex
    columns (then [close s] is the column [('Close', s)] when present), or
    has flat columns (then [close] is the column ['Close'] when present). *)
Inductive frame :=
| EmptyFrame
| MultiIndexFrame (close : string → option (list pyfloat))
| FlatFrame (close : option (list pyfloat)).

(** [DownloadRaises] also stands for an answer that makes line 75 or line 90
    raise, such as [None]: the effect is the same jump to line 115. *)
Inductive download_result :=
| DownloadRaises
| DownloadReturns (data : frame).

(** What [yf.Ticker(s).history(...)] hands back: [None], an empty frame, or
    a frame with rows and perhaps a ['Close'] column; or it raises. *)
Inductive history :=
| HistoryNone
| HistoryEmpty
| HistoryFrame (close : option (list pyfloat)).

Inductive history_result :=
| HistoryRaises
| HistoryReturns (hist : history).

(** The keys of [yf.Ticker(s).info] that line 47 and line 49 read, for a
    provider that supplies text: [None] stands for a missing key and for
    [None]. Values of any kind are the matter of [Dyn] below. *)
Record raw_info := {
  longName : option string;
  shortName : option string;
  longBusinessSummary : option string;
  sector : option string }.

Inductive info_result :=
| InfoRaises
| InfoReturns (d : raw_info).

(** Calls that reach the provider. *)
Inductive Call :=
| Download (tickers : string)
| History (symbol : string)
| TickerInfo (symbol : string).

(** The outside world. The first argument of each provider oracle is the
    number of provider calls made before this one, that of the clock the
    number of earlier readings: answers may change from call to call. *)
Record Provider := {
  yf_download : nat → string → download_result;
  yf_history : nat → string → history_result;
  yf_info : nat → string → info_result;
  time_time : nat → Q }.

(** Process state: the module-level cache, and the trace of what has been
    asked of the outside world. *)
Record World := {
  company_info_cache : gmap string Entry.t;
  upstream_log : list Call;
  clock_reads : nat }.

Definition initial_world : World :=
  {| company_info_cache := ∅; upstream_log := []; clock_reads := 0 |}.

(** ** Exceptions and state *)

(** [TypeError] is what subscripting a value that has no [__getitem__]
    raises. *)
Inductive exn := KeyError | IndexError | ProviderError | TypeError.

Inductive outcome (A : Type) :=
| Returns (a : A)
| Raises (e : exn).
Arguments Returns {A} a.
Arguments Raises {A} e.

(** Computations over a state [W] that return a value or raise. *)
Definition St (W A : Type) : Type := W → outcome A * W.

Definition M (A : Type) : Type := St World A.

Definition ret {W A} (a : A) : St W A := λ w, (Returns a, w).

Definition bind {W A B} (m : St W A) (k : A → St W B) : St W B :=
  λ w, match m w with
       | (Returns a, w') => k a w'
       | (Raises e, w') => (Raises e, w')
       end.

Definition raise {W A} (e : exn) : St W A := λ w, (Raises e, w).

(** [try: body / except Exception: handler]. What the body did to the world
    before it raised stays done. *)
Definition try_except {W A} (body : St W A) (handler : exn → St W A)
  : St W A :=
  λ w, match body w with
       | (Returns a, w') => (Returns a, w')
       | (Raises e, w') => handler e w'
       end.

Declare Scope py_scope.
Delimit Scope py_scope with py.
Notation "x <- m ;; k" := (bind m (λ x, k))
  (at level 100, m at next level, right associativity) : py_scope.
Local Open Scope py_scope.

(** [for x in l: acc = body x acc] *)
Fixpoint for_each {W A S} (l : list A) (body : A → S → St W S) (acc : S)
  : St W S :=
  match l with
  | [] => ret acc
  | x :: l' => acc' <- body x acc ;; for_each l' body acc'
  end.

(** *** Primitive actions *)

Definition log_call (c : Call) (w : World) : World :=
  {| company_info_cache := company_info_cache w;
     upstream_log := upstream_log w ++ [c];
     clock_reads := clock_reads w |}.

(** [yf.download(tickers=..., period='2d', interval='1d', ...)] *)
Definition call_download (env : Provider) (tickers : string) : M frame :=
  λ w, let w' := log_call (Download tickers) w in
       match yf_download env (length (upstream_log w)) tickers with
       | DownloadRaises => (Raises ProviderError, w')
       | DownloadReturns data => (Returns data, w')
       end.

(** [yf.Ticker(s).history(period='2d', interval='1d')] *)
Definition call_history (env : Provider) (s : string) : M history :=
  λ w, let w' := log_call (History s) w in
       match yf_history env (length (upstream_log w)) s with
       | HistoryRaises => (Raises ProviderError, w')
       | HistoryReturns hist => (Returns hist, w')
       end.

(** [yf.Ticker(symbol).info], fetched once per [Ticker] object. *)
Definition call_info (env : Provider) (symbol : string) : M raw_info :=
  λ w, let w' := log_call (TickerInfo symbol) w in
       match yf_info env (length (upstream_log w)) symbol with
       | InfoRaises => (Raises ProviderError, w')
       | InfoReturns d => (Returns d, w')
       end.

(** [time.time()] *)
Definition read_clock (env : Provider) : M Q :=
  λ w, (Returns (time_time env (clock_reads w)),
        {| company_info_cache := company_info_cache w;
           upstream_log := upstream_log w;
           clock_reads := S (clock_reads w) |}).

(** [company_info_cache.get(symbol)] *)
Definition cache_get (symbol : string) : M (option Entry.t) :=
  λ w, (Returns (company_info_cache w !! symbol), w).

(** [company_info_cache[symbol] = e] *)
Definition cache_set (symbol : string) (e : Entry.t) : M unit :=
  λ w, (Returns tt,
        {| company_info_cache := <[symbol := e]> (company_info_cache w);
           upstream_log := upstream_log w;
           clock_reads := clock_reads w |}).

(** [d[k]] *)
Definition getitem {A} (d : gmap string A) (k : string) : M A :=
  match d !! k with Some v => ret v | None => raise KeyError end.

(** [frame['Close']] *)
Definition getitem_close (close : option (list pyfloat)) : M (list pyfloat) :=
  match close with Some col => ret col | None => raise KeyError end.

(** [l[0]] *)
Definition first_item {A} (l : list A) : M A :=
  match l with x :: _ => ret x | [] => raise IndexError end.

(** [series.iloc[-k]] for [k >= 1] *)
Definition iloc_from_end {A} (series : list A) (k : nat) : M A :=
  match rev series !! (k - 1)%nat with
  | Some x => ret x
  | None => raise IndexError
  end.

(** ** The cached company lookup (lines 36-54) *)

(** [a or b] where [a] is a looked-up key: a missing key, [None] and the
    empty string are all falsy. *)
Definition py_or (a : option string) (b : string) : string :=
  match a with
  | Some s => if py_truthy s then s else b
  | None => b
  end.

Definition fetch_company_info (env : Provider) (symbol : string) : M Info.t :=
  now <- read_clock env ;;
  entry <- cache_get symbol ;;
  let refresh : M Info.t :=
    info <- try_except
              (d <- call_info env symbol ;;
               ret (Info.mk (py_or (longName d) (py_or (shortName d) symbol))
                            (py_or (longBusinessSummary d) (py_or (sector d) ""))))
              (λ _, ret (Info.mk symbol "")) ;;
    _ <- cache_set symbol (Entry.mk info now) ;;
    ret info in
  match entry with
  | Some e =>
      if Qlt_le_dec (now - Entry.fetched_at e) COMPANY_INFO_TTL
      then ret (Entry.info e)
      else refresh
  | None => refresh
  end.

(** ** The batch quote fetch (lines 56-131) *)

(** Lines 63-68. *)
Definition prepare_symbols (tickers : list string)
  : gmap string string * list string :=
  foldl (λ '(sym_map, symbols) t,
           let s := to_symbol t in
           (<[s := py_upper t]> sym_map, symbols ++ [s]))
        (∅, []) tickers.

(** The percent change, as written on lines 84, 100, 112 and 125: the
    closes are [numpy.float64] values, so the arithmetic is binary64 and
    [round] is numpy's. *)
Definition change_pct_of (latest prev : pyfloat) : pyfloat :=
  if f_nonzero prev
  then np_round (((latest - prev) / prev) * 100)%float 2
  else 0%float.

(** The three statements that the four branches repeat (lines 82-85, 98-101,
    110-113, 123-126): latest close, previous close, and the record. The
    price is [round(float(latest), 4)], Python's own [round]. *)
Definition quote_of_series (series : list pyfloat) : M Quote.t :=
  latest <- iloc_from_end series 1 ;;
  prev <- (if (1 <? length series)%nat then iloc_from_end series 2
           else ret latest) ;;
  ret (Quote.mk (Some (py_round latest 4)) (Some (change_pct_of latest prev))).

(** Lines 78-87: one turn of the loop that runs when the batch frame is
    empty. There is no [else] here: a symbol whose history is [None] or
    empty gets no entry at all. *)
Definition fallback_on_empty_body (env : Provider)
    (sym_map : gmap string string) (s : string)
    (results : gmap string Quote.t) : M (gmap string Quote.t) :=
  try_except
    (hist <- call_history env s ;;
     match hist with
     | HistoryFrame close =>
         col <- getitem_close close ;;
         q <- quote_of_series col ;;
         k <- getitem sym_map s ;;
         ret (<[k := q]> results)
     | _ => ret results
     end)
    (λ _, k <- getitem sym_map s ;; ret (<[k := null_quote]> results)).

(** Lines 77-87. *)
Definition fallback_on_empty (env : Provider) (sym_map : gmap string string)
    (symbols : list string) : M (gmap string Quote.t) :=
  for_each symbols (fallback_on_empty_body env sym_map) ∅.

(** Lines 119-130: one turn of the loop that runs when the batch raised. *)
Definition fallback_on_error_body (env : Provider)
    (sym_map : gmap string string) (s : string)
    (results : gmap string Quote.t) : M (gmap string Quote.t) :=
  try_except
    (hist <- call_history env s ;;
     match hist with
     | HistoryFrame close =>
         col <- getitem_close close ;;
         q <- quote_of_series col ;;
         k <- getitem sym_map s ;;
         ret (<[k := q]> results)
     | _ => k <- getitem sym_map s ;; ret (<[k := null_quote]> results)
     end)
    (λ _, k <- getitem sym_map s ;; ret (<[k := null_quote]> results)).

(** Lines 117-131. *)
Definition fallback_on_error (env : Provider) (sym_map : gmap string string)
    (symbols : list string) : M (gmap string Quote.t) :=
  for_each symbols (fallback_on_error_body env sym_map) ∅.

(** Lines 93-103: one turn of the loop over the columns. *)
Definition read_multi_body (close : string → option (list pyfloat))
    (sym_map : gmap string string) (s : string)
    (results : gmap string Quote.t) : M (gmap string Quote.t) :=
  match close s with
  | Some col =>
      let series := dropna col in
      if (length series =? 0)%nat
      then k <- getitem sym_map s ;; ret (<[k := null_quote]> results)
      else q <- quote_of_series series ;;
           k <- getitem sym_map s ;;
           ret (<[k := q]> results)
  | None => k <- getitem sym_map s ;; ret (<[k := null_quote]> results)
  end.

(** Lines 92-103: one column per symbol. *)
Definition read_multi (close : string → option (list pyfloat))
    (sym_map : gmap string string) (symbols : list string)
  : M (gmap string Quote.t) :=
  for_each symbols (read_multi_body close sym_map) ∅.

(** Lines 106-113: flat columns, credited to the first symbol. *)
Definition read_flat (close : option (list pyfloat))
    (sym_map : gmap string string) (symbols : list string)
  : M (gmap string Quote.t) :=
  col <- getitem_close close ;;
  let series := dropna col in
  if (length series =? 0)%nat
  then s0 <- first_item symbols ;;
       k <- getitem sym_map s0 ;;
       ret (<[k := null_quote]> ∅)
  else q <- quote_of_series series ;;
       s0 <- first_item symbols ;;
       k <- getitem sym_map s0 ;;
       ret (<[k := q]> ∅).

Definition get_latest_prices (env : Provider) (tickers : list string)
  : M (gmap string Quote.t) :=
  match tickers with
  | [] => ret ∅
  | _ =>
      let '(sym_map, symbols) := prepare_symbols tickers in
      try_except
        (data <- call_download env (py_join " " symbols) ;;
         match data with
         | EmptyFrame => fallback_on_empty env sym_map symbols
         | MultiIndexFrame close => read_multi close sym_map symbols
         | FlatFrame close => read_flat close sym_map symbols
         end)
        (λ _, fallback_on_error env sym_map symbols)
  end.

(** ** The [/prices] route (lines 140-170) *)

(** Line 145: the list read from [?tickers=...]. *)
Definition tickers_of_param (tickers_param : string) : list string :=
  (λ t, py_upper (py_strip t)) <$>
    filter (λ t, py_truthy (py_strip t) = true) (py_split "," tickers_param).

(** Lines 160-169: one turn of the merge loop. *)
Definition prices_body (env : Provider) (price_data : gmap string Quote.t)
    (t : string) (response : gmap string Row.t) : M (gmap string Row.t) :=
  let sym := to_symbol t in
  info <- fetch_company_info env sym ;;
  let pdict := default null_quote (price_data !! t) in
  ret (<[t := Row.mk sym (Info.name info)
                     (py_take 600 (Info.description info))
                     (Quote.price pdict) (Quote.change_pct pdict)]>
         response).

(** Lines 150-170, from the decoded ticker list to the dictionary that is
    handed to [jsonify]. *)
Definition prices (env : Provider) (tickers : list string)
  : M (gmap string Row.t) :=
  let tickers := if (MAX <? length tickers)%nat then take MAX tickers
                 else tickers in
  price_data <- get_latest_prices env tickers ;;
  for_each tickers (prices_body env price_data) ∅.

(** ** Vocabulary of the statements

    Closed forms of what the functions above compute; each is tied to its
    function by a lemma below. *)

(** The two results of lines 63-68, separately. *)
Definition sym_map_of (tickers : list string) : gmap string string :=
  foldl (λ sym_map t, <[to_symbol t := py_upper t]> sym_map) ∅ tickers.

Definition symbols_of (tickers : list string) : list string :=
  to_symbol <$> tickers.

(** A position is the last one of its symbol. *)
Definition last_at (symbols : list string) (i : nat) (s : string) : Prop :=
  symbols !! i = Some s ∧ s ∉ drop (S i) symbols.

(** The batch request of line 72 and the provider's answer to it in a given
    world. *)
Definition batch_request (tickers : list string) : string :=
  py_join " " (symbols_of tickers).

Definition batch_answer (env : Provider) (tickers : list string) (w : World)
  : download_result :=
  yf_download env (length (upstream_log w)) (batch_request tickers).

Definition after_download (tickers : list string) (w : World) : World :=
  log_call (Download (batch_request tickers)) w.

(** The batch call failed as a whole: it raised, came back empty, or came
    back flat without a ['Close'] column (the [KeyError] of line 106 is
    caught on line 115). *)
Definition batch_failed (r : download_result) : bool :=
  match r with
  | DownloadRaises
  | DownloadReturns EmptyFrame
  | DownloadReturns (FlatFrame None) => true
  | _ => false
  end.

(** The record of lines 82-85 as a function of the series; [None] when the
    series has no last element. *)
Definition pure_quote (series : list pyfloat) : option Quote.t :=
  match rev series with
  | [] => None
  | latest :: older =>
      let prev := match older with p :: _ => p | [] => latest end in
      Some (Quote.mk (Some (py_round latest 4))
                     (Some (change_pct_of latest prev)))
  end.

(** The record that one per-symbol query yields when it stores one: the
    quote of the closes, or nulls. *)
Definition history_quote (h : history_result) : Quote.t :=
  match h with
  | HistoryReturns (HistoryFrame (Some col)) =>
      default null_quote (pure_quote col)
  | _ => null_quote
  end.

(** Whether an iteration of lines 77-87 stores anything. *)
Definition stores_on_empty (h : history_result) : bool :=
  match h with
  | HistoryReturns HistoryNone | HistoryReturns HistoryEmpty => false
  | _ => true
  end.

(** The record that lines 93-103 store for a symbol. *)
Definition multi_quote (close : string → option (list pyfloat)) (s : string)
  : Quote.t :=
  match close s with
  | Some col => default null_quote (pure_quote (dropna col))
  | None => null_quote
  end.

(** The world after the provider calls [cs] have been logged. *)
Definition log_calls (cs : list Call) (w : World) : World :=
  {| company_info_cache := company_info_cache w;
     upstream_log := upstream_log w ++ cs;
     clock_reads := clock_reads w |}.

(** The reading of the clock that the next call will see. *)
Definition clock_now (env : Provider) (w : World) : Q :=
  time_time env (clock_reads w).

(** The test of line 41. *)
Definition is_fresh (env : Provider) (symbol : string) (w : World) : bool :=
  match company_info_cache w !! symbol with
  | Some e =>
      if Qlt_le_dec (clock_now env w - Entry.fetched_at e) COMPANY_INFO_TTL
      then true else false
  | None => false
  end.

(** The record built on lines 44-52 from the provider's next answer. *)
Definition refreshed_info (env : Provider) (symbol : string) (w : World)
  : Info.t :=
  match yf_info env (length (upstream_log w)) symbol with
  | InfoRaises => Info.mk symbol ""
  | InfoReturns d =>
      Info.mk (py_or (longName d) (py_or (shortName d) symbol))
              (py_or (longBusinessSummary d) (py_or (sector d) ""))
  end.

Definition served_info (env : Provider) (symbol : string) (w : World)
  : Info.t :=
  match company_info_cache w !! symbol with
  | Some e => if is_fresh env symbol w then Entry.info e
              else refreshed_info env symbol w
  | None => refreshed_info env symbol w
  end.

Definition after_fetch (env : Provider) (symbol : string) (w : World)
  : World :=
  if is_fresh env symbol w
  then {| company_info_cache := company_info_cache w;
          upstream_log := upstream_log w;
          clock_reads := S (clock_reads w) |}
  else {| company_info_cache :=
            <[symbol := Entry.mk (refreshed_info env symbol w)
                                 (clock_now env w)]> (company_info_cache w);
          upstream_log := upstream_log w ++ [TickerInfo symbol];
          clock_reads := S (clock_reads w) |}.

(** The row that line 163 builds from a company record and the price table. *)
Definition row_of (price_data : gmap string Quote.t) (t : string)
    (info : Info.t) : Row.t :=
  Row.mk (to_symbol t) (Info.name info)
         (py_take 600 (Info.description info))
         (Quote.price (default null_quote (price_data !! t)))
         (Quote.change_pct (default null_quote (price_data !! t))).

(** The tickers that survive lines 151-153. *)
Definition capped (tickers : list string) : list string := take MAX tickers.

(** The record built on lines 44-52 from an answer of the provider. *)
Definition record_of (symbol : string) (r : info_result) : Info.t :=
  match r with
  | InfoRaises => Info.mk symbol ""
  | InfoReturns d =>
      Info.mk (py_or (longName d) (py_or (shortName d) symbol))
              (py_or (longBusinessSummary d) (py_or (sector d) ""))
  end.

(** Where the description served for a symbol can come from: the cache as
    the request found it, or an answer of the provider for that symbol. *)
Definition supplied (env : Provider) (w : World) (symbol : string)
    (d : string) : Prop :=
  (∃ e, company_info_cache w !! symbol = Some e
        ∧ d = Info.description (Entry.info e))
  ∨ (∃ n, d = Info.description (record_of symbol (yf_info env n symbol))).

(** Two worlds with the same provider log. *)
Definition same_trace (w1 w2 : World) : Prop :=
  upstream_log w1 = upstream_log w2.

(** Two computations that give the same result and keep the logs equal. *)
Definition agree {A} (m1 m2 : M A) : Prop :=
  ∀ w1 w2, same_trace w1 w2 →
    (m1 w1).1 = (m2 w2).1 ∧ same_trace (m1 w1).2 (m2 w2).2.

(** ** Sample providers and worlds *)

(** A provider that raises on every call; the clock stands at [t0]. *)
Definition failing_provider (t0 : Q) : Provider :=
  {| yf_download := λ _ _, DownloadRaises;
     yf_history := λ _ _, HistoryRaises;
     yf_info := λ _ _, InfoRaises;
     time_time := λ _, t0 |}.

(** A provider whose batch answer has a column for TCS.NS only. *)
Definition tcs_only_provider : Provider :=
  {| yf_download := λ _ _,
       DownloadReturns
         (MultiIndexFrame
            (λ s, if String.eqb s "TCS.NS" then Some [4000%float; 4100%float]
                  else None));
     yf_history := λ _ _, HistoryReturns (HistoryFrame (Some [10%float; 11%float]));
     yf_info := λ _ s,
       if String.eqb s "TCS.NS"
       then InfoReturns {| longName := Some "Tata Consultancy Services";
                           shortName := Some "TCS";
                           longBusinessSummary := Some "IT services";
                           sector := Some "Technology" |}
       else InfoRaises;
     time_time := λ _, 0%Q |}.

(** A provider whose batch call raises while its per-symbol queries answer
    with two sessions, 10 then 11. *)
Definition batch_down_provider : Provider :=
  {| yf_download := λ _ _, DownloadRaises;
     yf_history := λ _ _, HistoryReturns (HistoryFrame (Some [10%float; 11%float]));
     yf_info := λ _ _, InfoRaises;
     time_time := λ _, 0%Q |}.




(** A provider whose business summary is 700 characters long. *)
Definition verbose_provider : Provider :=
  {| yf_download := λ _ _, DownloadRaises;
     yf_history := λ _ _, HistoryRaises;
     yf_info := λ _ _,
       InfoReturns {| longName := None;
                      shortName := Some "TCS";
                      longBusinessSummary :=
                        Some (String.string_of_list_ascii (replicate 700 "x"%char));
                      sector := None |};
     time_time := λ _, 0%Q |}.

(** A world whose cache holds one entry, fetched at time 0. *)
Definition cached_world : World :=
  {| company_info_cache :=
       {[ "TCS.NS" := Entry.mk (Info.mk "Tata Consultancy Services"
                                        "IT services") 0 ]};
     upstream_log := [];
     clock_reads := 0 |}.

(** 250 distinct two-letter tickers, "AA", "AB", ... *)
Definition many_tickers : list string :=
  (λ n, String (ascii_of_nat (65 + n / 26))
          (String (ascii_of_nat (65 + n mod 26)) EmptyString)) <$> seq 0 250.

(** ** The rest of the ticker board: defaults and request decoding *)

(** [s.startswith(pre)] *)
Fixpoint py_startswith (s pre : string) : bool :=
  match pre, s with
  | EmptyString, _ => true
  | String c pre', String d s' => Ascii.eqb c d && py_startswith s' pre'
  | String _ _, EmptyString => false
  end.

(** The sample list of lines 19-22. *)
Definition SAMPLE_TICKERS : list string :=
  ["RELIANCE"; "TCS"; "HDFCBANK"; "INFY"; "HINDUNILVR";
   "ICICIBANK"; "KOTAKBANK"; "HDFC"; "SBIN"; "BHARTIARTL"].

(** Lines 14-22. [file] is [None] when tickers.txt does not exist, and
    otherwise the lines that iterating over the open file yields. *)
Definition DEFAULT_TICKERS (file : option (list string)) : list string :=
  match file with
  | Some lines =>
      (λ line, py_upper (py_strip line)) <$>
        filter (λ line, py_truthy (py_strip line)
                        && negb (py_startswith line "#") = true) lines
  | None => SAMPLE_TICKERS
  end.

(** [l[:n]] for any integer [n]: a negative bound counts from the end. *)
Definition py_slice_to {A} (n : Z) (l : list A) : list A :=
  if (0 <=? n)%Z then take (Z.to_nat n) l
  else take (length l - Z.to_nat (- n)) l.

(** The query string, as [request.args.get] sees it. *)
Record request_args := {
  arg_tickers : option string;
  arg_count : option string }.

(** How a route ends: with a value, with an exception of the layer below,
    or with the [ValueError] of [int(...)]. *)
Inductive served (A : Type) :=
| Served (a : A)
| Uncaught (e : exn)
| ValueError.
Arguments Served {A} a.
Arguments Uncaught {A} e.
Arguments ValueError {A}.

(** [int(request.args.get('count', 50))]. The builtin [int] on strings is
    the parameter [int_of_str], [None] where it raises. *)
Definition count_arg (int_of_str : string → option Z) (args : request_args)
  : option Z :=
  match arg_count args with
  | Some s => int_of_str s
  | None => Some 50%Z
  end.

(** Lines 134-138: the ticker list handed to the template. *)
Definition index (int_of_str : string → option Z) (file : option (list string))
    (args : request_args) : served (list string) :=
  match count_arg int_of_str args with
  | Some display_count =>
      Served (py_slice_to display_count (DEFAULT_TICKERS file))
  | None => ValueError
  end.

(** A string made of white space only. *)
Fixpoint all_space (s : string) : bool :=
  match s with
  | EmptyString => true
  | String c s' => py_isspace c && all_space s'
  end.

(** Whether a character occurs in a string. *)
Fixpoint has_char (c : ascii) (s : string) : bool :=
  match s with
  | EmptyString => false
  | String d s' => Ascii.eqb d c || has_char c s'
  end.

(** A reading of [int] on plain decimal numerals, for the examples. *)
Definition sample_int (s : string) : option Z :=
  if String.eqb s "3" then Some 3%Z
  else if String.eqb s "-2" then Some (-2)%Z
  else if String.eqb s "500" then Some 500%Z
  else None.

(** The clock readings of a provider all lie within one TTL of each other. *)
Definition steady_clock (env : Provider) : Prop :=
  ∀ n m, (time_time env n - time_time env m < 3600)%Q.

(** No cache entry is older than the TTL at any reading of the clock. *)
Definition all_young (env : Provider) (w : World) : Prop :=
  ∀ s e, company_info_cache w !! s = Some e →
         ∀ n, (time_time env n - Entry.fetched_at e < 3600)%Q.

(** ** Provider values of any kind

    [Ticker.info] is a dictionary decoded from JSON, and nothing in the
    code checks what kind of value a key holds: the records above, whose
    names and descriptions are strings, describe the provider as it is
    documented. The layer below repeats the cached lookup and the route
    over JSON values of any kind, where slicing a description may raise.
    The batch fetch is shared: it reads closes, never company details. *)

(** A computation of the quote layer, run on the provider log and the
    number of clock readings alone: that layer never looks at the cache. *)
Definition trace_world (log : list Call) (reads : nat) : World :=
  {| company_info_cache := ∅; upstream_log := log; clock_reads := reads |}.

Definition on_trace {A} (m : M A) (log : list Call) (reads : nat)
  : outcome A * (list Call * nat) :=
  let '(r, w') := m (trace_world log reads) in
  (r, (upstream_log w', clock_reads w')).

(** A provider that is asked for quotes only. *)
Definition quotes_only (download : nat → string → download_result)
    (history : nat → string → history_result) (clock : nat → Q) : Provider :=
  {| yf_download := download;
     yf_history := history;
     yf_info := λ _ _, InfoRaises;
     time_time := clock |}.

Module Dyn.

(** A JSON value as Python holds it. *)
#[warnings="-register-all"]
Inductive pyval :=
| PyNone
| PyBool (b : bool)
| PyInt (n : Z)
| PyFloat (x : pyfloat)
| PyStr (s : string)
| PyList (items : list pyval)
| PyDict (items : list (string * pyval)).

(** Truthiness, as [or] and [if] test it. *)
Definition truthy (v : pyval) : bool :=
  match v with
  | PyNone => false
  | PyBool b => b
  | PyInt n => negb (n =? 0)%Z
  | PyFloat x => f_nonzero x
  | PyStr s => py_truthy s
  | PyList items => match items with [] => false | _ => true end
  | PyDict items => match items with [] => false | _ => true end
  end.

(** [a or b] *)
Definition py_or (a b : pyval) : pyval := if truthy a then a else b.

(** [v[:n]] for a non-negative [n]: a prefix of a string or of a list.
    [None], a boolean and a number cannot be subscripted, and a dictionary
    cannot be indexed by a slice, which is not hashable (Python 3.11): all
    raise [TypeError]. *)
Definition slice_to (n : nat) (v : pyval) : outcome pyval :=
  match v with
  | PyStr s => Returns (PyStr (py_take n s))
  | PyList items => Returns (PyList (take n items))
  | _ => Raises TypeError
  end.

(** The keys of [yf.Ticker(s).info] that line 47 and line 49 read, as
    [dict.get] returns them: [PyNone] for a missing key. *)
Record raw_info := {
  longName : pyval;
  shortName : pyval;
  longBusinessSummary : pyval;
  sector : pyval }.

Inductive info_result :=
| InfoRaises
| InfoReturns (d : raw_info).

Module Info.
Record t := mk { name : pyval; description : pyval }.
End Info.

Module Entry.
Record t := mk { info : Info.t; fetched_at : Q }.
End Entry.

Module Row.
Record t := mk {
  symbol : string;
  name : pyval;
  description : pyval;
  price : option pyfloat;
  change_pct : option pyfloat }.
End Row.

Record Provider := {
  yf_download : nat → string → download_result;
  yf_history : nat → string → history_result;
  yf_info : nat → string → info_result;
  time_time : nat → Q }.

Record World := {
  company_info_cache : gmap string Entry.t;
  upstream_log : list Call;
  clock_reads : nat }.

Definition initial_world : World :=
  {| company_info_cache := ∅; upstream_log := []; clock_reads := 0 |}.

Definition M (A : Type) : Type := St World A.

(** The part of the provider that the quote layer asks. *)
Definition market (env : Provider) :=
  quotes_only (yf_download env) (yf_history env) (time_time env).

(** A computation of the quote layer, run in this world. *)
Definition lift {A} (m : St _ A) : M A :=
  λ w, let '(r, (log, reads)) := on_trace m (upstream_log w) (clock_reads w) in
       (r, {| company_info_cache := company_info_cache w;
              upstream_log := log;
              clock_reads := reads |}).

(** [yf.Ticker(symbol).info], fetched once per [Ticker] object. *)
Definition call_info (env : Provider) (symbol : string) : M raw_info :=
  λ w, let w' := {| company_info_cache := company_info_cache w;
                    upstream_log := upstream_log w ++ [TickerInfo symbol];
                    clock_reads := clock_reads w |} in
       match yf_info env (length (upstream_log w)) symbol with
       | InfoRaises => (Raises ProviderError, w')
       | InfoReturns d => (Returns d, w')
       end.

(** [time.time()] *)
Definition read_clock (env : Provider) : M Q :=
  λ w, (Returns (time_time env (clock_reads w)),
        {| company_info_cache := company_info_cache w;
           upstream_log := upstream_log w;
           clock_reads := S (clock_reads w) |}).

(** [company_info_cache.get(symbol)] *)
Definition cache_get (symbol : string) : M (option Entry.t) :=
  λ w, (Returns (company_info_cache w !! symbol), w).

(** [company_info_cache[symbol] = e] *)
Definition cache_set (symbol : string) (e : Entry.t) : M unit :=
  λ w, (Returns tt,
        {| company_info_cache := <[symbol := e]> (company_info_cache w);
           upstream_log := upstream_log w;
           clock_reads := clock_reads w |}).

(** Lines 36-54. The name is the first truthy one of [longName],
    [shortName] and the symbol; the description the first truthy one of
    [longBusinessSummary], [sector] and the empty string: whatever kind of
    value that is. *)
Definition fetch_company_info (env : Provider) (symbol : string) : M Info.t :=
  now <- read_clock env ;;
  entry <- cache_get symbol ;;
  let refresh : M Info.t :=
    info <- try_except
              (d <- call_info env symbol ;;
               ret (Info.mk (py_or (longName d)
                               (py_or (shortName d) (PyStr symbol)))
                            (py_or (longBusinessSummary d)
                               (py_or (sector d) (PyStr "")))))
              (λ _, ret (Info.mk (PyStr symbol) (PyStr ""))) ;;
    _ <- cache_set symbol (Entry.mk info now) ;;
    ret info in
  match entry with
  | Some e =>
      if Qlt_le_dec (now - Entry.fetched_at e) COMPANY_INFO_TTL
      then ret (Entry.info e)
      else refresh
  | None => refresh
  end.

(** [v[:n]] in a computation *)
Definition getslice (v : pyval) (n : nat) : M pyval :=
  λ w, (slice_to n v, w).

(** Lines 160-169: one turn of the merge loop. The slice of line 166 is
    outside every [try]. *)
Definition prices_body (env : Provider) (price_data : gmap string Quote.t)
    (t : string) (response : gmap string Row.t) : M (gmap string Row.t) :=
  let sym := to_symbol t in
  info <- fetch_company_info env sym ;;
  let pdict := default null_quote (price_data !! t) in
  description <- getslice (Info.description info) 600 ;;
  ret (<[t := Row.mk sym (Info.name info) description
                     (Quote.price pdict) (Quote.change_pct pdict)]>
         response).

(** Lines 150-170, from the decoded ticker list to the dictionary that is
    handed to [jsonify]. *)
Definition prices (env : Provider) (tickers : list string)
  : M (gmap string Row.t) :=
  let tickers := if (MAX <? length tickers)%nat then take MAX tickers
                 else tickers in
  price_data <- lift (get_latest_prices (market env) tickers) ;;
  for_each tickers (prices_body env price_data) ∅.

(** Lines 141-170: the whole route, from the query string. *)
Definition prices_route (env : Provider) (int_of_str : string → option Z)
    (file : option (list string)) (args : request_args)
  : World → served (gmap string Row.t) * World :=
  λ w,
    let run (tickers : list string) :=
      match prices env tickers w with
      | (Returns response, w') => (Served response, w')
      | (Raises e, w') => (Uncaught e, w')
      end in
    let by_count :=
      match count_arg int_of_str args with
      | Some count => run (py_slice_to count (DEFAULT_TICKERS file))
      | None => (ValueError, w)
      end in
    match arg_tickers args with
    | Some tickers_param =>
        if py_truthy tickers_param then run (tickers_of_param tickers_param)
        else by_count
    | None => by_count
    end.

(** *** Vocabulary of the statements *)

(** A value that [v[:n]] accepts. *)
Definition sliceable (v : pyval) : bool :=
  match v with PyStr _ | PyList _ => true | _ => false end.

(** The record built on lines 44-52 from an answer of the provider. *)
Definition record_of (symbol : string) (r : info_result) : Info.t :=
  match r with
  | InfoRaises => Info.mk (PyStr symbol) (PyStr "")
  | InfoReturns d =>
      Info.mk (py_or (longName d) (py_or (shortName d) (PyStr symbol)))
              (py_or (longBusinessSummary d) (py_or (sector d) (PyStr "")))
  end.

(** The test of line 41. *)
Definition is_fresh (env : Provider) (symbol : string) (w : World) : bool :=
  match company_info_cache w !! symbol with
  | Some e =>
      if Qlt_le_dec (time_time env (clock_reads w) - Entry.fetched_at e)
           COMPANY_INFO_TTL
      then true else false
  | None => false
  end.

Definition refreshed_info (env : Provider) (symbol : string) (w : World)
  : Info.t :=
  record_of symbol (yf_info env (length (upstream_log w)) symbol).

Definition served_info (env : Provider) (symbol : string) (w : World)
  : Info.t :=
  match company_info_cache w !! symbol with
  | Some e => if is_fresh env symbol w then Entry.info e
              else refreshed_info env symbol w
  | None => refreshed_info env symbol w
  end.

Definition after_fetch (env : Provider) (symbol : string) (w : World)
  : World :=
  if is_fresh env symbol w
  then {| company_info_cache := company_info_cache w;
          upstream_log := upstream_log w;
          clock_reads := S (clock_reads w) |}
  else {| company_info_cache :=
            <[symbol := Entry.mk (refreshed_info env symbol w)
                                 (time_time env (clock_reads w))]>
              (company_info_cache w);
          upstream_log := upstream_log w ++ [TickerInfo symbol];
          clock_reads := S (clock_reads w) |}.

(** The world after the quote layer has logged the calls [cs]. *)
Definition log_calls (cs : list Call) (w : World) : World :=
  {| company_info_cache := company_info_cache w;
     upstream_log := upstream_log w ++ cs;
     clock_reads := clock_reads w |}.

(** The world as the quote layer sees it. *)
Definition hide (w : World) :=
  trace_world (upstream_log w) (clock_reads w).

(** The batch request's answer in a given world. *)
Definition batch_answer (env : Provider) (tickers : list string) (w : World)
  : download_result :=
  yf_download env (length (upstream_log w)) (batch_request tickers).

(** The row that line 163 builds from a company record, its sliced
    description and the price table. *)
Definition row_of (price_data : gmap string Quote.t) (t : string)
    (info : Info.t) (description : pyval) : Row.t :=
  Row.mk (to_symbol t) (Info.name info) description
         (Quote.price (default null_quote (price_data !! t)))
         (Quote.change_pct (default null_quote (price_data !! t))).

(** The provider's answers never hold a description that cannot be
    sliced, and neither does the cache. *)
Definition sliceable_answers (env : Provider) : Prop :=
  ∀ n symbol,
    sliceable (Info.description (record_of symbol (yf_info env n symbol)))
    = true.

Definition sliceable_cache (w : World) : Prop :=
  ∀ symbol e, company_info_cache w !! symbol = Some e →
    sliceable (Info.description (Entry.info e)) = true.

(** Where the description served for a symbol can come from: the cache as
    the request found it, or an answer of the provider for that symbol. *)
Definition supplied (env : Provider) (w : World) (symbol : string)
    (d : pyval) : Prop :=
  (∃ e, company_info_cache w !! symbol = Some e
        ∧ d = Info.description (Entry.info e))
  ∨ (∃ n, d = Info.description (record_of symbol (yf_info env n symbol))).

(** *** Sample providers *)

(** A provider whose business summary is a number. *)
Definition numeric_summary_provider : Provider :=
  {| yf_download := λ _ _, DownloadRaises;
     yf_history := λ _ _, HistoryRaises;
     yf_info := λ _ _,
       InfoReturns {| longName := PyStr "Tata Consultancy Services";
                      shortName := PyStr "TCS";
                      longBusinessSummary := PyInt 5;
                      sector := PyStr "Technology" |};
     time_time := λ _, 0%Q |}.

(** A provider that raises on every call. *)
Definition failing_provider : Provider :=
  {| yf_download := λ _ _, DownloadRaises;
     yf_history := λ _ _, HistoryRaises;
     yf_info := λ _ _, InfoRaises;
     time_time := λ _, 0%Q |}.

(** A provider whose batch answer has a column for TCS.NS only, and whose
    business summary for it is 700 characters long. *)
Definition verbose_provider : Provider :=
  {| yf_download := λ _ _,
       DownloadReturns
         (MultiIndexFrame
            (λ s, if String.eqb s "TCS.NS"
                  then Some [4000%float; 4100%float] else None));
     yf_history := λ _ _, HistoryRaises;
     yf_info := λ _ s,
       if String.eqb s "TCS.NS"
       then InfoReturns
              {| longName := PyNone;
                 shortName := PyStr "TCS";
                 longBusinessSummary :=
                   PyStr (String.string_of_list_ascii (replicate 700 "x"%char));
                 sector := PyNone |}
       else InfoRaises;
     time_time := λ _, 0%Q |}.

End Dyn.

(** *** Providers whose company details are text

    The records of the first layer, whose names and descriptions are
    strings, seen in the layer of arbitrary values. *)

Module Text.

(** A looked-up key that holds text or nothing. *)
Definition value (a : option string) : Dyn.pyval :=
  match a with Some s => Dyn.PyStr s | None => Dyn.PyNone end.

Definition raw (d : raw_info) : Dyn.raw_info :=
  {| Dyn.longName := value (longName d);
     Dyn.shortName := value (shortName d);
     Dyn.longBusinessSummary := value (longBusinessSummary d);
     Dyn.sector := value (sector d) |}.

Definition answer (r : info_result) : Dyn.info_result :=
  match r with
  | InfoRaises => Dyn.InfoRaises
  | InfoReturns d => Dyn.InfoReturns (raw d)
  end.

Definition provider (env : Provider) : Dyn.Provider :=
  {| Dyn.yf_download := yf_download env;
     Dyn.yf_history := yf_history env;
     Dyn.yf_info := λ n s, answer (yf_info env n s);
     Dyn.time_time := time_time env |}.

Definition info (i : Info.t) : Dyn.Info.t :=
  Dyn.Info.mk (Dyn.PyStr (Info.name i)) (Dyn.PyStr (Info.description i)).

Definition entry (e : Entry.t) : Dyn.Entry.t :=
  Dyn.Entry.mk (info (Entry.info e)) (Entry.fetched_at e).

Definition world (w : World) : Dyn.World :=
  {| Dyn.company_info_cache := entry <$> company_info_cache w;
     Dyn.upstream_log := upstream_log w;
     Dyn.clock_reads := clock_reads w |}.

Definition row (r : Row.t) : Dyn.Row.t :=
  Dyn.Row.mk (Row.symbol r) (Dyn.PyStr (Row.name r))
             (Dyn.PyStr (Row.description r)) (Row.price r) (Row.change_pct r).

(** The result of a run of the first layer, seen in the second. *)
Definition run {A B} (f : A → B) (r : outcome A * World)
  : outcome B * Dyn.World :=
  (match r.1 with Returns a => Returns (f a) | Raises e => Raises e end,
   world r.2).

End Text.

(** ** The analyzer: company search and analysis (app.py, lines 38-73)

    The functions are modelled on what the HTTP call and the provider
    answer; the memoisation that [st.cache_data] wraps around
    [search_company] is not part of the model. *)

Module Analyzer.

(** A key of a JSON object or of an info dictionary: missing, null, or
    holding a value of the expected kind. *)
Inductive field (A : Type) :=
| Missing
| Null
| Value (a : A).
Arguments Missing {A}.
Arguments Null {A}.
Arguments Value {A} a.

(** [d.get(k)] *)
Definition get {A} (f : field A) : option A :=
  match f with Value a => Some a | _ => None end.

(** One element of the ["quotes"] list of the search answer. *)
Record hit := {
  symbol : field string;
  shortname : field string;
  longname : field string }.

(** What [requests.get(...).json().get("quotes", [])] evaluates to, or an
    exception on the way. *)
Inductive search_answer :=
| SearchRaises
| SearchReturns (data : list hit).

(** The test of line 47 on the symbol of a hit. *)
Definition listed_symbol (sym : option string) : bool :=
  match sym with
  | Some s =>
      py_truthy s
      && (py_endswith s ".NS" || py_endswith s ".BO" || py_endswith s "-USD")
  | None => false
  end.

(** [a or b] on two looked-up strings. *)
Definition or_else (a b : option string) : option string :=
  match a with
  | Some s => if py_truthy s then Some s else b
  | None => b
  end.

(** The second component of what [search_company] returns: a name, or the
    pair [(None, None)] that the conditional expression of line 49 has as
    its other arm. *)
Inductive second :=
| Name (n : option string)
| NonePair.

(** Lines 45-48: the loop, with its early return. *)
Fixpoint first_listed (data : list hit) : option (option string * second) :=
  match data with
  | [] => None
  | item :: rest =>
      let sym := get (symbol item) in
      if listed_symbol sym
      then Some (sym, Name (or_else (get (shortname item))
                                    (get (longname item))))
      else first_listed rest
  end.

(** [d[k]] on a hit *)
Definition getitem_field {A} (f : field A) : outcome (option A) :=
  match f with
  | Missing => Raises KeyError
  | Null => Returns None
  | Value a => Returns (Some a)
  end.

(** Line 49, which Python reads as
    [return (data[0]["symbol"],
             (data[0].get("shortname") if data else (None, None)))]. *)
Definition first_hit (data : list hit) : outcome (option string * second) :=
  match data with
  | [] => Raises IndexError
  | item :: _ =>
      match getitem_field (symbol item) with
      | Raises e => Raises e
      | Returns sym =>
          Returns (sym, match data with
                        | _ :: _ => Name (get (shortname item))
                        | [] => NonePair
                        end)
      end
  end.

(** Lines 39-51. *)
Definition search_company (answer : search_answer)
  : option string * second :=
  let body : outcome (option string * second) :=
    match answer with
    | SearchRaises => Raises ProviderError
    | SearchReturns data =>
        match first_listed data with
        | Some found => Returns found
        | None => first_hit data
        end
    end in
  match body with
  | Returns r => r
  | Raises _ => (None, Name None)
  end.

(** The keys of [ticker.info] that lines 62-63 read. *)
Record ticker_info := {
  currentPrice : field pyfloat;
  regularMarketPrice : field pyfloat;
  previousClose : field pyfloat }.

Inductive info_answer :=
| InfoFails
| InfoIs (info : ticker_info).

(** [ticker.history(period="60d")]: a frame, given by its closes, or an
    exception. *)
Inductive history_answer :=
| HistoryFails
| HistoryIs (closes : list pyfloat).

Inductive failure := TypeError | ProviderFailure.

Inductive analysed (A : Type) :=
| Done (a : A)
| Failed (e : failure).
Arguments Done {A} a.
Arguments Failed {A} e.

(** The dictionary of lines 67-73. *)
Record analysis := {
  info : ticker_info;
  current_price : option pyfloat;
  change : pyfloat;
  pct_change : pyfloat;
  history : list pyfloat }.

(** Truthiness of a looked-up number: present, not null, not zero. *)
Definition truthy_number (x : option pyfloat) : bool :=
  match x with Some v => f_nonzero v | None => false end.

(** [a - b] and [a / b] on looked-up numbers: [None] is no operand. *)
Definition num_sub (a b : option pyfloat) : analysed pyfloat :=
  match a, b with
  | Some x, Some y => Done (fsub x y)
  | _, _ => Failed TypeError
  end.

Definition num_div (a : pyfloat) (b : option pyfloat) : analysed pyfloat :=
  match b with
  | Some y => Done (fdiv a y)
  | None => Failed TypeError
  end.

Definition and_then {A B} (m : analysed A) (k : A → analysed B)
  : analysed B :=
  match m with Done a => k a | Failed e => Failed e end.

(** Lines 54-73; the ticker object of the returned pair is left out, and
    [None] stands for the pair [(None, None)]. *)
Definition get_full_analysis (about : info_answer) (hist : history_answer)
  : analysed (option analysis) :=
  match about with
  | InfoFails => Failed ProviderFailure
  | InfoIs info =>
      match hist with
      | HistoryFails => Failed ProviderFailure
      | HistoryIs closes =>
          match closes with
          | [] => Done None
          | _ =>
              let current :=
                if truthy_number (get (currentPrice info))
                then get (currentPrice info)
                else get (regularMarketPrice info) in
              let prev_close :=
                match previousClose info with
                | Missing => Some 0%float
                | Null => None
                | Value v => Some v
                end in
              and_then
                (if truthy_number prev_close then num_sub current prev_close
                 else Done 0%float)
                (λ change,
                   and_then
                     (if truthy_number prev_close
                      then and_then (num_div change prev_close)
                             (λ ratio, Done (fmul ratio 100%float))
                      else Done 0%float)
                     (λ pct_change,
                        Done (Some {| info := info;
                                      current_price := current;
                                      change := change;
                                      pct_change := pct_change;
                                      history := closes |})))
          end
      end
  end.

End Analyzer.

(** * Properties *)

(** Unfolding of the monad's operations and of the raising accessors. *)
Ltac unfold_py :=
  unfold bind, getitem, getitem_close, first_item, raise, ret.

(** ** The model at work *)

Example to_symbol_plain : to_symbol "TCS" = "TCS.NS".
Proof. reflexivity. Qed.

Example to_symbol_spaced_lower : to_symbol "  infy.bo " = "INFY.BO".
Proof. reflexivity. Qed.

Example tickers_of_param_example :
  tickers_of_param " tcs, ,infy.ns,,x " = ["TCS"; "INFY.NS"; "X"].
Proof. reflexivity. Qed.

Example round_half_even_ties :
  round_q (15 # 1000) 2 = 2 # 100 ∧ round_q (25 # 1000) 2 = 2 # 100
  ∧ round_q (-(15 # 1000)) 2 = -2 # 100.
Proof. repeat split; reflexivity. Qed.

(** The arithmetic is that of the machine: from 1250.0 to 1250.4375 the
    quotient times 100 is just below 3.5, so the change is 0.03, where the
    exact percentage 0.035 would round to 0.04. *)
Example change_pct_binary :
  change_pct_of 1250.4375 1250 = 0x1.eb851eb851eb8p-6%float
  ∧ round_q (((12504375 # 10000) - 1250) / 1250 * 100) 2 = 4 # 100.
Proof. split; vm_compute; reflexivity. Qed.

(** A tiny previous close overflows to infinity, and infinite closes give
    NaN. *)
Example change_pct_overflow :
  change_pct_of 1 0x0.00000000007e8p-1022 = infinity
  ∧ change_pct_of infinity infinity = nan
  ∧ change_pct_of nan nan = nan.
Proof. repeat split; vm_compute; reflexivity. Qed.

(** The two roundings differ: Python rounds the exact value of the float
    nearest to 1.115, which lies below the tie; numpy rounds the product
    with 100, which is 111.5 exactly. *)
Example the_two_rounds :
  py_round 0x1.1d70a3d70a3d7p+0 2 = 0x1.1c28f5c28f5c3p+0%float
  ∧ np_round 0x1.1d70a3d70a3d7p+0 2 = 0x1.1eb851eb851ecp+0%float
  ∧ py_round 0.03125 4 = 0x1.ff2e48e8a71dep-6%float
  ∧ py_round (-0x1.4f8b588e368f1p-17) 4 = (-0)%float.
Proof. repeat split; vm_compute; reflexivity. Qed.

(** [nearest] agrees with the floats that the decimal literals denote. *)
Example nearest_decimals :
  nearest (1 # 10) false = 0x1.999999999999ap-4%float
  ∧ nearest (-1 # 3) false = (-0x1.5555555555555p-2)%float
  ∧ nearest (312 # 10000) false = 0x1.ff2e48e8a71dep-6%float
  ∧ nearest (inject_Z (10 ^ 22)) false = 0x1.0f0cf064dd592p+73%float
  ∧ nearest (inject_Z (10 ^ 400)) false = infinity
  ∧ nearest (1 # 10 ^ 400) true = 0%float
  ∧ nearest 0 true = (-0)%float.
Proof. repeat split; vm_compute; reflexivity. Qed.

Example rint_ties :
  rint 2.5 = 2%float ∧ rint 3.5 = 4%float ∧ rint (-2.5) = (-2)%float
  ∧ rint (-0.25) = (-0)%float ∧ rint infinity = infinity
  ∧ rint 0x1p+60 = 0x1p+60%float.
Proof. repeat split; vm_compute; reflexivity. Qed.

(** Two tickers, the batch frame covers the first only, the details request
    for the second raises. *)
Example partial_coverage_run :
  ∃ w',
    prices tcs_only_provider ["TCS"; "FAKE123"] initial_world
    = (Returns
         {[ "TCS" := Row.mk "TCS.NS" "Tata Consultancy Services" "IT services"
                      (Some 4100%float) (Some 2.5%float);
            "FAKE123" := Row.mk "FAKE123.NS" "FAKE123.NS" "" None None ]},
       w')
    ∧ upstream_log w'
      = [Download "TCS.NS FAKE123.NS"; TickerInfo "TCS.NS";
         TickerInfo "FAKE123.NS"].
Proof. eexists. split; reflexivity. Qed.

(** A single session whose close is NaN, as the individual queries may see
    it (they do not drop missing values): both fields are NaN. *)
Example nan_session w :
  quote_of_series [nan] w = (Returns (Quote.mk (Some nan) (Some nan)), w).
Proof. reflexivity. Qed.

(** Two tickers of one symbol: the symbol table keeps the later spelling,
    so the record is filed under it alone. *)
Example shared_symbol_run :
  ∃ w',
    get_latest_prices tcs_only_provider ["TCS"; "TCS.NS"] initial_world
    = (Returns {[ "TCS.NS" := Quote.mk (Some 4100%float) (Some 2.5%float) ]}, w').
Proof. eexists. reflexivity. Qed.

(** ** Strings *)

Lemma upper_char_idemp c : upper_char (upper_char c) = upper_char c.
Proof. by destruct c as [[] [] [] [] [] [] [] []]. Qed.

Lemma isspace_upper_char c : py_isspace (upper_char c) = py_isspace c.
Proof. by destruct c as [[] [] [] [] [] [] [] []]. Qed.

Lemma py_upper_idemp s : py_upper (py_upper s) = py_upper s.
Proof. induction s as [|c s IH]; simpl; [done|]. by rewrite upper_char_idemp, IH. Qed.

Lemma py_upper_app s1 s2 : py_upper (s1 +:+ s2) = py_upper s1 +:+ py_upper s2.
Proof. induction s1 as [|c s1 IH]; simpl; [done|]. by rewrite IH. Qed.

Lemma py_lstrip_upper s : py_lstrip (py_upper s) = py_upper (py_lstrip s).
Proof.
  induction s as [|c s IH]; simpl; [done|].
  rewrite isspace_upper_char. by destruct (py_isspace c).
Qed.

Lemma py_rstrip_upper s : py_rstrip (py_upper s) = py_upper (py_rstrip s).
Proof.
  induction s as [|c s IH]; simpl; [done|].
  rewrite IH, isspace_upper_char.
  destruct (py_rstrip s); simpl; [|done]. by destruct (py_isspace c).
Qed.

Lemma py_strip_upper s : py_strip (py_upper s) = py_upper (py_strip s).
Proof. unfold py_strip. by rewrite py_rstrip_upper, py_lstrip_upper. Qed.

Lemma py_lstrip_headed s : headed (py_lstrip s).
Proof.
  induction s as [|c s IH]; simpl; [done|].
  destruct (py_isspace c) eqn:E; [done|]. by simpl.
Qed.

Lemma headed_lstrip s : headed s → py_lstrip s = s.
Proof. destruct s as [|c s]; simpl; [done|]. by intros ->. Qed.

Lemma py_lstrip_idemp s : py_lstrip (py_lstrip s) = py_lstrip s.
Proof. apply headed_lstrip, py_lstrip_headed. Qed.

Lemma py_rstrip_idemp s : py_rstrip (py_rstrip s) = py_rstrip s.
Proof.
  induction s as [|c s IH]; simpl; [done|].
  destruct (py_rstrip s) as [|c' r] eqn:E.
  - destruct (py_isspace c) eqn:Ec; simpl; [done|]. by rewrite Ec.
  - change (py_rstrip (String c (String c' r)))
      with (match py_rstrip (String c' r) with
            | "" => if py_isspace c then "" else String c ""
            | r0 => String c r0
            end).
    by rewrite IH.
Qed.

Lemma py_rstrip_lstrip s : py_rstrip (py_lstrip s) = py_lstrip (py_rstrip s).
Proof.
  induction s as [|c s IH]; simpl; [done|].
  destruct (py_isspace c) eqn:Ec.
  - rewrite IH. destruct (py_rstrip s) as [|c' r]; simpl; by rewrite ?Ec.
  - simpl. destruct (py_rstrip s) as [|c' r]; simpl; by rewrite Ec.
Qed.

Lemma py_strip_idemp s : py_strip (py_strip s) = py_strip s.
Proof.
  unfold py_strip.
  by rewrite py_rstrip_lstrip, py_rstrip_idemp, py_lstrip_idemp.
Qed.

Lemma headed_app s1 s2 : headed s1 → headed s2 → headed (s1 +:+ s2).
Proof. by destruct s1. Qed.

Lemma py_rstrip_app s1 s2 :
  s2 ≠ "" → py_rstrip s2 = s2 → py_rstrip (s1 +:+ s2) = s1 +:+ s2.
Proof.
  intros Hne Hs2. induction s1 as [|c s1 IH]; [done|].
  change (String c s1 +:+ s2) with (String c (s1 +:+ s2)). simpl.
  rewrite IH. destruct (s1 +:+ s2) eqn:E; [|done].
  destruct s1; simpl in E; [by subst|done].
Qed.

Lemma py_endswith_app s suf : py_endswith (s +:+ suf) suf = true.
Proof.
  induction s as [|c s IH].
  - destruct suf; simpl; [done|]. by rewrite Ascii.eqb_refl, String.eqb_refl.
  - change (String c s +:+ suf) with (String c (s +:+ suf)).
    simpl. rewrite IH. by case_match.
Qed.

Lemma py_endswith_spec s suf :
  py_endswith s suf = true ↔ ∃ p, s = p +:+ suf.
Proof.
  split.
  - induction s as [|c s IH].
    + destruct suf; [by exists ""|done].
    + change (py_endswith (String c s) suf)
        with (if String.eqb (String c s) suf then true else py_endswith s suf).
      destruct (String.eqb (String c s) suf) eqn:E.
      * apply String.eqb_eq in E as <-. by exists "".
      * intros [p ->]%IH. by exists (String c p).
  - intros [p ->]. apply py_endswith_app.
Qed.

Lemma py_take_length n s : String.length (py_take n s) ≤ n.
Proof.
  revert s. induction n as [|n IH]; intros [|c s]; simpl; try lia.
  specialize (IH s). lia.
Qed.

Lemma py_take_prefix n s :
  ∃ rest, s = py_take n s +:+ rest
          ∧ String.length (py_take n s) = min n (String.length s).
Proof.
  revert s. induction n as [|n IH]; intros [|c s]; simpl;
    try (by eexists).
  destruct (IH s) as (rest & Hs & Hlen). exists rest.
  change (String c (py_take n s) +:+ rest)
    with (String c (py_take n s +:+ rest)).
  rewrite <- Hs. simpl. by rewrite Hlen.
Qed.

(** The normal form [py_upper (py_strip t)] is a fixed point of both
    operations. *)
Lemma normal_form_fixed t :
  let u := py_upper (py_strip t) in py_upper (py_strip u) = u.
Proof.
  simpl. by rewrite py_strip_upper, py_strip_idemp, py_upper_idemp.
Qed.

Lemma normal_form_headed t : headed (py_upper (py_strip t)).
Proof.
  unfold py_strip. rewrite <- py_lstrip_upper. apply py_lstrip_headed.
Qed.

Lemma to_symbol_suffixed t :
  py_endswith (to_symbol t) ".NS" || py_endswith (to_symbol t) ".BO" = true.
Proof.
  unfold to_symbol. cbv zeta.
  destruct (py_endswith (py_upper (py_strip t)) ".NS"
            || py_endswith (py_upper (py_strip t)) ".BO") eqn:E; [done|].
  by rewrite py_endswith_app.
Qed.

Lemma to_symbol_fixed s :
  py_upper (py_strip s) = s →
  py_endswith s ".NS" || py_endswith s ".BO" = true →
  to_symbol s = s.
Proof. intros Hs Hsuf. unfold to_symbol. by rewrite Hs, Hsuf. Qed.

Lemma to_symbol_normal t : py_upper (py_strip (to_symbol t)) = to_symbol t.
Proof.
  unfold to_symbol. cbv zeta.
  destruct (py_endswith (py_upper (py_strip t)) ".NS"
            || py_endswith (py_upper (py_strip t)) ".BO") eqn:E.
  - apply normal_form_fixed.
  - unfold py_strip. rewrite py_rstrip_app by done.
    rewrite headed_lstrip by (apply headed_app; [apply normal_form_headed|done]).
    rewrite py_upper_app, py_upper_idemp. done.
Qed.

Lemma to_symbol_idemp t : to_symbol (to_symbol t) = to_symbol t.
Proof. apply to_symbol_fixed; [apply to_symbol_normal|apply to_symbol_suffixed]. Qed.

(** ** Loops *)

Section loops.
Context {W A S : Type}.
Implicit Types (l : list A) (body : A → S → St W S).

(** An invariant indexed by the part of the list already visited: if every
    iteration returns and re-establishes it, the loop returns and it holds
    for the whole list. *)
Lemma for_each_inv (I : list A → S → W → Prop) l body acc w :
  I [] acc w →
  (∀ pre x post acc w,
     l = pre ++ x :: post → I pre acc w →
     ∃ acc' w', body x acc w = (Returns acc', w') ∧ I (pre ++ [x]) acc' w') →
  ∃ acc' w', for_each l body acc w = (Returns acc', w') ∧ I l acc' w'.
Proof.
  intros H0 Hstep.
  assert (∀ post pre acc w, l = pre ++ post → I pre acc w →
            ∃ acc' w', for_each post body acc w = (Returns acc', w')
                       ∧ I l acc' w') as Hgen.
  { induction post as [|x post IH]; intros pre acc0 w0 Hl Hpre.
    - rewrite app_nil_r in Hl. subst pre. by exists acc0, w0.
    - destruct (Hstep pre x post acc0 w0 Hl Hpre) as (acc1 & w1 & Hb & H1).
      destruct (IH (pre ++ [x]) acc1 w1) as (acc2 & w2 & Hf & H2);
        [by rewrite <- app_assoc|done|].
      exists acc2, w2. split; [|done].
      simpl. unfold bind. by rewrite Hb. }
  by apply (Hgen l []).
Qed.

(** The same when an iteration may raise: the loop then stops at the first
    iteration that does, with what is known of that exception. *)
Lemma for_each_cases (I : list A → S → W → Prop) (Q : exn → W → Prop)
    l body acc w :
  I [] acc w →
  (∀ pre x post acc w,
     l = pre ++ x :: post → I pre acc w →
     (∃ acc' w', body x acc w = (Returns acc', w') ∧ I (pre ++ [x]) acc' w')
     ∨ (∃ e w', body x acc w = (Raises e, w') ∧ Q e w')) →
  (∃ acc' w', for_each l body acc w = (Returns acc', w') ∧ I l acc' w')
  ∨ (∃ e w', for_each l body acc w = (Raises e, w') ∧ Q e w').
Proof.
  intros H0 Hstep.
  assert (∀ post pre acc w, l = pre ++ post → I pre acc w →
            (∃ acc' w', for_each post body acc w = (Returns acc', w')
                        ∧ I l acc' w')
            ∨ (∃ e w', for_each post body acc w = (Raises e, w') ∧ Q e w'))
    as Hgen.
  { induction post as [|x post IH]; intros pre acc0 w0 Hl Hpre.
    - rewrite app_nil_r in Hl. subst pre. left. by exists acc0, w0.
    - simpl. unfold bind.
      destruct (Hstep pre x post acc0 w0 Hl Hpre)
        as [(acc1 & w1 & -> & H1)|(e & w1 & -> & HQ)].
      + apply (IH (pre ++ [x])); [by rewrite <- app_assoc|done].
      + right. by exists e, w1. }
  by apply (Hgen l []).
Qed.

End loops.

(** ** The cached company lookup *)

Lemma fetch_company_info_eq env symbol w :
  fetch_company_info env symbol w =
  (Returns (served_info env symbol w), after_fetch env symbol w).
Proof.
  unfold fetch_company_info, served_info, after_fetch, is_fresh, refreshed_info.
  unfold bind, read_clock, cache_get; simpl.
  destruct (company_info_cache w !! symbol) as [e|] eqn:He; simpl.
  - destruct (Qlt_le_dec _ _) as [Hlt|Hle]; [done|].
    unfold try_except, call_info, cache_set, ret; simpl.
    by destruct (yf_info env _ symbol).
  - unfold try_except, call_info, cache_set, ret; simpl.
    by destruct (yf_info env _ symbol).
Qed.

(** ** Quotes *)

Lemma quote_of_series_eq series w :
  quote_of_series series w =
  (match pure_quote series with
   | Some q => Returns q
   | None => Raises IndexError
   end, w).
Proof.
  unfold quote_of_series, pure_quote, iloc_from_end, bind.
  rewrite <- (length_rev series).
  destruct (rev series) as [|latest [|p older]]; simpl; done.
Qed.

Lemma pure_quote_nonempty series :
  series ≠ [] → is_Some (pure_quote series).
Proof.
  intros Hne. unfold pure_quote.
  destruct (rev series) as [|x l] eqn:E; [|by eexists].
  apply (f_equal (@rev _)) in E. rewrite rev_involutive in E. done.
Qed.

Lemma log_calls_nil w : log_calls [] w = w.
Proof. destruct w. unfold log_calls; simpl. by rewrite app_nil_r. Qed.

Lemma log_calls_app cs1 cs2 w :
  log_calls cs2 (log_calls cs1 w) = log_calls (cs1 ++ cs2) w.
Proof. unfold log_calls; simpl. by rewrite app_assoc. Qed.

Lemma log_call_calls c w : log_call c w = log_calls [c] w.
Proof. done. Qed.

Section fallback_bodies.
Context (env : Provider) (sym_map : gmap string string).
Context (s k : string) (Hk : sym_map !! s = Some k).
Context (results : gmap string Quote.t) (w : World).

(** One turn of lines 118-130: always a record for the symbol. *)
Lemma fallback_on_error_step :
  fallback_on_error_body env sym_map s results w
  = (Returns (<[k := history_quote
                     (yf_history env (length (upstream_log w)) s)]>
                results),
     log_call (History s) w).
Proof.
  unfold fallback_on_error_body, try_except, bind at 1, call_history.
  destruct (yf_history env _ s) as [|[| |[col|]]]; simpl;
    unfold_py; rewrite ?Hk; simpl; try done.
  rewrite quote_of_series_eq.
  destruct (pure_quote col); simpl; by rewrite ?Hk.
Qed.

(** One turn of lines 77-87: a record unless the history is [None] or
    empty. *)
Lemma fallback_on_empty_step :
  fallback_on_empty_body env sym_map s results w
  = (let h := yf_history env (length (upstream_log w)) s in
     Returns (if stores_on_empty h then <[k := history_quote h]> results
              else results),
     log_call (History s) w).
Proof.
  unfold fallback_on_empty_body, try_except, bind at 1, call_history.
  destruct (yf_history env _ s) as [|[| |[col|]]]; simpl;
    unfold_py; rewrite ?Hk; simpl; try done.
  rewrite quote_of_series_eq.
  destruct (pure_quote col); simpl; by rewrite ?Hk.
Qed.

(** One turn of lines 93-103: no provider call, always a record. *)
Lemma read_multi_step close :
  read_multi_body close sym_map s results w
  = (Returns (<[k := multi_quote close s]> results), w).
Proof.
  unfold read_multi_body, multi_quote.
  destruct (close s) as [col|]; simpl;
    unfold_py; rewrite ?Hk; [|done].
  destruct (dropna col) as [|x l]; simpl; [done|].
  rewrite quote_of_series_eq.
  by destruct (pure_quote_nonempty (x :: l)) as [q ->].
Qed.

End fallback_bodies.

(** ** The symbol table of [get_latest_prices] *)

Lemma to_symbol_upper t : to_symbol (py_upper t) = to_symbol t.
Proof.
  unfold to_symbol. by rewrite py_strip_upper, py_upper_idemp.
Qed.

Lemma sym_map_of_snoc tickers t :
  sym_map_of (tickers ++ [t])
  = <[to_symbol t := py_upper t]> (sym_map_of tickers).
Proof. unfold sym_map_of. by rewrite foldl_app. Qed.

Lemma prepare_symbols_eq tickers :
  prepare_symbols tickers = (sym_map_of tickers, symbols_of tickers).
Proof.
  induction tickers as [|t tickers IH] using rev_ind; [done|].
  unfold prepare_symbols in *. rewrite foldl_app, IH. simpl.
  rewrite sym_map_of_snoc. unfold symbols_of. by rewrite fmap_app.
Qed.

(** Every value of the table resolves to its key. *)
Lemma sym_map_of_resolves tickers s k :
  sym_map_of tickers !! s = Some k → to_symbol k = s.
Proof.
  revert s k. induction tickers as [|t tickers IH] using rev_ind; intros s k.
  - unfold sym_map_of; simpl. by rewrite lookup_empty.
  - rewrite sym_map_of_snoc, lookup_insert.
    case_decide as E; [|apply IH].
    intros [= <-]. by rewrite to_symbol_upper.
Qed.

(** Every requested symbol has a value, the upper-cased form of one of the
    tickers that resolve to it. *)
Lemma sym_map_of_lookup tickers t :
  t ∈ tickers →
  ∃ t', t' ∈ tickers ∧ to_symbol t' = to_symbol t
        ∧ sym_map_of tickers !! to_symbol t = Some (py_upper t').
Proof.
  induction tickers as [|t0 tickers IH] using rev_ind.
  - by intros ?%elem_of_nil.
  - intros Hin. rewrite sym_map_of_snoc.
    destruct (decide (to_symbol t0 = to_symbol t)) as [Heq|Hne].
    + exists t0. split; [apply elem_of_app; right; by apply list_elem_of_singleton|].
      split; [done|]. rewrite <- Heq. apply lookup_insert_eq.
    + apply elem_of_app in Hin as [Hin|Hin%list_elem_of_singleton];
        [|by subst].
      destruct (IH Hin) as (t' & ? & ? & ?).
      exists t'. split; [apply elem_of_app; by left|]. split; [done|].
      by rewrite lookup_insert_ne.
Qed.

Lemma sym_map_of_symbol tickers s :
  s ∈ symbols_of tickers → is_Some (sym_map_of tickers !! s).
Proof.
  unfold symbols_of. intros (t & -> & Hin)%list_elem_of_fmap.
  destruct (sym_map_of_lookup tickers t Hin) as (t' & _ & _ & ->). by eexists.
Qed.

(** Distinct requested symbols are filed under distinct keys. *)
Lemma sym_map_of_inj tickers s1 s2 k :
  sym_map_of tickers !! s1 = Some k →
  sym_map_of tickers !! s2 = Some k → s1 = s2.
Proof.
  intros H1%sym_map_of_resolves H2%sym_map_of_resolves. congruence.
Qed.

(** ** The three loops over the symbols *)

Lemma lookup_maybe_insert_ne {V} (b : bool) (k kx : string) (v : V)
    (m : gmap string V) :
  k ≠ kx → (if b then <[kx := v]> m else m) !! k = m !! k.
Proof. intros ?. destruct b; [by rewrite lookup_insert_ne|done]. Qed.

Section symbol_loops.
Context (env : Provider) (sym_map : gmap string string).
Context (Hinj : ∀ s1 s2 k,
           sym_map !! s1 = Some k → sym_map !! s2 = Some k → s1 = s2).

Lemma last_at_snoc pre x i s :
  last_at (pre ++ [x]) i s →
  (last_at pre i s ∧ s ≠ x) ∨ (i = length pre ∧ s = x).
Proof.
  intros [Hi Hlast]. apply lookup_app_Some in Hi as [Hi|[Hlen Hi]].
  - left. pose proof (lookup_lt_Some _ _ _ Hi) as Hlt.
    rewrite drop_app_le in Hlast by lia.
    rewrite elem_of_app, list_elem_of_singleton in Hlast.
    split; [split|]; naive_solver.
  - right. apply list_lookup_singleton_Some in Hi as [Hi ->].
    split; [lia|done].
Qed.

(** Lines 117-131 return, make one history call per symbol in order, and
    leave for every symbol the record of its last query. *)
Lemma fallback_on_error_spec symbols w :
  (∀ s, s ∈ symbols → is_Some (sym_map !! s)) →
  ∃ results,
    fallback_on_error env sym_map symbols w
    = (Returns results, log_calls (History <$> symbols) w)
    ∧ (∀ i s k, last_at symbols i s → sym_map !! s = Some k →
         results !! k
         = Some (history_quote
                   (yf_history env (length (upstream_log w) + i) s)))
    ∧ (∀ k q, results !! k = Some q →
         ∃ i s, symbols !! i = Some s ∧ sym_map !! s = Some k
                ∧ q = history_quote
                        (yf_history env (length (upstream_log w) + i) s)).
Proof.
  intros Hdom. unfold fallback_on_error.
  destruct (for_each_inv
    (λ pre acc w', w' = log_calls (History <$> pre) w
       ∧ (∀ i s k, last_at pre i s → sym_map !! s = Some k →
            acc !! k = Some (history_quote
                       (yf_history env (length (upstream_log w) + i) s)))
       ∧ (∀ k q, acc !! k = Some q →
            ∃ i s, pre !! i = Some s ∧ sym_map !! s = Some k
                   ∧ q = history_quote
                           (yf_history env (length (upstream_log w) + i) s)))
    symbols (fallback_on_error_body env sym_map) ∅ w)
    as (results & w' & Hrun & -> & Hres).
  - split; [by rewrite log_calls_nil|]. split.
    + intros i s k [Hi _]. by rewrite lookup_nil in Hi.
    + intros k q. by rewrite lookup_empty.
  - intros pre x post acc w0 Hsym (-> & Hacc & Hfrom).
    destruct (Hdom x) as [kx Hkx].
    { rewrite Hsym. apply elem_of_app. right. by apply elem_of_cons; left. }
    rewrite (fallback_on_error_step env sym_map x kx Hkx).
    assert (length (upstream_log (log_calls (History <$> pre) w))
            = length (upstream_log w) + length pre) as Hlen.
    { simpl. by rewrite length_app, length_fmap. }
    rewrite Hlen.
    eexists _, _. split; [done|]. split; [|split].
    + by rewrite log_call_calls, log_calls_app, fmap_app.
    + intros i s k [[Hlast Hne]|[-> ->]]%last_at_snoc Hk.
      * rewrite lookup_insert_ne; [by apply Hacc|].
        intros <-. apply Hne. by apply (Hinj s x kx).
      * assert (k = kx) as -> by congruence.
        by rewrite lookup_insert_eq.
    + intros k q. rewrite lookup_insert. case_decide as E.
      * intros [= <-]. subst k. exists (length pre), x.
        by rewrite list_lookup_middle.
      * intros (i & s & Hi & Hk & ->)%Hfrom. exists i, s.
        split; [by apply lookup_app_l_Some|done].
  - exists results. split; [done|]. apply Hres.
Qed.

(** Lines 77-87 return and make one history call per symbol in order; the
    last query of a symbol decides its record when that query stores one,
    and a symbol none of whose queries stores has no record. *)
Lemma fallback_on_empty_spec symbols w :
  (∀ s, s ∈ symbols → is_Some (sym_map !! s)) →
  ∃ results,
    fallback_on_empty env sym_map symbols w
    = (Returns results, log_calls (History <$> symbols) w)
    ∧ (∀ i s k, last_at symbols i s → sym_map !! s = Some k →
         stores_on_empty (yf_history env (length (upstream_log w) + i) s)
         = true →
         results !! k
         = Some (history_quote
                   (yf_history env (length (upstream_log w) + i) s)))
    ∧ (∀ s k, sym_map !! s = Some k →
         (∀ i, symbols !! i = Some s →
            stores_on_empty (yf_history env (length (upstream_log w) + i) s)
            = false) →
         results !! k = None)
    ∧ (∀ k q, results !! k = Some q →
         ∃ i s, symbols !! i = Some s ∧ sym_map !! s = Some k
                ∧ q = history_quote
                        (yf_history env (length (upstream_log w) + i) s)).
Proof.
  intros Hdom. unfold fallback_on_empty.
  destruct (for_each_inv
    (λ pre acc w', w' = log_calls (History <$> pre) w
       ∧ (∀ i s k, last_at pre i s → sym_map !! s = Some k →
            stores_on_empty (yf_history env (length (upstream_log w) + i) s)
            = true →
            acc !! k = Some (history_quote
                       (yf_history env (length (upstream_log w) + i) s)))
       ∧ (∀ s k, sym_map !! s = Some k →
            (∀ i, pre !! i = Some s →
               stores_on_empty
                 (yf_history env (length (upstream_log w) + i) s) = false) →
            acc !! k = None)
       ∧ (∀ k q, acc !! k = Some q →
            ∃ i s, pre !! i = Some s ∧ sym_map !! s = Some k
                   ∧ q = history_quote
                           (yf_history env (length (upstream_log w) + i) s)))
    symbols (fallback_on_empty_body env sym_map) ∅ w)
    as (results & w' & Hrun & -> & Hres).
  - split; [by rewrite log_calls_nil|]. split; [|split].
    + intros i s k [Hi _]. by rewrite lookup_nil in Hi.
    + intros. apply lookup_empty.
    + intros k q. by rewrite lookup_empty.
  - intros pre x post acc w0 Hsym (-> & Hacc & Hnone & Hfrom).
    destruct (Hdom x) as [kx Hkx].
    { rewrite Hsym. apply elem_of_app. right. by apply elem_of_cons; left. }
    rewrite (fallback_on_empty_step env sym_map x kx Hkx).
    assert (length (upstream_log (log_calls (History <$> pre) w))
            = length (upstream_log w) + length pre) as Hlen.
    { simpl. by rewrite length_app, length_fmap. }
    rewrite Hlen.
    eexists _, _. split; [done|]. split; [|split; [|split]].
    + by rewrite log_call_calls, log_calls_app, fmap_app.
    + intros i s k [[Hlast Hne]|[-> ->]]%last_at_snoc Hk Hst.
      * assert (k ≠ kx) as Hkne.
        { intros ->. apply Hne. by apply (Hinj s x kx). }
        rewrite lookup_maybe_insert_ne by done. by apply Hacc.
      * assert (k = kx) as -> by congruence.
        rewrite Hst. by rewrite lookup_insert_eq.
    + intros s k Hk Hall.
      assert (acc !! k = None) as Hacc0.
      { apply (Hnone s k Hk). intros i Hi. apply Hall.
        by apply lookup_app_l_Some. }
      destruct (decide (s = x)) as [->|Hne].
      * rewrite (Hall (length pre)); [done|].
        by rewrite list_lookup_middle.
      * assert (k ≠ kx) as Hkne.
        { intros ->. apply Hne. by apply (Hinj s x kx). }
        by rewrite lookup_maybe_insert_ne.
    + intros k q Hq.
      assert (acc !! k = Some q
              ∨ k = kx ∧ q = history_quote
                  (yf_history env (length (upstream_log w) + length pre) x))
        as [Hold|[-> ->]].
      { destruct (stores_on_empty _); [|by left].
        rewrite lookup_insert in Hq. case_decide; [right|by left].
        split; congruence. }
      * destruct (Hfrom k q Hold) as (i & s & Hi & Hk & ->). exists i, s.
        split; [by apply lookup_app_l_Some|done].
      * exists (length pre), x. by rewrite list_lookup_middle.
  - exists results. split; [done|]. apply Hres.
Qed.

(** Lines 92-103 return without any provider call and file the record of
    every symbol under its key. *)
Lemma read_multi_spec close symbols w :
  (∀ s, s ∈ symbols → is_Some (sym_map !! s)) →
  ∃ results,
    read_multi close sym_map symbols w = (Returns results, w)
    ∧ (∀ s k, s ∈ symbols → sym_map !! s = Some k →
         results !! k = Some (multi_quote close s))
    ∧ (∀ k q, results !! k = Some q →
         ∃ s, s ∈ symbols ∧ sym_map !! s = Some k ∧ q = multi_quote close s).
Proof.
  intros Hdom. unfold read_multi.
  destruct (for_each_inv
    (λ pre acc w', w' = w
       ∧ (∀ s k, s ∈ pre → sym_map !! s = Some k →
            acc !! k = Some (multi_quote close s))
       ∧ (∀ k q, acc !! k = Some q →
            ∃ s, s ∈ pre ∧ sym_map !! s = Some k ∧ q = multi_quote close s))
    symbols (read_multi_body close sym_map) ∅ w)
    as (results & w' & Hrun & -> & Hres).
  - split; [done|]. split.
    + by intros s k ?%elem_of_nil.
    + intros k q. by rewrite lookup_empty.
  - intros pre x post acc w0 Hsym (-> & Hacc & Hfrom).
    destruct (Hdom x) as [kx Hkx].
    { rewrite Hsym. apply elem_of_app. right. by apply elem_of_cons; left. }
    rewrite (read_multi_step sym_map x kx Hkx).
    eexists _, _. split; [done|]. split; [done|]. split.
    + intros s k Hin Hk.
      destruct (decide (s = x)) as [->|Hne].
      * assert (k = kx) as -> by congruence. by rewrite lookup_insert_eq.
      * rewrite lookup_insert_ne.
        -- apply Hacc; [|done].
           by apply elem_of_app in Hin as [?|?%list_elem_of_singleton].
        -- intros <-. apply Hne. by apply (Hinj s x kx).
    + intros k q. rewrite lookup_insert. case_decide as E.
      * intros [= <-]. subst k. exists x. split; [|done].
        apply elem_of_app. right. by apply list_elem_of_singleton.
      * intros (s & Hi & Hk & ->)%Hfrom. exists s.
        split; [|done]. apply elem_of_app. by left.
  - exists results. split; [done|]. apply Hres.
Qed.

End symbol_loops.

(** ** [get_latest_prices], branch by branch *)

Lemma try_except_returns {A} (body : M A) handler w a w' :
  body w = (Returns a, w') → try_except body handler w = (Returns a, w').
Proof. unfold try_except. by intros ->. Qed.

Section batch_branches.
Context (env : Provider) (tickers : list string) (w : World).
Context (Hne : tickers ≠ []).

Lemma get_latest_prices_unfold :
  get_latest_prices env tickers w =
  try_except
    (data <- call_download env (batch_request tickers) ;;
     match data with
     | EmptyFrame =>
         fallback_on_empty env (sym_map_of tickers) (symbols_of tickers)
     | MultiIndexFrame close =>
         read_multi close (sym_map_of tickers) (symbols_of tickers)
     | FlatFrame close =>
         read_flat close (sym_map_of tickers) (symbols_of tickers)
     end)
    (λ _, fallback_on_error env (sym_map_of tickers) (symbols_of tickers)) w.
Proof using Hne.
  unfold get_latest_prices. rewrite prepare_symbols_eq.
  clear -Hne. by destruct tickers.
Qed.

Lemma batch_raises :
  batch_answer env tickers w = DownloadRaises →
  get_latest_prices env tickers w
  = fallback_on_error env (sym_map_of tickers) (symbols_of tickers)
      (after_download tickers w).
Proof using Hne.
  intros Hans. rewrite get_latest_prices_unfold.
  unfold try_except, bind, call_download.
  unfold batch_answer in Hans. by rewrite Hans.
Qed.

Lemma batch_empty :
  batch_answer env tickers w = DownloadReturns EmptyFrame →
  get_latest_prices env tickers w
  = fallback_on_empty env (sym_map_of tickers) (symbols_of tickers)
      (after_download tickers w).
Proof using Hne.
  intros Hans. rewrite get_latest_prices_unfold.
  destruct (fallback_on_empty_spec env _ (sym_map_of_inj tickers)
              _ (after_download tickers w) (sym_map_of_symbol tickers))
    as (results & Hrun & _).
  rewrite Hrun. apply try_except_returns.
  unfold bind, call_download. unfold batch_answer in Hans. by rewrite Hans.
Qed.

Lemma batch_multi close :
  batch_answer env tickers w = DownloadReturns (MultiIndexFrame close) →
  get_latest_prices env tickers w
  = read_multi close (sym_map_of tickers) (symbols_of tickers)
      (after_download tickers w).
Proof using Hne.
  intros Hans. rewrite get_latest_prices_unfold.
  destruct (read_multi_spec _ (sym_map_of_inj tickers)
              close _ (after_download tickers w) (sym_map_of_symbol tickers))
    as (results & Hrun & _).
  rewrite Hrun. apply try_except_returns.
  unfold bind, call_download. unfold batch_answer in Hans. by rewrite Hans.
Qed.

(** A flat frame without a ['Close'] column: the [KeyError] of line 106 is
    caught on line 115. *)
Lemma batch_flat_no_close :
  batch_answer env tickers w = DownloadReturns (FlatFrame None) →
  get_latest_prices env tickers w
  = fallback_on_error env (sym_map_of tickers) (symbols_of tickers)
      (after_download tickers w).
Proof using Hne.
  intros Hans. rewrite get_latest_prices_unfold.
  unfold try_except, bind, call_download.
  unfold batch_answer in Hans. by rewrite Hans.
Qed.

(** A flat frame with closes: one record, filed under the first ticker's
    symbol, and no further provider call. *)
Lemma batch_flat col :
  batch_answer env tickers w = DownloadReturns (FlatFrame (Some col)) →
  ∃ t0 rest k0,
    tickers = t0 :: rest
    ∧ sym_map_of tickers !! to_symbol t0 = Some k0
    ∧ get_latest_prices env tickers w
      = (Returns {[k0 := default null_quote (pure_quote (dropna col))]},
         after_download tickers w).
Proof using Hne.
  intros Hans. rewrite get_latest_prices_unfold.
  assert (∃ t0 rest, tickers = t0 :: rest) as (t0 & rest & Et).
  { clear -Hne. destruct tickers; [done|by eexists _, _]. }
  assert (symbols_of tickers = to_symbol t0 :: symbols_of rest) as Hsym.
  { by rewrite Et. }
  destruct (sym_map_of_symbol tickers (to_symbol t0)) as [k0 Hk0].
  { rewrite Hsym. by apply elem_of_cons; left. }
  exists t0, rest, k0. split; [done|]. split; [done|].
  apply try_except_returns.
  unfold bind at 1, call_download. unfold batch_answer in Hans. rewrite Hans.
  unfold read_flat, getitem_close, bind at 1, ret. rewrite Hsym.
  destruct (dropna col) as [|x l]; simpl.
  - unfold_py. by rewrite Hk0.
  - unfold bind at 1. rewrite quote_of_series_eq.
    destruct (pure_quote_nonempty (x :: l)) as [q ->]; [done|].
    unfold_py. by rewrite Hk0.
Qed.

(** After a batch call that failed as a whole: one individual query per
    requested symbol, in order; a query that stores a record stores the
    quote of its own answer, and every record stored is such a quote. *)
Lemma failed_batch_run :
  batch_failed (batch_answer env tickers w) = true →
  ∃ results,
    get_latest_prices env tickers w
    = (Returns results,
       log_calls (Download (batch_request tickers)
                    :: (History <$> symbols_of tickers)) w)
    ∧ (∀ i s k,
         last_at (symbols_of tickers) i s →
         sym_map_of tickers !! s = Some k →
         stores_on_empty (yf_history env (S (length (upstream_log w)) + i) s)
         = true →
         results !! k
         = Some (history_quote
                   (yf_history env (S (length (upstream_log w)) + i) s)))
    ∧ (∀ k q, results !! k = Some q →
         ∃ i s, symbols_of tickers !! i = Some s
                ∧ sym_map_of tickers !! s = Some k
                ∧ q = history_quote
                        (yf_history env (S (length (upstream_log w)) + i) s)).
Proof using Hne.
  intros Hfail.
  assert (length (upstream_log (after_download tickers w))
          = S (length (upstream_log w))) as Hlen.
  { simpl. rewrite length_app. simpl. lia. }
  assert (log_calls (History <$> symbols_of tickers) (after_download tickers w)
          = log_calls (Download (batch_request tickers)
                         :: (History <$> symbols_of tickers)) w) as Hw.
  { unfold after_download. by rewrite log_call_calls, log_calls_app. }
  destruct (fallback_on_error_spec env _ (sym_map_of_inj tickers)
              _ (after_download tickers w) (sym_map_of_symbol tickers))
    as (r1 & Hrun1 & Hlast1 & Hfrom1).
  destruct (fallback_on_empty_spec env _ (sym_map_of_inj tickers)
              _ (after_download tickers w) (sym_map_of_symbol tickers))
    as (r2 & Hrun2 & Hlast2 & _ & Hfrom2).
  rewrite Hlen in Hlast1, Hlast2, Hfrom1, Hfrom2.
  rewrite Hw in Hrun1, Hrun2.
  destruct (batch_answer env tickers w) as [|[|close|[col|]]] eqn:Hans;
    try done.
  - exists r1. rewrite (batch_raises Hans). split; [done|].
    split; [|done]. intros i s k Hi Hk _. by apply Hlast1.
  - exists r2. rewrite (batch_empty Hans). done.
  - exists r1. rewrite (batch_flat_no_close Hans). split; [done|].
    split; [|done]. intros i s k Hi Hk _. by apply Hlast1.
Qed.

(** After a batch call that returned one column per symbol: no further
    provider call, and every requested symbol is filed with the record of
    its column. *)
Lemma multi_batch_run close :
  batch_answer env tickers w = DownloadReturns (MultiIndexFrame close) →
  ∃ results,
    get_latest_prices env tickers w
    = (Returns results, log_calls [Download (batch_request tickers)] w)
    ∧ (∀ t, t ∈ tickers →
         ∃ t', t' ∈ tickers ∧ to_symbol t' = to_symbol t
               ∧ sym_map_of tickers !! to_symbol t = Some (py_upper t')
               ∧ results !! py_upper t'
                 = Some (multi_quote close (to_symbol t)))
    ∧ (∀ k q, results !! k = Some q → q = multi_quote close (to_symbol k)).
Proof using Hne.
  intros Hans. rewrite (batch_multi close Hans).
  destruct (read_multi_spec _ (sym_map_of_inj tickers) close _
              (after_download tickers w) (sym_map_of_symbol tickers))
    as (results & -> & Hall & Hfrom).
  exists results. split; [done|]. split.
  - intros t Ht.
    destruct (sym_map_of_lookup tickers t Ht) as (t' & Ht' & Hsame & Hk).
    exists t'. split; [done|]. split; [done|]. split; [done|].
    apply Hall; [|done]. unfold symbols_of. by apply list_elem_of_fmap_2.
  - intros k q (s & _ & Hs%sym_map_of_resolves & ->)%Hfrom. by rewrite Hs.
Qed.

(** Whatever the provider does, the batch fetch returns, and all it does to
    the world is to add provider calls to the log. *)
Lemma get_latest_prices_nonempty_returns :
  ∃ price_data cs,
    get_latest_prices env tickers w
    = (Returns price_data, log_calls (Download (batch_request tickers) :: cs) w).
Proof using Hne.
  destruct (batch_answer env tickers w) as [|[|close|[col|]]] eqn:Hans.
  - destruct failed_batch_run as (r & -> & _); [by rewrite Hans|].
    by eexists _, _.
  - destruct failed_batch_run as (r & -> & _); [by rewrite Hans|].
    by eexists _, _.
  - destruct (multi_batch_run close Hans) as (r & -> & _). by eexists _, _.
  - destruct (batch_flat col Hans) as (? & ? & ? & _ & _ & ->).
    by eexists _, [].
  - destruct failed_batch_run as (r & -> & _); [by rewrite Hans|].
    by eexists _, _.
Qed.

End batch_branches.

Lemma get_latest_prices_returns env tickers w :
  ∃ price_data cs,
    get_latest_prices env tickers w = (Returns price_data, log_calls cs w).
Proof.
  destruct (decide (tickers = [])) as [->|Hne].
  - exists ∅, []. by rewrite log_calls_nil.
  - destruct (get_latest_prices_nonempty_returns env tickers w Hne)
      as (pd & cs & ->). by eexists _, _.
Qed.

(** ** The merge loop *)

Lemma prices_body_eq env price_data t response w :
  prices_body env price_data t response w
  = (Returns (<[t := row_of price_data t (served_info env (to_symbol t) w)]>
                response),
     after_fetch env (to_symbol t) w).
Proof.
  unfold prices_body, bind. by rewrite fetch_company_info_eq.
Qed.

(** The loop returns a row for exactly the tickers it walks over. [J] is
    any property of the world that a lookup preserves, [P] what it then
    guarantees of the record served. *)
Lemma prices_loop_spec env price_data (J : World → Prop)
    (P : string → Info.t → Prop) tickers w :
  J w →
  (∀ sym w, J w →
     J (after_fetch env sym w) ∧ P sym (served_info env sym w)) →
  ∃ response w',
    for_each tickers (prices_body env price_data) ∅ w = (Returns response, w')
    ∧ J w'
    ∧ dom response = list_to_set tickers
    ∧ ∀ t r, response !! t = Some r →
        ∃ info, P (to_symbol t) info ∧ r = row_of price_data t info.
Proof.
  intros HJ Hstep.
  destruct (for_each_inv
    (λ pre acc w', J w' ∧ dom acc = list_to_set pre
       ∧ ∀ t r, acc !! t = Some r →
           ∃ info, P (to_symbol t) info ∧ r = row_of price_data t info)
    tickers (prices_body env price_data) ∅ w)
    as (response & w' & Hrun & Hres).
  - split; [done|]. split; [by rewrite dom_empty_L|].
    intros t r. by rewrite lookup_empty.
  - intros pre x post acc w0 _ (HJ0 & Hdom & Hrows).
    rewrite prices_body_eq. eexists _, _. split; [done|].
    destruct (Hstep (to_symbol x) w0 HJ0) as [HJ1 HP].
    split; [done|]. split.
    + rewrite dom_insert_L, Hdom, list_to_set_app_L. simpl.
      rewrite (right_id_L ∅ (∪)). apply (comm_L (∪)).
    + intros t r. rewrite lookup_insert. case_decide as E.
      * intros [= <-]. subst t. by eexists.
      * apply Hrows.
  - by exists response, w'.
Qed.

Lemma capped_eq tickers :
  (if (MAX <? length tickers)%nat then take MAX tickers else tickers)
  = capped tickers.
Proof.
  unfold capped. destruct (Nat.ltb_spec MAX (length tickers)); [done|].
  by rewrite take_ge.
Qed.

Lemma prices_unfold env tickers w :
  prices env tickers w =
  match get_latest_prices env (capped tickers) w with
  | (Returns price_data, w') =>
      for_each (capped tickers) (prices_body env price_data) ∅ w'
  | (Raises e, w') => (Raises e, w')
  end.
Proof. unfold prices. by rewrite capped_eq. Qed.

(** The route returns, with a row for exactly the capped tickers; see
    [prices_loop_spec] for [J] and [P]. *)
Lemma prices_spec env (J : World → Prop) (P : string → Info.t → Prop)
    tickers w :
  J w →
  (∀ cs w, J w → J (log_calls cs w)) →
  (∀ sym w, J w →
     J (after_fetch env sym w) ∧ P sym (served_info env sym w)) →
  ∃ price_data cs response w',
    get_latest_prices env (capped tickers) w
    = (Returns price_data, log_calls cs w)
    ∧ prices env tickers w = (Returns response, w')
    ∧ J w'
    ∧ dom response = list_to_set (capped tickers)
    ∧ ∀ t r, response !! t = Some r →
        ∃ info, P (to_symbol t) info ∧ r = row_of price_data t info.
Proof.
  intros HJ Hlog Hstep.
  destruct (get_latest_prices_returns env (capped tickers) w)
    as (pd & cs & Hpd).
  destruct (prices_loop_spec env pd J P (capped tickers) (log_calls cs w))
    as (response & w' & Hrun & Hres); [by apply Hlog|done|].
  exists pd, cs, response, w'. split; [done|].
  split; [|done]. by rewrite prices_unfold, Hpd.
Qed.

(** ** Failures that end in nulls and placeholders *)

(** When the batch call fails as a whole and every individual query for a
    symbol raises, no ticker of that symbol has a price. *)
Lemma failed_batch_nulls env tickers w t :
  batch_failed (batch_answer env tickers w) = true →
  (∀ n, yf_history env n (to_symbol t) = HistoryRaises) →
  ∀ price_data w',
    get_latest_prices env tickers w = (Returns price_data, w') →
    default null_quote (price_data !! t) = null_quote.
Proof.
  intros Hfail Hraise pd w' Hrun.
  destruct (decide (tickers = [])) as [->|Hne].
  { injection Hrun as <- _. by rewrite lookup_empty. }
  destruct (failed_batch_run env tickers w Hne Hfail)
    as (results & Hrun' & _ & Hfrom).
  rewrite Hrun' in Hrun. injection Hrun as <- _.
  destruct (results !! t) as [q|] eqn:Hq; [simpl|done].
  destruct (Hfrom t q Hq) as (i & s & _ & Hs%sym_map_of_resolves & ->).
  by rewrite <- Hs, Hraise.
Qed.

(** When the batch frame has one column per symbol and the column of a
    symbol is missing or holds no number, no ticker of that symbol has a
    price. *)
Lemma uncovered_nulls env tickers w t close :
  batch_answer env tickers w = DownloadReturns (MultiIndexFrame close) →
  (∀ col, close (to_symbol t) = Some col → dropna col = []) →
  ∀ price_data w',
    get_latest_prices env tickers w = (Returns price_data, w') →
    default null_quote (price_data !! t) = null_quote.
Proof.
  intros Hans Hcol pd w' Hrun.
  destruct (decide (tickers = [])) as [->|Hne].
  { injection Hrun as <- _. by rewrite lookup_empty. }
  destruct (multi_batch_run env tickers w Hne close Hans)
    as (results & Hrun' & _ & Hfrom).
  rewrite Hrun' in Hrun. injection Hrun as <- _.
  destruct (results !! t) as [q|] eqn:Hq; [simpl|done].
  rewrite (Hfrom t q Hq). unfold multi_quote.
  destruct (close (to_symbol t)) as [col|]; [|done].
  by rewrite (Hcol col eq_refl).
Qed.

(** While the provider raises on every request for the details of a symbol,
    its cache entry, if any, is the placeholder. *)
Lemma placeholder_invariant env sym0 :
  (∀ n, yf_info env n sym0 = InfoRaises) →
  let J := λ w : World,
    ∀ e, company_info_cache w !! sym0 = Some e →
         Entry.info e = Info.mk sym0 "" in
  ∀ sym w, J w →
    J (after_fetch env sym w)
    ∧ (sym = sym0 → served_info env sym w = Info.mk sym0 "").
Proof.
  intros Hraise J sym w HJ. split.
  - unfold after_fetch. destruct (is_fresh env sym w); [done|].
    intros e. simpl. rewrite lookup_insert. case_decide as E; [|apply HJ].
    intros [= <-]. simpl. subst sym. unfold refreshed_info. by rewrite Hraise.
  - intros ->. unfold served_info, refreshed_info. rewrite Hraise.
    destruct (company_info_cache w !! sym0) as [e|] eqn:He; [|done].
    destruct (is_fresh env sym0 w); [by apply HJ|done].
Qed.


(** ** The route over provider values of any kind *)

Lemma dyn_slice_to_raises n v e :
  Dyn.slice_to n v = Raises e → e = TypeError ∧ Dyn.sliceable v = false.
Proof. by destruct v; intros [= <-]. Qed.

Lemma dyn_slice_to_returns n v :
  Dyn.sliceable v = true → ∃ d, Dyn.slice_to n v = Returns d.
Proof. destruct v; try done; by eexists. Qed.

Lemma dyn_fetch_company_info_eq env symbol w :
  Dyn.fetch_company_info env symbol w =
  (Returns (Dyn.served_info env symbol w), Dyn.after_fetch env symbol w).
Proof.
  unfold Dyn.fetch_company_info, Dyn.served_info, Dyn.after_fetch,
    Dyn.is_fresh, Dyn.refreshed_info, Dyn.record_of.
  unfold bind, Dyn.read_clock, Dyn.cache_get; simpl.
  destruct (Dyn.company_info_cache w !! symbol) as [e|] eqn:He; simpl.
  - destruct (Qlt_le_dec _ _) as [Hlt|Hle]; [done|].
    unfold try_except, Dyn.call_info, Dyn.cache_set, ret; simpl.
    by destruct (Dyn.yf_info env _ symbol).
  - unfold try_except, Dyn.call_info, Dyn.cache_set, ret; simpl.
    by destruct (Dyn.yf_info env _ symbol).
Qed.

Lemma dyn_prices_body_eq env price_data t response w :
  Dyn.prices_body env price_data t response w
  = (let info := Dyn.served_info env (to_symbol t) w in
     match Dyn.slice_to 600 (Dyn.Info.description info) with
     | Returns d => Returns (<[t := Dyn.row_of price_data t info d]> response)
     | Raises e => Raises e
     end,
     Dyn.after_fetch env (to_symbol t) w).
Proof.
  unfold Dyn.prices_body, bind. rewrite dyn_fetch_company_info_eq.
  unfold Dyn.getslice. cbv zeta.
  by destruct (Dyn.slice_to 600 _).
Qed.

(** The quote layer, run from this layer: it returns, and all it does to
    the world is to add provider calls to the log. *)
Lemma dyn_quotes env tickers w :
  ∃ price_data cs,
    get_latest_prices (Dyn.market env) tickers (Dyn.hide w)
    = (Returns price_data, log_calls cs (Dyn.hide w))
    ∧ Dyn.lift (get_latest_prices (Dyn.market env) tickers) w
      = (Returns price_data, Dyn.log_calls cs w).
Proof.
  destruct (get_latest_prices_returns (Dyn.market env) tickers (Dyn.hide w))
    as (pd & cs & Hpd).
  exists pd, cs. split; [done|].
  unfold Dyn.lift, on_trace. fold (Dyn.hide w). by rewrite Hpd.
Qed.

(** The merge loop. [J] is any property of the world that a lookup
    preserves, [P] what it then guarantees of the record served. The loop
    returns a row for exactly the tickers it walks over, unless a served
    description cannot be sliced: then it raises [TypeError]. *)
Lemma dyn_prices_loop_spec env price_data (J : Dyn.World → Prop)
    (P : string → Dyn.Info.t → Prop) tickers w :
  J w →
  (∀ sym w, J w →
     J (Dyn.after_fetch env sym w) ∧ P sym (Dyn.served_info env sym w)) →
  (∃ response w',
     for_each tickers (Dyn.prices_body env price_data) ∅ w
     = (Returns response, w')
     ∧ J w'
     ∧ dom response = list_to_set tickers
     ∧ ∀ t r, response !! t = Some r →
         ∃ info d, P (to_symbol t) info
                   ∧ Dyn.slice_to 600 (Dyn.Info.description info) = Returns d
                   ∧ r = Dyn.row_of price_data t info d)
  ∨ (∃ e w',
       for_each tickers (Dyn.prices_body env price_data) ∅ w = (Raises e, w')
       ∧ e = TypeError
       ∧ ∃ t info, t ∈ tickers ∧ P (to_symbol t) info
                   ∧ Dyn.sliceable (Dyn.Info.description info) = false).
Proof.
  intros HJ Hstep.
  destruct (for_each_cases
    (λ pre acc w', J w' ∧ dom acc = list_to_set pre
       ∧ ∀ t r, acc !! t = Some r →
           ∃ info d, P (to_symbol t) info
                     ∧ Dyn.slice_to 600 (Dyn.Info.description info) = Returns d
                     ∧ r = Dyn.row_of price_data t info d)
    (λ e _, e = TypeError
       ∧ ∃ t info, t ∈ tickers ∧ P (to_symbol t) info
                   ∧ Dyn.sliceable (Dyn.Info.description info) = false)
    tickers (Dyn.prices_body env price_data) ∅ w)
    as [(response & w' & Hrun & Hres)|(e & w' & Hrun & Hres)].
  - split; [done|]. split; [by rewrite dom_empty_L|].
    intros t r. by rewrite lookup_empty.
  - intros pre x post acc w0 Hl (HJ0 & Hdom & Hrows).
    rewrite dyn_prices_body_eq. cbv zeta.
    destruct (Hstep (to_symbol x) w0 HJ0) as [HJ1 HP].
    destruct (Dyn.slice_to 600 _) as [d|e] eqn:Hslice.
    + left. eexists _, _. split; [done|]. split; [done|]. split.
      * rewrite dom_insert_L, Hdom, list_to_set_app_L. simpl.
        rewrite (right_id_L ∅ (∪)). apply (comm_L (∪)).
      * intros t r. rewrite lookup_insert. case_decide as E.
        -- intros [= <-]. subst t. by eexists _, _.
        -- apply Hrows.
    + right. eexists _, _. split; [done|].
      apply dyn_slice_to_raises in Hslice as [-> Hno]. split; [done|].
      exists x, (Dyn.served_info env (to_symbol x) w0).
      split; [|done]. rewrite Hl. apply elem_of_app. right.
      by apply elem_of_cons; left.
  - left. by exists response, w'.
  - right. by exists e, w'.
Qed.

Lemma dyn_prices_unfold env tickers w :
  Dyn.prices env tickers w =
  match Dyn.lift (get_latest_prices (Dyn.market env) (capped tickers)) w with
  | (Returns price_data, w') =>
      for_each (capped tickers) (Dyn.prices_body env price_data) ∅ w'
  | (Raises e, w') => (Raises e, w')
  end.
Proof. unfold Dyn.prices. by rewrite capped_eq. Qed.

(** The route: see [dyn_prices_loop_spec] for [J] and [P]. *)
Lemma dyn_prices_spec env (J : Dyn.World → Prop)
    (P : string → Dyn.Info.t → Prop) tickers w :
  J w →
  (∀ cs w, J w → J (Dyn.log_calls cs w)) →
  (∀ sym w, J w →
     J (Dyn.after_fetch env sym w) ∧ P sym (Dyn.served_info env sym w)) →
  ∃ price_data cs,
    get_latest_prices (Dyn.market env) (capped tickers) (Dyn.hide w)
    = (Returns price_data, log_calls cs (Dyn.hide w))
    ∧ ((∃ response w',
          Dyn.prices env tickers w = (Returns response, w')
          ∧ J w'
          ∧ dom response = list_to_set (capped tickers)
          ∧ ∀ t r, response !! t = Some r →
              ∃ info d,
                P (to_symbol t) info
                ∧ Dyn.slice_to 600 (Dyn.Info.description info) = Returns d
                ∧ r = Dyn.row_of price_data t info d)
       ∨ (∃ w',
            Dyn.prices env tickers w = (Raises TypeError, w')
            ∧ ∃ t info, t ∈ capped tickers ∧ P (to_symbol t) info
                        ∧ Dyn.sliceable (Dyn.Info.description info) = false)).
Proof.
  intros HJ Hlog Hstep.
  destruct (dyn_quotes env (capped tickers) w) as (pd & cs & Hpd & Hlift).
  exists pd, cs. split; [done|].
  rewrite dyn_prices_unfold, Hlift.
  destruct (dyn_prices_loop_spec env pd J P (capped tickers)
              (Dyn.log_calls cs w))
    as [(response & w' & Hrun & Hres)|(e & w' & Hrun & -> & Hbad)];
    [by apply Hlog|done| |].
  - left. by exists response, w'.
  - right. by exists w'.
Qed.

(** Descriptions that can be sliced stay so: in the cache, and in what a
    lookup serves. *)
Lemma dyn_sliceable_invariant env :
  Dyn.sliceable_answers env →
  ∀ sym w, Dyn.sliceable_cache w →
    Dyn.sliceable_cache (Dyn.after_fetch env sym w)
    ∧ Dyn.sliceable (Dyn.Info.description (Dyn.served_info env sym w)) = true.
Proof.
  intros Henv sym w Hw. split.
  - unfold Dyn.after_fetch. destruct (Dyn.is_fresh env sym w); [done|].
    intros s e. simpl. rewrite lookup_insert. case_decide as E; [|apply Hw].
    intros [= <-]. simpl. apply Henv.
  - unfold Dyn.served_info.
    destruct (Dyn.company_info_cache w !! sym) as [e|] eqn:He; [|apply Henv].
    destruct (Dyn.is_fresh env sym w); [by apply (Hw sym)|apply Henv].
Qed.

(** While the provider raises on every request for the details of a symbol,
    its cache entry, if any, is the placeholder. *)
Lemma dyn_placeholder_invariant env sym0 :
  (∀ n, Dyn.yf_info env n sym0 = Dyn.InfoRaises) →
  let J := λ w : Dyn.World,
    ∀ e, Dyn.company_info_cache w !! sym0 = Some e →
         Dyn.Entry.info e = Dyn.Info.mk (Dyn.PyStr sym0) (Dyn.PyStr "") in
  ∀ sym w, J w →
    J (Dyn.after_fetch env sym w)
    ∧ (sym = sym0 →
       Dyn.served_info env sym w = Dyn.Info.mk (Dyn.PyStr sym0) (Dyn.PyStr "")).
Proof.
  intros Hraise J sym w HJ. split.
  - unfold Dyn.after_fetch. destruct (Dyn.is_fresh env sym w); [done|].
    intros e. simpl. rewrite lookup_insert. case_decide as E; [|apply HJ].
    intros [= <-]. simpl. subst sym. unfold Dyn.refreshed_info.
    by rewrite Hraise.
  - intros ->. unfold Dyn.served_info, Dyn.refreshed_info. rewrite Hraise.
    destruct (Dyn.company_info_cache w !! sym0) as [e|] eqn:He; [|done].
    destruct (Dyn.is_fresh env sym0 w); [by apply HJ|done].
Qed.

(** What a lookup serves was in the cache at the start of the request or
    comes from an answer of the provider for that symbol. *)
Lemma dyn_supplied_invariant env w0 :
  let J := λ w : Dyn.World,
    ∀ sym e, Dyn.company_info_cache w !! sym = Some e →
      Dyn.supplied env w0 sym (Dyn.Info.description (Dyn.Entry.info e)) in
  ∀ sym w, J w →
    J (Dyn.after_fetch env sym w)
    ∧ Dyn.supplied env w0 sym
        (Dyn.Info.description (Dyn.served_info env sym w)).
Proof.
  intros J sym w HJ.
  assert (Dyn.supplied env w0 sym
            (Dyn.Info.description (Dyn.refreshed_info env sym w))) as Hnew.
  { right. by eexists. }
  split.
  - unfold Dyn.after_fetch. destruct (Dyn.is_fresh env sym w); [done|].
    intros s e. simpl. rewrite lookup_insert. case_decide as E; [|apply HJ].
    intros [= <-]. by subst s.
  - unfold Dyn.served_info.
    destruct (Dyn.company_info_cache w !! sym) as [e|] eqn:He; [|done].
    destruct (Dyn.is_fresh env sym w); [by apply (HJ sym)|done].
Qed.

Lemma dyn_slice_to_prefix n v d :
  Dyn.slice_to n v = Returns d →
  (∃ s kept rest,
     v = Dyn.PyStr s ∧ d = Dyn.PyStr kept ∧ s = kept +:+ rest
     ∧ String.length kept = min n (String.length s))
  ∨ (∃ items kept rest,
       v = Dyn.PyList items ∧ d = Dyn.PyList kept ∧ items = kept ++ rest
       ∧ length kept = min n (length items)).
Proof.
  destruct v; try done; intros [= <-].
  - left. destruct (py_take_prefix n s) as (rest & Hs & Hlen).
    by exists s, (py_take n s), rest.
  - right. exists items, (take n items), (drop n items).
    split; [done|]. split; [done|]. split; [by rewrite take_drop|].
    apply length_take.
Qed.

(** The rows of a returned response, and where their descriptions come
    from. *)
Lemma dyn_rows_sliced env tickers w response w' :
  Dyn.prices env tickers w = (Returns response, w') →
  dom response = list_to_set (take 200 tickers)
  ∧ ∀ t r, response !! t = Some r →
      ∃ d, Dyn.supplied env w (to_symbol t) d
           ∧ ((∃ s kept rest,
                 d = Dyn.PyStr s ∧ Dyn.Row.description r = Dyn.PyStr kept
                 ∧ s = kept +:+ rest
                 ∧ String.length kept = min 600 (String.length s))
              ∨ (∃ items kept rest,
                   d = Dyn.PyList items
                   ∧ Dyn.Row.description r = Dyn.PyList kept
                   ∧ items = kept ++ rest
                   ∧ length kept = min 600 (length items))).
Proof.
  intros Hreturns.
  destruct (dyn_prices_spec env
              (λ w0, ∀ sym e, Dyn.company_info_cache w0 !! sym = Some e →
                       Dyn.supplied env w sym
                         (Dyn.Info.description (Dyn.Entry.info e)))
              (λ sym info,
                 Dyn.supplied env w sym (Dyn.Info.description info))
              tickers w)
    as (pd & cs & _
        & [(response2 & w2 & Hrun & _ & Hdom & Hrows)|(w2 & Hrun & _)]).
  - intros sym e0 He. left. by exists e0.
  - by intros ?? H.
  - apply dyn_supplied_invariant.
  - rewrite Hrun in Hreturns. injection Hreturns as -> ->.
    split; [done|].
    intros t r (info & d & Hsup & Hd & ->)%Hrows.
    exists (Dyn.Info.description info). split; [done|].
    unfold Dyn.row_of. cbn [Dyn.Row.description].
    by apply (dyn_slice_to_prefix 600).
  - by rewrite Hrun in Hreturns.
Qed.

(** ** The quote layer looks at the provider log only *)

Lemma agree_ret {A} (a : A) : agree (ret a) (ret a).
Proof. by intros w1 w2 H. Qed.

Lemma agree_raise {A} e : agree (raise (A:=A) e) (raise e).
Proof. by intros w1 w2 H. Qed.

Lemma agree_bind {A B} (m1 m2 : M A) (k1 k2 : A → M B) :
  agree m1 m2 → (∀ a, agree (k1 a) (k2 a)) →
  agree (bind m1 k1) (bind m2 k2).
Proof.
  intros Hm Hk w1 w2 H. unfold bind.
  destruct (Hm w1 w2 H) as [Hr Hw].
  destruct (m1 w1) as [[a|e] w1'], (m2 w2) as [r2 w2']; simpl in *;
    subst r2; [by apply Hk|done].
Qed.

Lemma agree_try {A} (b1 b2 : M A) (h1 h2 : exn → M A) :
  agree b1 b2 → (∀ e, agree (h1 e) (h2 e)) →
  agree (try_except b1 h1) (try_except b2 h2).
Proof.
  intros Hb Hh w1 w2 H. unfold try_except.
  destruct (Hb w1 w2 H) as [Hr Hw].
  destruct (b1 w1) as [[a|e] w1'], (b2 w2) as [r2 w2']; simpl in *;
    subst r2; [done|by apply Hh].
Qed.

Lemma agree_for_each {A S} (l : list A) (body1 body2 : A → S → M S) acc :
  (∀ x acc, agree (body1 x acc) (body2 x acc)) →
  agree (for_each l body1 acc) (for_each l body2 acc).
Proof.
  intros Hbody. revert acc.
  induction l as [|x l IH]; intros acc; simpl; [apply agree_ret|].
  apply agree_bind; [apply Hbody|apply IH].
Qed.

Lemma agree_getitem {A} (d : gmap string A) k : agree (getitem d k) (getitem d k).
Proof. unfold getitem. destruct (d !! k); [apply agree_ret|apply agree_raise]. Qed.

Lemma agree_getitem_close close :
  agree (getitem_close close) (getitem_close close).
Proof. destruct close; [apply agree_ret|apply agree_raise]. Qed.

Lemma agree_first_item {A} (l : list A) : agree (first_item l) (first_item l).
Proof. destruct l; [apply agree_raise|apply agree_ret]. Qed.

Lemma agree_quote_of_series series :
  agree (quote_of_series series) (quote_of_series series).
Proof. intros w1 w2 H. by rewrite !quote_of_series_eq. Qed.

Section same_quotes.
Context (env1 env2 : Provider).
Context (Hdownload : ∀ n s, yf_download env1 n s = yf_download env2 n s).
Context (Hhistory : ∀ n s, yf_history env1 n s = yf_history env2 n s).

Lemma agree_call_download s :
  agree (call_download env1 s) (call_download env2 s).
Proof using Hdownload.
  intros w1 w2 H. unfold call_download, same_trace in *.
  rewrite Hdownload, H.
  destruct (yf_download env2 _ s); simpl; by rewrite H.
Qed.

Lemma agree_call_history s :
  agree (call_history env1 s) (call_history env2 s).
Proof using Hhistory.
  intros w1 w2 H. unfold call_history, same_trace in *.
  rewrite Hhistory, H.
  destruct (yf_history env2 _ s); simpl; by rewrite H.
Qed.

Lemma agree_store (sym_map : gmap string string) s (q : Quote.t)
    (results : gmap string Quote.t) :
  agree (k <- getitem sym_map s ;; ret (<[k := q]> results))
        (k <- getitem sym_map s ;; ret (<[k := q]> results)).
Proof.
  apply agree_bind; [apply agree_getitem|]. intros k. apply agree_ret.
Qed.

Lemma agree_quote_and_store (sym_map : gmap string string) s col
    (results : gmap string Quote.t) :
  agree (col <- getitem_close col ;;
         q <- quote_of_series col ;;
         k <- getitem sym_map s ;;
         ret (<[k := q]> results))
        (col <- getitem_close col ;;
         q <- quote_of_series col ;;
         k <- getitem sym_map s ;;
         ret (<[k := q]> results)).
Proof.
  apply agree_bind; [apply agree_getitem_close|]. intros c.
  apply agree_bind; [apply agree_quote_of_series|]. intros q.
  apply agree_store.
Qed.

Lemma agree_get_latest_prices tickers :
  agree (get_latest_prices env1 tickers) (get_latest_prices env2 tickers).
Proof using Hdownload Hhistory.
  unfold get_latest_prices. destruct tickers as [|t0 rest]; [apply agree_ret|].
  destruct (prepare_symbols (t0 :: rest)) as [sym_map symbols].
  apply agree_try.
  - apply agree_bind; [apply agree_call_download|].
    intros [|close|close].
    + apply agree_for_each. intros s results.
      apply agree_try; [|intros _; apply agree_store].
      apply agree_bind; [apply agree_call_history|].
      intros [| |close]; try apply agree_ret. apply agree_quote_and_store.
    + apply agree_for_each. intros s results. unfold read_multi_body.
      destruct (close s) as [col|]; [|apply agree_store].
      destruct (length (dropna col) =? 0)%nat; [apply agree_store|].
      apply agree_bind; [apply agree_quote_of_series|]. intros q.
      apply agree_store.
    + unfold read_flat.
      apply agree_bind; [apply agree_getitem_close|]. intros col.
      destruct (length (dropna col) =? 0)%nat.
      * apply agree_bind; [apply agree_first_item|]. intros s0.
        apply agree_store.
      * apply agree_bind; [apply agree_quote_of_series|]. intros q.
        apply agree_bind; [apply agree_first_item|]. intros s0.
        apply agree_store.
  - intros _. apply agree_for_each. intros s results.
    apply agree_try; [|intros _; apply agree_store].
    apply agree_bind; [apply agree_call_history|].
    intros [| |close]; try apply agree_store. apply agree_quote_and_store.
Qed.

(** The batch fetch depends on the download and history oracles and on the
    provider log, and on nothing else: not on the cache, the clock or the
    details oracle. *)
Lemma get_latest_prices_same_quotes tickers w1 w2 price_data cs :
  same_trace w1 w2 →
  get_latest_prices env1 tickers w1 = (Returns price_data, log_calls cs w1) →
  get_latest_prices env2 tickers w2 = (Returns price_data, log_calls cs w2).
Proof using Hdownload Hhistory.
  intros H Hrun1.
  destruct (get_latest_prices_returns env2 tickers w2) as (pd2 & cs2 & Hrun2).
  destruct (agree_get_latest_prices tickers w1 w2 H) as [Hr Hw].
  rewrite Hrun1, Hrun2 in Hr, Hw. simpl in Hr, Hw.
  injection Hr as ->. unfold same_trace in Hw, H. simpl in Hw.
  rewrite H in Hw. apply app_inv_head in Hw. by subst cs2.
Qed.

End same_quotes.

(** ** A provider of text, seen as a provider of arbitrary values *)

Lemma text_record_of symbol r :
  Dyn.record_of symbol (Text.answer r) = Text.info (record_of symbol r).
Proof.
  destruct r as [|d]; [done|]. unfold Dyn.record_of, record_of, Text.info.
  simpl. f_equal.
  - by destruct (longName d) as [[|??]|], (shortName d) as [[|??]|].
  - by destruct (longBusinessSummary d) as [[|??]|], (sector d) as [[|??]|].
Qed.

Lemma text_is_fresh env symbol w :
  Dyn.is_fresh (Text.provider env) symbol (Text.world w)
  = is_fresh env symbol w.
Proof.
  unfold Dyn.is_fresh, is_fresh, clock_now. simpl. rewrite lookup_fmap.
  by destruct (company_info_cache w !! symbol).
Qed.

Lemma text_refreshed_info env symbol w :
  Dyn.refreshed_info (Text.provider env) symbol (Text.world w)
  = Text.info (refreshed_info env symbol w).
Proof. unfold Dyn.refreshed_info. simpl. apply text_record_of. Qed.

Lemma text_served_info env symbol w :
  Dyn.served_info (Text.provider env) symbol (Text.world w)
  = Text.info (served_info env symbol w).
Proof.
  unfold Dyn.served_info, served_info.
  rewrite text_is_fresh, text_refreshed_info. simpl. rewrite lookup_fmap.
  destruct (company_info_cache w !! symbol) as [e|]; [|done]. simpl.
  by destruct (is_fresh env symbol w).
Qed.

Lemma text_after_fetch env symbol w :
  Dyn.after_fetch (Text.provider env) symbol (Text.world w)
  = Text.world (after_fetch env symbol w).
Proof.
  unfold Dyn.after_fetch, after_fetch.
  rewrite text_is_fresh, text_refreshed_info.
  destruct (is_fresh env symbol w); [done|].
  unfold Text.world. simpl. by rewrite fmap_insert.
Qed.

Lemma text_prices_body env price_data t response w :
  Dyn.prices_body (Text.provider env) price_data t (Text.row <$> response)
    (Text.world w)
  = Text.run (fmap Text.row) (prices_body env price_data t response w).
Proof.
  rewrite dyn_prices_body_eq, prices_body_eq, text_served_info,
    text_after_fetch.
  unfold Text.run. simpl. by rewrite fmap_insert.
Qed.

Lemma text_loop env price_data tickers response w :
  for_each tickers (Dyn.prices_body (Text.provider env) price_data)
    (Text.row <$> response) (Text.world w)
  = Text.run (fmap Text.row)
      (for_each tickers (prices_body env price_data) response w).
Proof.
  revert response w. induction tickers as [|t tickers IH]; intros response w.
  - done.
  - simpl. unfold bind. rewrite text_prices_body, prices_body_eq.
    unfold Text.run at 1. simpl. apply IH.
Qed.

Lemma text_quotes env tickers w :
  Dyn.lift (get_latest_prices (Dyn.market (Text.provider env)) tickers)
    (Text.world w)
  = Text.run id (get_latest_prices env tickers w).
Proof.
  destruct (get_latest_prices_returns env tickers w) as (pd & cs & Hrun).
  pose proof (get_latest_prices_same_quotes env
                (Dyn.market (Text.provider env)) (λ _ _, eq_refl)
                (λ _ _, eq_refl) tickers w (Dyn.hide (Text.world w)) pd cs
                eq_refl Hrun) as Hrun'.
  unfold Dyn.lift, on_trace. fold (Dyn.hide (Text.world w)).
  by rewrite Hrun', Hrun.
Qed.

(** ** Rounding and the percent change *)





(** *** Floats through their specification *)
















Lemma pure_quote_two older p l :
  pure_quote (older ++ [p; l])
  = Some (Quote.mk (Some (py_round l 4)) (Some (change_pct_of l p))).
Proof. unfold pure_quote. by rewrite rev_app_distr. Qed.

(** * The specification's claims *)

(** ** Symbol resolution *)

(** C6, as the code has it: the only suffixes [to_symbol] recognises are
    ".NS" and ".BO". An input whose trimmed, upper-cased form ends with one
    of them is resolved to that form; every other input, one ending in
    "-USD" included, gets ".NS" appended to that form. *)
Theorem to_symbol_suffix_cases t :
  let u := py_upper (py_strip t) in
  (py_endswith u ".NS" = true ∨ py_endswith u ".BO" = true → to_symbol t = u)
  ∧ (py_endswith u ".NS" = false → py_endswith u ".BO" = false →
     to_symbol t = u +:+ ".NS").
Proof.
  intros u. unfold to_symbol. fold u. split.
  - intros [-> | ->]; [done|]. by rewrite orb_true_r.
  - by intros -> ->.
Qed.

Lemma to_symbol_suffix_cases_witness :
  to_symbol " infy.bo " = "INFY.BO" ∧ to_symbol "BTC-USD" = "BTC-USD.NS".
Proof.
  split.
  - apply (proj1 (to_symbol_suffix_cases " infy.bo ")). right. reflexivity.
  - apply (proj2 (to_symbol_suffix_cases "BTC-USD")); reflexivity.
Defined.

(** C6 as stated fails: "BTC-USD" is trimmed, upper-case and ends with
    "-USD", yet it is not returned unchanged. *)
Lemma to_symbol_usd_changed :
  py_upper (py_strip "BTC-USD") = "BTC-USD"
  ∧ py_endswith "BTC-USD" "-USD" = true
  ∧ to_symbol "BTC-USD" ≠ "BTC-USD".
Proof. split; [reflexivity|]. split; [reflexivity|]. discriminate. Qed.

(** C7: [to_symbol] is idempotent, and a trimmed upper-case string that
    already carries ".NS" or ".BO" is returned as it is. *)
Theorem to_symbol_idempotent :
  (∀ t, to_symbol (to_symbol t) = to_symbol t)
  ∧ (∀ s, py_upper (py_strip s) = s →
          py_endswith s ".NS" || py_endswith s ".BO" = true →
          to_symbol s = s).
Proof. split; [apply to_symbol_idemp|apply to_symbol_fixed]. Qed.

Lemma to_symbol_idempotent_witness :
  to_symbol (to_symbol " tcs ") = to_symbol " tcs "
  ∧ to_symbol "RELIANCE.BO" = "RELIANCE.BO".
Proof.
  split.
  - apply (proj1 to_symbol_idempotent).
  - apply (proj2 to_symbol_idempotent); reflexivity.
Defined.

(** ** The company-information cache *)

(** C5: with an entry for the symbol fetched at [T] in the cache, a lookup
    at a time strictly before [T + 3600] returns the cached record and
    leaves the cache and the provider log as they were; a lookup at or
    after [T + 3600] makes one provider call for the symbol and stores what
    it returns under the new time. *)
Theorem cache_ttl_window env symbol e w :
  company_info_cache w !! symbol = Some e →
  let T := Entry.fetched_at e in
  let now := time_time env (clock_reads w) in
  ((now < T + 3600)%Q →
     ∃ w', fetch_company_info env symbol w = (Returns (Entry.info e), w')
           ∧ upstream_log w' = upstream_log w
           ∧ company_info_cache w' = company_info_cache w)
  ∧ ((T + 3600 <= now)%Q →
     ∃ info w', fetch_company_info env symbol w = (Returns info, w')
                ∧ upstream_log w' = upstream_log w ++ [TickerInfo symbol]
                ∧ company_info_cache w' !! symbol = Some (Entry.mk info now)).
Proof.
  intros He T now. rewrite fetch_company_info_eq.
  unfold served_info, after_fetch, is_fresh, clock_now. rewrite He.
  fold T now. unfold COMPANY_INFO_TTL.
  split; intros Hnow.
  - destruct (Qlt_le_dec (now - T) (60 * 60)) as [_|Hle]; [by eexists|].
    exfalso. lra.
  - destruct (Qlt_le_dec (now - T) (60 * 60)) as [Hlt|_]; [exfalso; lra|].
    eexists _, _. split; [done|]. split; [done|]. simpl.
    apply lookup_insert_eq.
Qed.

Lemma cache_ttl_window_witness :
  (∃ w', fetch_company_info (failing_provider 3599) "TCS.NS" cached_world
         = (Returns (Info.mk "Tata Consultancy Services" "IT services"), w')
         ∧ upstream_log w' = []
         ∧ company_info_cache w' = company_info_cache cached_world)
  ∧ (∃ info w', fetch_company_info (failing_provider 3600) "TCS.NS" cached_world
                = (Returns info, w')
                ∧ upstream_log w' = [TickerInfo "TCS.NS"]
                ∧ company_info_cache w' !! "TCS.NS"
                  = Some (Entry.mk info 3600)).
Proof.
  split.
  - apply (proj1 (cache_ttl_window (failing_provider 3599) "TCS.NS"
                    (Entry.mk (Info.mk "Tata Consultancy Services" "IT services") 0)
                    cached_world eq_refl)).
    reflexivity.
  - apply (proj2 (cache_ttl_window (failing_provider 3600) "TCS.NS"
                    (Entry.mk (Info.mk "Tata Consultancy Services" "IT services") 0)
                    cached_world eq_refl)).
    simpl. discriminate.
Defined.

(** C8: when the cache has no entry younger than the TTL, the lookup returns
    a record and stores that very record under the current time, whatever
    the provider did; the record is [{name: symbol, description: ''}] when
    the provider raised; and a later lookup within the TTL, in any world
    that still holds the entry, is served from the cache without a provider
    call. *)
Theorem failed_fetch_is_cached env symbol w :
  (∀ e, company_info_cache w !! symbol = Some e →
        (Entry.fetched_at e + 3600 <= time_time env (clock_reads w))%Q) →
  let now := time_time env (clock_reads w) in
  ∃ info w1,
    fetch_company_info env symbol w = (Returns info, w1)
    ∧ company_info_cache w1 !! symbol = Some (Entry.mk info now)
    ∧ upstream_log w1 = upstream_log w ++ [TickerInfo symbol]
    ∧ (yf_info env (length (upstream_log w)) symbol = InfoRaises →
       info = Info.mk symbol "")
    ∧ ∀ env' w2,
        company_info_cache w2 !! symbol = Some (Entry.mk info now) →
        (time_time env' (clock_reads w2) < now + 3600)%Q →
        ∃ w3, fetch_company_info env' symbol w2 = (Returns info, w3)
              ∧ upstream_log w3 = upstream_log w2.
Proof.
  intros Hstale now. rewrite fetch_company_info_eq.
  assert (is_fresh env symbol w = false) as Hfresh.
  { unfold is_fresh, clock_now.
    destruct (company_info_cache w !! symbol) as [e|] eqn:He; [|done].
    specialize (Hstale e eq_refl). unfold COMPANY_INFO_TTL.
    destruct (Qlt_le_dec _ _) as [Hlt|_]; [exfalso; lra|done]. }
  assert (served_info env symbol w = refreshed_info env symbol w) as ->.
  { unfold served_info. rewrite Hfresh. by destruct (_ !! _). }
  unfold after_fetch. rewrite Hfresh.
  eexists _, _. split; [done|]. simpl. split; [apply lookup_insert_eq|].
  split; [done|]. split.
  - unfold refreshed_info. by intros ->.
  - intros env' w2 He2 Hnow.
    rewrite fetch_company_info_eq.
    assert (is_fresh env' symbol w2 = true) as Hfresh2.
    { unfold is_fresh. rewrite He2. simpl. unfold COMPANY_INFO_TTL, clock_now.
      fold now. destruct (Qlt_le_dec _ _) as [_|Hle]; [done|exfalso; lra]. }
    unfold served_info, after_fetch. rewrite He2, Hfresh2. by eexists.
Qed.

Lemma failed_fetch_is_cached_witness :
  ∃ w1,
    fetch_company_info (failing_provider 7) "FAKE123.NS" initial_world
    = (Returns (Info.mk "FAKE123.NS" ""), w1)
    ∧ upstream_log w1 = [TickerInfo "FAKE123.NS"]
    ∧ ∃ w3, fetch_company_info (failing_provider 3606) "FAKE123.NS" w1
            = (Returns (Info.mk "FAKE123.NS" ""), w3)
            ∧ upstream_log w3 = upstream_log w1.
Proof.
  destruct (failed_fetch_is_cached (failing_provider 7) "FAKE123.NS"
              initial_world)
    as (info & w1 & Hrun & Hstored & Hlog & Hraise & Hlater).
  { intros e He. vm_compute in He. discriminate He. }
  pose proof (Hraise eq_refl) as Hinfo. subst info.
  exists w1. split; [exact Hrun|]. split; [exact Hlog|].
  apply (Hlater (failing_provider 3606) w1 Hstored). reflexivity.
Defined.

(** ** The response of [/prices] *)



(** C10: on the empty ticker list the batch fetch returns the empty mapping
    and leaves the world, the provider log included, untouched; so does the
    route. *)
Theorem empty_ticker_list env w :
  get_latest_prices env [] w = (Returns ∅, w)
  ∧ prices env [] w = (Returns ∅, w).
Proof. split; reflexivity. Qed.

(** C3: the route returns (the cap is no error), and the keys of its
    response are exactly the first 200 requested tickers, that is, all of
    them when there are at most 200. *)
Theorem response_keys env tickers w :
  ∃ response w',
    prices env tickers w = (Returns response, w')
    ∧ dom response = list_to_set (take 200 tickers)
    ∧ (∀ t, t ∈ dom response ↔ ∃ i, tickers !! i = Some t ∧ i < 200)
    ∧ (length tickers ≤ 200 → dom response = list_to_set tickers)
    ∧ (NoDup tickers → size response = min 200 (length tickers)).
Proof.
  destruct (prices_spec env (λ _, True) (λ _ _, True) tickers w)
    as (pd & cs & response & w' & _ & Hrun & _ & Hdom & _); [done..|].
  exists response, w'. unfold capped, MAX in Hdom.
  split; [done|]. split; [done|]. split; [|split].
  - intros t. rewrite Hdom, elem_of_list_to_set. apply elem_of_take.
  - intros Hlen. by rewrite Hdom, take_ge.
  - intros Hnd. rewrite <- size_dom, Hdom, size_list_to_set, length_take; [done|].
    eapply sublist_NoDup; [done|apply sublist_take].
Qed.

Lemma response_keys_witness :
  (∃ response w',
     prices (failing_provider 0) many_tickers initial_world
     = (Returns response, w')
     ∧ dom response = list_to_set (take 200 many_tickers)
     ∧ size response = 200)
  ∧ (∃ response w',
       prices tcs_only_provider ["TCS"; "FAKE123"] initial_world
       = (Returns response, w')
       ∧ dom response = list_to_set ["TCS"; "FAKE123"]).
Proof.
  split.
  - destruct (response_keys (failing_provider 0) many_tickers initial_world)
      as (response & w' & Hrun & Hdom & _ & _ & Hsize).
    exists response, w'. split; [exact Hrun|]. split; [exact Hdom|].
    apply Hsize. apply (bool_decide_unpack (NoDup many_tickers)).
    vm_compute. exact I.
  - destruct (response_keys tcs_only_provider ["TCS"; "FAKE123"]
                initial_world)
      as (response & w' & Hrun & _ & _ & Hall & _).
    exists response, w'. split; [exact Hrun|].
    apply Hall. simpl. lia.
Defined.

(** C2, as the code has it. Nothing in the code checks what kind of value
    the provider supplies as a description (the business summary, else the
    sector), and line 166 slices it outside every [try]. As long as these
    descriptions can be sliced, being text or lists, in the provider's
    answers and in the cache, the route returns a response rather than
    raising, whatever else the provider does, and the response has a full
    row for every ticker within the cap, carrying its resolved symbol. A
    failed batch whose individual queries for the symbol raise too leaves
    both price fields null, and so does a batch frame whose column for the
    symbol is missing or holds no number; a failing details request for a
    symbol not yet cached leaves the placeholder name and the empty
    description. In any case no exception of the provider leaves the
    route: the only one that does is the [TypeError] of that slice, on a
    description supplied for a requested ticker. *)
Theorem prices_never_raises env tickers w :
  (Dyn.sliceable_answers env → Dyn.sliceable_cache w →
   ∃ response w',
     Dyn.prices env tickers w = (Returns response, w')
     ∧ ∀ t, t ∈ take 200 tickers →
         ∃ r, response !! t = Some r
              ∧ Dyn.Row.symbol r = to_symbol t
              ∧ (batch_failed (Dyn.batch_answer env (take 200 tickers) w)
                 = true →
                 (∀ n, Dyn.yf_history env n (to_symbol t) = HistoryRaises) →
                 Dyn.Row.price r = None ∧ Dyn.Row.change_pct r = None)
              ∧ (∀ close,
                   Dyn.batch_answer env (take 200 tickers) w
                   = DownloadReturns (MultiIndexFrame close) →
                   (∀ col, close (to_symbol t) = Some col → dropna col = []) →
                   Dyn.Row.price r = None ∧ Dyn.Row.change_pct r = None)
              ∧ (Dyn.company_info_cache w !! to_symbol t = None →
                 (∀ n, Dyn.yf_info env n (to_symbol t) = Dyn.InfoRaises) →
                 Dyn.Row.name r = Dyn.PyStr (to_symbol t)
                 ∧ Dyn.Row.description r = Dyn.PyStr ""))
  ∧ (∀ e w',
       Dyn.prices env tickers w = (Raises e, w') →
       e = TypeError
       ∧ ∃ t d, t ∈ take 200 tickers
                ∧ Dyn.supplied env w (to_symbol t) d
                ∧ Dyn.sliceable d = false).
Proof.
  split.
  - intros Henv Hw.
    destruct (dyn_prices_spec env Dyn.sliceable_cache
                (λ _ info, Dyn.sliceable (Dyn.Info.description info) = true)
                tickers w)
      as (pd & cs & Hpd
          & [(response & w' & Hrun & _ & Hdom & Hrows)
            |(w' & _ & t & info & _ & Hyes & Hno)]);
      [done|by intros ?? H|by apply dyn_sliceable_invariant| |congruence].
    exists response, w'. split; [done|].
    intros t Hin.
    assert (is_Some (response !! t)) as [r Hr].
    { apply elem_of_dom. rewrite Hdom. by apply elem_of_list_to_set. }
    exists r. split; [done|].
    destruct (Hrows t r Hr) as (info & d & _ & Hd & Hrow).
    split; [by rewrite Hrow|]. split; [|split].
    + intros Hfail Hraise.
      rewrite Hrow. unfold Dyn.row_of. cbn [Dyn.Row.price Dyn.Row.change_pct].
      by rewrite (failed_batch_nulls (Dyn.market env) (capped tickers)
                    (Dyn.hide w) t Hfail Hraise pd _ Hpd).
    + intros close Hans Hcol.
      rewrite Hrow. unfold Dyn.row_of. cbn [Dyn.Row.price Dyn.Row.change_pct].
      by rewrite (uncovered_nulls (Dyn.market env) (capped tickers)
                    (Dyn.hide w) t close Hans Hcol pd _ Hpd).
    + intros Hmiss Hraise.
      destruct (dyn_prices_spec env
                  (λ w, Dyn.sliceable_cache w
                        ∧ ∀ e, Dyn.company_info_cache w !! to_symbol t = Some e →
                               Dyn.Entry.info e
                               = Dyn.Info.mk (Dyn.PyStr (to_symbol t))
                                             (Dyn.PyStr ""))
                  (λ sym i, sym = to_symbol t →
                            i = Dyn.Info.mk (Dyn.PyStr (to_symbol t))
                                            (Dyn.PyStr ""))
                  tickers w)
        as (pd2 & cs2 & _
            & [(response2 & w2 & Hrun2 & _ & _ & Hrows2)
              |(w2 & Hrun2 & _)]).
      * split; [done|]. intros e. by rewrite Hmiss.
      * by intros ?? H.
      * intros sym w0 [Hs Hp].
        destruct (dyn_sliceable_invariant env Henv sym w0 Hs) as [Hs' _].
        destruct (dyn_placeholder_invariant env (to_symbol t) Hraise sym w0 Hp)
          as [Hp' Hserved].
        done.
      * rewrite Hrun in Hrun2. injection Hrun2 as <- <-.
        destruct (Hrows2 t r Hr) as (info2 & d2 & Hinfo2 & Hd2 & ->).
        rewrite (Hinfo2 eq_refl) in Hd2 |- *.
        injection Hd2 as <-. done.
      * by rewrite Hrun in Hrun2.
  - intros e w' Hraises.
    destruct (dyn_prices_spec env
                (λ w0, ∀ sym e, Dyn.company_info_cache w0 !! sym = Some e →
                         Dyn.supplied env w sym
                           (Dyn.Info.description (Dyn.Entry.info e)))
                (λ sym info,
                   Dyn.supplied env w sym (Dyn.Info.description info))
                tickers w)
      as (pd & cs & _
          & [(response & w2 & Hrun & _)|(w2 & Hrun & t & info & Ht & Hsup & Hno)]).
    + intros sym e0 He. left. by exists e0.
    + by intros ?? H.
    + apply dyn_supplied_invariant.
    + by rewrite Hrun in Hraises.
    + rewrite Hrun in Hraises. injection Hraises as <- _.
      split; [done|]. by exists t, (Dyn.Info.description info).
Qed.

Lemma prices_never_raises_witness :
  (∃ response w',
     Dyn.prices Dyn.failing_provider ["TCS"; "FAKE123"] Dyn.initial_world
     = (Returns response, w')
     ∧ ∃ r, response !! "FAKE123" = Some r
            ∧ Dyn.Row.symbol r = "FAKE123.NS"
            ∧ (Dyn.Row.price r = None ∧ Dyn.Row.change_pct r = None)
            ∧ (Dyn.Row.name r = Dyn.PyStr "FAKE123.NS"
               ∧ Dyn.Row.description r = Dyn.PyStr ""))
  ∧ (∃ response w',
       Dyn.prices Dyn.verbose_provider ["TCS"; "FAKE123"] Dyn.initial_world
       = (Returns response, w')
       ∧ ∃ r, response !! "FAKE123" = Some r
              ∧ (Dyn.Row.price r = None ∧ Dyn.Row.change_pct r = None)).
Proof.
  split.
  - destruct (proj1 (prices_never_raises Dyn.failing_provider
                       ["TCS"; "FAKE123"] Dyn.initial_world))
      as (response & w' & Hrun & Hrows).
    { intros n symbol. reflexivity. }
    { intros symbol e He. vm_compute in He. discriminate He. }
    exists response, w'. split; [exact Hrun|].
    destruct (Hrows "FAKE123") as (r & Hr & Hsym & Hprice & _ & Hinfo).
    { apply elem_of_cons. right. apply elem_of_cons. left. reflexivity. }
    exists r. split; [exact Hr|]. split; [exact Hsym|]. split.
    + apply Hprice; [reflexivity|]. intros n. reflexivity.
    + apply Hinfo; [reflexivity|]. intros n. reflexivity.
  - destruct (proj1 (prices_never_raises Dyn.verbose_provider
                       ["TCS"; "FAKE123"] Dyn.initial_world))
      as (response & w' & Hrun & Hrows).
    { intros n symbol. unfold Dyn.verbose_provider. simpl.
      destruct (String.eqb symbol "TCS.NS"); reflexivity. }
    { intros symbol e He. vm_compute in He. discriminate He. }
    exists response, w'. split; [exact Hrun|].
    destruct (Hrows "FAKE123") as (r & Hr & _ & _ & Hpartial & _).
    { apply elem_of_cons. right. apply elem_of_cons. left. reflexivity. }
    exists r. split; [exact Hr|].
    apply (Hpartial (λ s, if String.eqb s "TCS.NS"
                          then Some [4000%float; 4100%float] else None)).
    + reflexivity.
    + intros col Hcol. discriminate Hcol.
Defined.

(** C2 as stated fails on a provider whose business summary is not text:
    the details request succeeds, the number is cached as the description,
    and slicing it raises a [TypeError] that leaves the route. *)
Lemma numeric_summary_raises :
  ∃ w',
    Dyn.yf_info Dyn.numeric_summary_provider 2 "TCS.NS"
    = Dyn.InfoReturns
        {| Dyn.longName := Dyn.PyStr "Tata Consultancy Services";
           Dyn.shortName := Dyn.PyStr "TCS";
           Dyn.longBusinessSummary := Dyn.PyInt 5;
           Dyn.sector := Dyn.PyStr "Technology" |}
    ∧ Dyn.prices Dyn.numeric_summary_provider ["TCS"] Dyn.initial_world
      = (Raises TypeError, w')
    ∧ Dyn.upstream_log w' = [Download "TCS.NS"; History "TCS.NS";
                             TickerInfo "TCS.NS"].
Proof. eexists. split; [reflexivity|]. split; vm_compute; reflexivity. Qed.

(** ** Quotes and the fallback *)

(** C1, as the code has it: when the batch call fails as a whole (it raises,
    returns an empty frame, or a flat frame without closes), one individual
    query is made for every requested symbol, in order, and a query that
    stores a record stores the quote of its own closes; otherwise the batch
    call is the only provider call, and with one column per symbol a symbol
    without a column gets null price fields. *)
Theorem fallback_after_failed_batch env tickers w :
  tickers ≠ [] →
  ∃ results w',
    get_latest_prices env tickers w = (Returns results, w')
    ∧ (batch_failed (batch_answer env tickers w) = true →
       upstream_log w'
       = upstream_log w
         ++ Download (batch_request tickers) :: (History <$> symbols_of tickers)
       ∧ (∀ t, t ∈ tickers → History (to_symbol t) ∈ upstream_log w')
       ∧ (∀ i s k,
            last_at (symbols_of tickers) i s →
            sym_map_of tickers !! s = Some k →
            let h := yf_history env (S (length (upstream_log w)) + i) s in
            stores_on_empty h = true →
            results !! k = Some (history_quote h)))
    ∧ (batch_failed (batch_answer env tickers w) = false →
       upstream_log w' = upstream_log w ++ [Download (batch_request tickers)])
    ∧ (∀ close,
         batch_answer env tickers w = DownloadReturns (MultiIndexFrame close) →
         ∀ t, t ∈ tickers → close (to_symbol t) = None →
           ∃ k, sym_map_of tickers !! to_symbol t = Some k
                ∧ results !! k = Some null_quote).
Proof.
  intros Hne.
  destruct (batch_failed (batch_answer env tickers w)) eqn:Hfail.
  - destruct (failed_batch_run env tickers w Hne Hfail)
      as (results & Hrun & Hlast & _).
    eexists _, _. split; [done|]. split; [|split; [done|]].
    + intros _. split; [done|]. split; [|done].
      intros t Ht. simpl. apply elem_of_app. right. apply elem_of_cons. right.
      apply list_elem_of_fmap_2. unfold symbols_of.
      by apply list_elem_of_fmap_2.
    + intros close Hans. by rewrite Hans in Hfail.
  - destruct (batch_answer env tickers w) as [|[|close|[col|]]] eqn:Hans;
      try done.
    + destruct (multi_batch_run env tickers w Hne close Hans)
        as (results & Hrun & Hall & _).
      eexists _, _. split; [done|]. split; [done|]. split; [done|].
      intros close' [= <-] t Ht Hcol.
      destruct (Hall t Ht) as (t' & _ & _ & Hk & Hrow).
      exists (py_upper t'). split; [done|].
      rewrite Hrow. unfold multi_quote. by rewrite Hcol.
    + destruct (batch_flat env tickers w Hne col Hans)
        as (? & ? & ? & _ & _ & ->).
      eexists _, _. split; [done|]. split; [done|]. split; done.
Qed.

Lemma fallback_after_failed_batch_witness :
  (∃ results w',
     get_latest_prices batch_down_provider ["TCS"; "INFY"] initial_world
     = (Returns results, w')
     ∧ upstream_log w'
       = [Download "TCS.NS INFY.NS"; History "TCS.NS"; History "INFY.NS"]
     ∧ results !! "INFY"
       = Some (Quote.mk (Some 11%float) (Some 10%float)))
  ∧ (∃ results w',
       get_latest_prices tcs_only_provider ["TCS"; "FAKE123"] initial_world
       = (Returns results, w')
       ∧ upstream_log w' = [Download "TCS.NS FAKE123.NS"]
       ∧ ∃ k, sym_map_of ["TCS"; "FAKE123"] !! "FAKE123.NS" = Some k
              ∧ results !! k = Some null_quote).
Proof.
  split.
  - destruct (fallback_after_failed_batch batch_down_provider ["TCS"; "INFY"]
                initial_world)
      as (results & w' & Hrun & Hfailed & _ & _).
    { discriminate. }
    destruct (Hfailed eq_refl) as (Hlog & _ & Hlast).
    exists results, w'. split; [exact Hrun|]. split; [exact Hlog|].
    apply (Hlast 1 "INFY.NS" "INFY").
    + split; [reflexivity|]. intros Hin. inversion Hin.
    + reflexivity.
    + reflexivity.
  - destruct (fallback_after_failed_batch tcs_only_provider
                ["TCS"; "FAKE123"] initial_world)
      as (results & w' & Hrun & _ & Hlog & Hmulti).
    { discriminate. }
    exists results, w'. split; [exact Hrun|]. split; [exact (Hlog eq_refl)|].
    apply (Hmulti (λ s, if String.eqb s "TCS.NS"
                        then Some [4000%float; 4100%float] else None) eq_refl
             "FAKE123").
    + apply elem_of_cons. right. apply elem_of_cons. left. reflexivity.
    + reflexivity.
Defined.

(** C1 as stated fails on partial coverage: the batch frame has a column
    for TCS.NS only, an individual query for FAKE123.NS would have found
    two sessions, yet none is made and FAKE123 is given nulls. *)
Lemma partial_batch_no_fallback :
  ∃ close results w',
    batch_answer tcs_only_provider ["TCS"; "FAKE123"] initial_world
    = DownloadReturns (MultiIndexFrame close)
    ∧ close "FAKE123.NS" = None
    ∧ yf_history tcs_only_provider 1 "FAKE123.NS"
      = HistoryReturns (HistoryFrame (Some [10%float; 11%float]))
    ∧ get_latest_prices tcs_only_provider ["TCS"; "FAKE123"] initial_world
      = (Returns results, w')
    ∧ upstream_log w' = [Download "TCS.NS FAKE123.NS"]
    ∧ (History "FAKE123.NS" ∉ upstream_log w')
    ∧ results !! "FAKE123" = Some null_quote.
Proof.
  eexists _, _, _. split; [reflexivity|]. split; [reflexivity|].
  split; [reflexivity|]. split; [reflexivity|]. split; [reflexivity|].
  split; [|reflexivity].
  simpl. intros Hin. apply elem_of_cons in Hin as [Hin|Hin]; [discriminate|].
  inversion Hin.
Qed.




(** * Further properties of the code *)

(** ** More on strings and on [to_symbol] *)

Lemma str_length_app s1 s2 :
  String.length (s1 +:+ s2) = String.length s1 + String.length s2.
Proof.
  induction s1 as [|c s1 IH]; [done|].
  change (String c s1 +:+ s2) with (String c (s1 +:+ s2)). simpl.
  by rewrite IH.
Qed.

Lemma str_app_assoc s1 s2 s3 : (s1 +:+ s2) +:+ s3 = s1 +:+ s2 +:+ s3.
Proof.
  induction s1 as [|c s1 IH]; [done|].
  change ((String c s1 +:+ s2) +:+ s3) with (String c ((s1 +:+ s2) +:+ s3)).
  by rewrite IH.
Qed.

Lemma py_lstrip_blank_app pre t :
  all_space pre = true → py_lstrip (pre +:+ t) = py_lstrip t.
Proof.
  induction pre as [|c pre IH]; [done|].
  change (String c pre +:+ t) with (String c (pre +:+ t)). simpl.
  intros [Hc Hpre]%andb_true_iff. rewrite Hc. by apply IH.
Qed.

Lemma py_rstrip_blank s : all_space s = true → py_rstrip s = "".
Proof.
  induction s as [|c s IH]; simpl; [done|].
  intros [Hc Hs]%andb_true_iff. by rewrite IH, Hc.
Qed.

Lemma py_rstrip_app_blank t post :
  all_space post = true → py_rstrip (t +:+ post) = py_rstrip t.
Proof.
  intros Hpost. induction t as [|c t IH].
  - by apply py_rstrip_blank.
  - change (String c t +:+ post) with (String c (t +:+ post)).
    simpl. by rewrite IH.
Qed.

Lemma py_strip_padded pre t post :
  all_space pre = true → all_space post = true →
  py_strip (pre +:+ t +:+ post) = py_strip t.
Proof.
  intros Hpre Hpost. unfold py_strip.
  rewrite <- str_app_assoc, py_rstrip_app_blank by done.
  by rewrite <- !py_rstrip_lstrip, py_lstrip_blank_app.
Qed.

Lemma py_strip_blank s : all_space s = true → py_strip s = "".
Proof. intros Hs. unfold py_strip. by rewrite py_rstrip_blank. Qed.

Lemma to_symbol_upper_fixed t : py_upper (to_symbol t) = to_symbol t.
Proof.
  rewrite <- (to_symbol_normal t) at 2.
  rewrite <- (to_symbol_normal t) at 1. by rewrite py_upper_idemp.
Qed.

Lemma to_symbol_strip_fixed t : py_strip (to_symbol t) = to_symbol t.
Proof.
  rewrite <- (to_symbol_normal t) at 2.
  rewrite <- (to_symbol_normal t) at 1.
  by rewrite py_strip_upper, py_strip_idemp.
Qed.

Lemma to_symbol_length t : 3 ≤ String.length (to_symbol t).
Proof.
  pose proof (to_symbol_suffixed t) as Hs.
  apply orb_true_iff in Hs as [[p ->]%py_endswith_spec|[p ->]%py_endswith_spec];
    rewrite str_length_app; simpl; lia.
Qed.

Lemma to_symbol_nonempty t : to_symbol t ≠ "".
Proof.
  intros E. pose proof (to_symbol_length t) as H. rewrite E in H.
  simpl in H. lia.
Qed.

(** X1: whatever the input, the resolved symbol ends with ".NS" or ".BO",
    carries no surrounding white space and no lower-case letter, and has at
    least three characters; an input of white space only resolves to the
    bare suffix ".NS". *)
Theorem to_symbol_shape :
  (∀ t,
     (py_endswith (to_symbol t) ".NS" = true
      ∨ py_endswith (to_symbol t) ".BO" = true)
     ∧ py_strip (to_symbol t) = to_symbol t
     ∧ py_upper (to_symbol t) = to_symbol t
     ∧ 3 ≤ String.length (to_symbol t))
  ∧ (∀ t, all_space t = true → to_symbol t = ".NS").
Proof.
  split.
  - intros t. split; [|split; [|split]].
    + apply orb_true_iff, to_symbol_suffixed.
    + apply to_symbol_strip_fixed.
    + apply to_symbol_upper_fixed.
    + apply to_symbol_length.
  - intros t Ht. unfold to_symbol. by rewrite py_strip_blank.
Qed.

Lemma to_symbol_shape_witness : to_symbol "  " = ".NS".
Proof. apply (proj2 to_symbol_shape). reflexivity. Defined.

(** X2: resolution ignores letter case and surrounding white space: two
    inputs with the same upper-case form resolve to the same symbol, and
    padding an input with white space on either side changes nothing. *)
Theorem to_symbol_insensitive :
  (∀ a b, py_upper a = py_upper b → to_symbol a = to_symbol b)
  ∧ (∀ pre t post,
       all_space pre = true → all_space post = true →
       to_symbol (pre +:+ t +:+ post) = to_symbol t).
Proof.
  split.
  - intros a b Hab. unfold to_symbol.
    by rewrite <- !py_strip_upper, Hab.
  - intros pre t post Hpre Hpost. unfold to_symbol.
    by rewrite py_strip_padded.
Qed.

Lemma to_symbol_insensitive_witness :
  to_symbol "Tcs.bo" = to_symbol "tCS.Bo"
  ∧ to_symbol (" " +:+ "infy" +:+ "  ") = to_symbol "infy".
Proof.
  split.
  - apply (proj1 to_symbol_insensitive). reflexivity.
  - apply (proj2 to_symbol_insensitive); reflexivity.
Defined.

(** ** What the cached lookup and the batch fetch leave alone *)

(** X5: a lookup always returns; afterwards the cache holds an entry for the
    symbol whose record is the one just returned, the entries of all other
    symbols are as before, the provider has been asked at most once, for
    the details of that symbol, and the clock has been read once. *)
Theorem fetch_company_info_frame env symbol w :
  ∃ info w',
    fetch_company_info env symbol w = (Returns info, w')
    ∧ (∃ e, company_info_cache w' !! symbol = Some e ∧ Entry.info e = info)
    ∧ (∀ s, s ≠ symbol →
         company_info_cache w' !! s = company_info_cache w !! s)
    ∧ (upstream_log w' = upstream_log w
       ∨ upstream_log w' = upstream_log w ++ [TickerInfo symbol])
    ∧ clock_reads w' = S (clock_reads w).
Proof.
  rewrite fetch_company_info_eq. eexists _, _. split; [done|].
  unfold served_info, after_fetch.
  destruct (is_fresh env symbol w) eqn:Hfresh; simpl.
  - unfold is_fresh in Hfresh.
    destruct (company_info_cache w !! symbol) as [e|] eqn:He; [|done].
    split; [by exists e|]. split; [done|]. split; [by left|done].
  - split.
    + eexists. rewrite lookup_insert_eq. split; [done|]. simpl.
      by destruct (company_info_cache w !! symbol).
    + split; [|split; [by right|done]].
      intros s Hs. by rewrite lookup_insert_ne.
Qed.

Lemma fetch_company_info_frame_witness :
  ∃ info w',
    fetch_company_info (failing_provider 9) "INFY.NS" cached_world
    = (Returns info, w')
    ∧ company_info_cache w' !! "TCS.NS"
      = company_info_cache cached_world !! "TCS.NS".
Proof.
  destruct (fetch_company_info_frame (failing_provider 9) "INFY.NS"
              cached_world) as (info & w' & Hrun & _ & Hothers & _).
  exists info, w'. split; [exact Hrun|]. apply Hothers. discriminate.
Defined.

(** The calls that the batch fetch adds to the provider log. *)
Lemma get_latest_prices_run env tickers w :
  ∃ results cs,
    get_latest_prices env tickers w = (Returns results, log_calls cs w)
    ∧ (tickers = [] ∧ cs = []
       ∨ tickers ≠ []
         ∧ (cs = [Download (batch_request tickers)]
            ∨ cs = Download (batch_request tickers)
                   :: (History <$> symbols_of tickers))).
Proof.
  destruct (decide (tickers = [])) as [->|Hne].
  { exists ∅, []. rewrite log_calls_nil. split; [done|by left]. }
  destruct (batch_failed (batch_answer env tickers w)) eqn:Hfail.
  - destruct (failed_batch_run env tickers w Hne Hfail) as (r & Hrun & _).
    eexists r, _. split; [exact Hrun|]. right. split; [done|by right].
  - destruct (batch_answer env tickers w) as [|[|close|[col|]]] eqn:Hans;
      try done.
    + destruct (multi_batch_run env tickers w Hne close Hans)
        as (r & Hrun & _).
      eexists r, _. split; [exact Hrun|]. right. split; [done|by left].
    + destruct (batch_flat env tickers w Hne col Hans)
        as (? & ? & ? & _ & _ & Hrun).
      eexists _, _. split; [exact Hrun|]. right. split; [done|by left].
Qed.

Lemma get_latest_prices_run_length env tickers w results cs :
  get_latest_prices env tickers w = (Returns results, log_calls cs w) →
  length cs ≤ 1 + length tickers ∧ ∀ s, TickerInfo s ∉ cs.
Proof.
  intros Hrun.
  destruct (get_latest_prices_run env tickers w) as (r & cs' & Hrun' & Hcs).
  rewrite Hrun in Hrun'.
  assert (cs = cs') as <-.
  { injection Hrun' as _ E. by apply app_inv_head in E. }
  destruct Hcs as [[_ ->]|[_ [-> | ->]]]; simpl.
  - split; [lia|]. intros s. apply not_elem_of_nil.
  - split; [lia|]. intros s [=]%list_elem_of_singleton.
  - unfold symbols_of. rewrite !length_fmap. split; [lia|].
    intros s [[=]|(s' & [=] & _)%list_elem_of_fmap]%elem_of_cons.
Qed.

(** X6: the batch fetch never touches the cache or the clock and never asks
    for company details; what it adds to the provider log is nothing for an
    empty list, and otherwise one download, followed either by nothing or
    by one history query per requested ticker, in order. *)
Theorem get_latest_prices_calls env tickers w :
  ∃ results w' cs,
    get_latest_prices env tickers w = (Returns results, w')
    ∧ company_info_cache w' = company_info_cache w
    ∧ clock_reads w' = clock_reads w
    ∧ upstream_log w' = upstream_log w ++ cs
    ∧ (tickers = [] ∧ cs = []
       ∨ tickers ≠ []
         ∧ (cs = [Download (batch_request tickers)]
            ∨ cs = Download (batch_request tickers)
                   :: (History <$> symbols_of tickers)))
    ∧ length cs ≤ 1 + length tickers
    ∧ ∀ s, TickerInfo s ∉ cs.
Proof.
  destruct (get_latest_prices_run env tickers w) as (results & cs & Hrun & Hcs).
  exists results, (log_calls cs w), cs. split; [done|].
  repeat split; try done;
    by apply (get_latest_prices_run_length env tickers w results cs).
Qed.

(** ** The keys under which quotes are filed *)

Lemma last_at_snoc_new l s : last_at (l ++ [s]) (length l) s.
Proof.
  split; [by rewrite list_lookup_middle|].
  rewrite drop_ge; [apply not_elem_of_nil|]. rewrite length_app. simpl. lia.
Qed.

Lemma last_at_snoc_old l i s s0 :
  last_at l i s → s ≠ s0 → last_at (l ++ [s0]) i s.
Proof.
  intros [Hi Hlast] Hne. split; [by apply lookup_app_l_Some|].
  pose proof (lookup_lt_Some _ _ _ Hi) as Hlt.
  rewrite drop_app_le by lia.
  rewrite elem_of_app, list_elem_of_singleton. by intros [?|?].
Qed.

Lemma last_at_unique l i j s : last_at l i s → last_at l j s → i = j.
Proof.
  assert (∀ i j, i < j → last_at l i s → l !! j = Some s → False) as Hlt.
  { intros i0 j0 Hij [_ Hlast] Hj. apply Hlast.
    apply list_elem_of_lookup. exists (j0 - S i0).
    rewrite lookup_drop. by replace (S i0 + (j0 - S i0)) with j0 by lia. }
  intros Hi Hj. destruct (Nat.lt_trichotomy i j) as [H|[H|H]]; [|done|].
  - exfalso. apply (Hlt i j H Hi), Hj.
  - exfalso. apply (Hlt j i H Hj), Hi.
Qed.

(** The value that the symbol table holds for a symbol is the upper-cased
    spelling of the last requested ticker of that symbol. *)
Lemma sym_map_of_last tickers s k :
  sym_map_of tickers !! s = Some k →
  ∃ i t, tickers !! i = Some t ∧ to_symbol t = s ∧ k = py_upper t
         ∧ last_at (symbols_of tickers) i s.
Proof.
  revert s k. induction tickers as [|t0 tickers IH] using rev_ind; intros s k.
  - unfold sym_map_of. simpl. by rewrite lookup_empty.
  - rewrite sym_map_of_snoc, lookup_insert.
    unfold symbols_of. rewrite fmap_app. simpl.
    case_decide as E.
    + intros [= <-]. exists (length tickers), t0.
      split; [by rewrite list_lookup_middle|]. split; [done|]. split; [done|].
      rewrite <- E, <- (length_fmap to_symbol tickers).
      apply last_at_snoc_new.
    + intros (i & t & Hi & Ht & Hk & Hlast)%IH. exists i, t.
      split; [by apply lookup_app_l_Some|]. split; [done|]. split; [done|].
      by apply last_at_snoc_old.
Qed.

(** Every key of the batch fetch's result is a value of its symbol table. *)
Lemma result_key_in_table env tickers w results w' k q :
  get_latest_prices env tickers w = (Returns results, w') →
  results !! k = Some q →
  ∃ s, sym_map_of tickers !! s = Some k.
Proof.
  intros Hrun Hq.
  destruct (decide (tickers = [])) as [->|Hne].
  { injection Hrun as <- _. by rewrite lookup_empty in Hq. }
  destruct (batch_failed (batch_answer env tickers w)) eqn:Hfail.
  - destruct (failed_batch_run env tickers w Hne Hfail)
      as (r & Hrun' & _ & Hfrom).
    rewrite Hrun' in Hrun. injection Hrun as <- _.
    destruct (Hfrom k q Hq) as (i & s & _ & Hs & _). by exists s.
  - destruct (batch_answer env tickers w) as [|[|close|[col|]]] eqn:Hans;
      try done.
    + rewrite (batch_multi env tickers w Hne close Hans) in Hrun.
      destruct (read_multi_spec _ (sym_map_of_inj tickers) close _
                  (after_download tickers w) (sym_map_of_symbol tickers))
        as (r & Hrun' & _ & Hfrom).
      rewrite Hrun' in Hrun. injection Hrun as <- _.
      destruct (Hfrom k q Hq) as (s & _ & Hs & _). by exists s.
    + destruct (batch_flat env tickers w Hne col Hans)
        as (t0 & rest & k0 & _ & Hk0 & Hrun').
      rewrite Hrun' in Hrun. injection Hrun as <- _.
      apply lookup_singleton_Some in Hq as [<- _]. by eexists.
Qed.

(** X7: every key of the batch fetch's result is the upper-cased spelling of
    the last requested ticker of its symbol; so when the last ticker of a
    symbol is spelled differently from an earlier one, the earlier spelling
    has no record. *)
Theorem result_keys env tickers w :
  ∃ results w',
    get_latest_prices env tickers w = (Returns results, w')
    ∧ (∀ k q, results !! k = Some q →
         ∃ i t, tickers !! i = Some t ∧ k = py_upper t
                ∧ last_at (symbols_of tickers) i (to_symbol t))
    ∧ (∀ t j t',
         tickers !! j = Some t' →
         last_at (symbols_of tickers) j (to_symbol t) →
         py_upper t' ≠ py_upper t →
         results !! py_upper t = None).
Proof.
  destruct (get_latest_prices_returns env tickers w) as (results & cs & Hrun).
  exists results, (log_calls cs w). split; [done|].
  assert (∀ k q, results !! k = Some q →
            ∃ i t, tickers !! i = Some t ∧ k = py_upper t
                   ∧ last_at (symbols_of tickers) i (to_symbol t)) as Hkeys.
  { intros k q Hq.
    destruct (result_key_in_table env tickers w _ _ k q Hrun Hq) as [s Hs].
    destruct (sym_map_of_last tickers s k Hs) as (i & t & Hi & <- & -> & Hl).
    by exists i, t. }
  split; [done|].
  intros t j t' Hj Hlast Hne.
  destruct (results !! py_upper t) as [q|] eqn:Hq; [exfalso|done].
  destruct (Hkeys _ q Hq) as (i & t0 & Hi & Ht0 & Hlast0).
  assert (to_symbol t0 = to_symbol t) as Hsame.
  { by rewrite <- (to_symbol_upper t0), <- Ht0, to_symbol_upper. }
  rewrite Hsame in Hlast0.
  pose proof (last_at_unique _ _ _ _ Hlast0 Hlast) as ->.
  rewrite Hj in Hi. injection Hi as ->. by apply Hne.
Qed.

Lemma result_keys_witness :
  ∃ results w',
    get_latest_prices tcs_only_provider ["TCS"; "tcs.ns"] initial_world
    = (Returns results, w')
    ∧ results !! "TCS" = None.
Proof.
  destruct (result_keys tcs_only_provider ["TCS"; "tcs.ns"] initial_world)
    as (results & w' & Hrun & _ & Hlost).
  exists results, w'. split; [exact Hrun|].
  apply (Hlost "TCS" 1 "tcs.ns").
  - reflexivity.
  - split; [reflexivity|]. intros Hin. inversion Hin.
  - discriminate.
Defined.

(** ** The route's footprint *)

Lemma after_fetch_facts env sym w :
  is_Some (company_info_cache (after_fetch env sym w) !! sym)
  ∧ (∀ s, is_Some (company_info_cache w !! s) →
          is_Some (company_info_cache (after_fetch env sym w) !! s))
  ∧ length (upstream_log (after_fetch env sym w)) ≤ S (length (upstream_log w))
  ∧ clock_reads (after_fetch env sym w) = S (clock_reads w).
Proof.
  unfold after_fetch.
  destruct (is_fresh env sym w) eqn:Hfresh; simpl.
  - split; [|split; [done|split; [lia|done]]].
    unfold is_fresh in Hfresh. by destruct (company_info_cache w !! sym).
  - split; [by rewrite lookup_insert_eq|].
    split; [|split; [rewrite length_app; simpl; lia|done]].
    intros s Hs. rewrite lookup_insert. by case_decide.
Qed.

Lemma prices_run env tickers w :
  ∃ price_data cs,
    get_latest_prices env (capped tickers) w
    = (Returns price_data, log_calls cs w)
    ∧ prices env tickers w
      = for_each (capped tickers) (prices_body env price_data) ∅
          (log_calls cs w).
Proof.
  destruct (get_latest_prices_returns env (capped tickers) w)
    as (pd & cs & Hpd).
  exists pd, cs. split; [done|]. by rewrite prices_unfold, Hpd.
Qed.

(** X9: after the route has answered, every requested symbol within the cap
    has a cache entry and no entry has been lost; the provider was asked at
    most 1 + 2 n times and the clock read exactly n times, where n is the
    number of tickers within the cap, so at most 401 provider calls serve
    one request. *)
Theorem prices_footprint env tickers w :
  ∃ response w',
    prices env tickers w = (Returns response, w')
    ∧ (∀ t, t ∈ take 200 tickers →
         is_Some (company_info_cache w' !! to_symbol t))
    ∧ (∀ s, is_Some (company_info_cache w !! s) →
         is_Some (company_info_cache w' !! s))
    ∧ length (upstream_log w')
      ≤ length (upstream_log w) + 1 + 2 * min 200 (length tickers)
    ∧ length (upstream_log w') ≤ length (upstream_log w) + 401
    ∧ clock_reads w' = clock_reads w + min 200 (length tickers).
Proof.
  destruct (prices_run env tickers w) as (pd & cs & Hpd & ->).
  destruct (get_latest_prices_run_length _ _ _ _ _ Hpd) as [Hcs _].
  destruct (for_each_inv
    (λ pre (acc : gmap string Row.t) w',
       (∀ t, t ∈ pre → is_Some (company_info_cache w' !! to_symbol t))
       ∧ (∀ s, is_Some (company_info_cache w !! s) →
               is_Some (company_info_cache w' !! s))
       ∧ length (upstream_log w')
         ≤ length (upstream_log w) + length cs + length pre
       ∧ clock_reads w' = clock_reads w + length pre)
    (capped tickers) (prices_body env pd) ∅ (log_calls cs w))
    as (response & w' & Hrun & Hin & Hkeep & Hlog & Hclock).
  - split; [by intros t ?%elem_of_nil|]. split; [done|].
    simpl. rewrite length_app. split; lia.
  - intros pre x post acc w0 _ (Hin & Hkeep & Hlog & Hclock).
    rewrite prices_body_eq. eexists _, _. split; [done|].
    destruct (after_fetch_facts env (to_symbol x) w0)
      as (Hx & Hold & Hlen & Hclk).
    split; [|split; [|split]].
    + intros t [Ht|Ht%list_elem_of_singleton]%elem_of_app; [|by subst].
      by apply Hold, Hin.
    + intros s Hs. by apply Hold, Hkeep.
    + rewrite length_app. simpl. lia.
    + rewrite length_app. simpl. lia.
  - exists response, w'. split; [done|].
    assert (length (capped tickers) = min 200 (length tickers)) as Hlen.
    { unfold capped, MAX. apply length_take. }
    rewrite Hlen in *. repeat split; try done; lia.
Qed.

Lemma prices_footprint_witness :
  ∃ response w',
    prices tcs_only_provider ["TCS"; "FAKE123"] cached_world
    = (Returns response, w')
    ∧ is_Some (company_info_cache w' !! "FAKE123.NS")
    ∧ is_Some (company_info_cache w' !! "TCS.NS").
Proof.
  destruct (prices_footprint tcs_only_provider ["TCS"; "FAKE123"]
              cached_world) as (response & w' & Hrun & Hin & Hkeep & _).
  exists response, w'. split; [exact Hrun|]. split.
  - apply (Hin "FAKE123"). apply elem_of_cons. right.
    apply elem_of_cons. left. reflexivity.
  - apply Hkeep. eexists. reflexivity.
Defined.

(** ** A request repeated within the TTL *)

Lemma young_hit env sym w e :
  all_young env w →
  company_info_cache w !! sym = Some e →
  served_info env sym w = Entry.info e
  ∧ after_fetch env sym w
    = {| company_info_cache := company_info_cache w;
         upstream_log := upstream_log w;
         clock_reads := S (clock_reads w) |}.
Proof.
  intros Hyoung He.
  assert (is_fresh env sym w = true) as Hfresh.
  { unfold is_fresh, clock_now, COMPANY_INFO_TTL. rewrite He.
    destruct (Qlt_le_dec _ _) as [_|Hle]; [done|].
    pose proof (Hyoung sym e He (clock_reads w)). exfalso. lra. }
  unfold served_info, after_fetch. by rewrite He, Hfresh.
Qed.

Lemma young_miss env sym w :
  steady_clock env →
  all_young env w →
  company_info_cache w !! sym = None →
  served_info env sym w = refreshed_info env sym w
  ∧ company_info_cache (after_fetch env sym w)
    = <[sym := Entry.mk (refreshed_info env sym w) (clock_now env w)]>
        (company_info_cache w)
  ∧ all_young env (after_fetch env sym w).
Proof.
  intros Hclock Hyoung He.
  assert (is_fresh env sym w = false) as Hfresh.
  { unfold is_fresh. by rewrite He. }
  unfold served_info, after_fetch. rewrite He, Hfresh. simpl.
  split; [done|]. split; [done|].
  intros s e. simpl. rewrite lookup_insert. case_decide.
  - intros [= <-] n. simpl. apply Hclock.
  - apply Hyoung.
Qed.

(** X10: with a clock whose readings stay within one TTL and a cache that
    holds no older entry, asking the route the same question twice makes
    the second answer come from the cache alone: the second run asks the
    provider for no company details, leaves the cache as it found it, and
    gives every ticker the symbol, name and description of the first
    answer. *)
Theorem repeated_request_hits_cache env tickers w :
  steady_clock env →
  all_young env w →
  ∃ r1 w1 r2 w2,
    prices env tickers w = (Returns r1, w1)
    ∧ prices env tickers w1 = (Returns r2, w2)
    ∧ company_info_cache w2 = company_info_cache w1
    ∧ (∀ s, TickerInfo s ∉ drop (length (upstream_log w1)) (upstream_log w2))
    ∧ (∀ t row1, r1 !! t = Some row1 →
         ∃ row2, r2 !! t = Some row2
                 ∧ Row.symbol row2 = Row.symbol row1
                 ∧ Row.name row2 = Row.name row1
                 ∧ Row.description row2 = Row.description row1).
Proof.
  intros Hclock Hyoung.
  (* the first run *)
  destruct (prices_run env tickers w) as (pd1 & cs1 & _ & ->).
  destruct (for_each_inv
    (λ pre (acc : gmap string Row.t) w',
       all_young env w'
       ∧ (∀ t, t ∈ pre → is_Some (company_info_cache w' !! to_symbol t))
       ∧ (∀ t r, acc !! t = Some r →
            ∃ e, company_info_cache w' !! to_symbol t = Some e
                 ∧ r = row_of pd1 t (Entry.info e))
       ∧ dom acc = list_to_set pre)
    (capped tickers) (prices_body env pd1) ∅ (log_calls cs1 w))
    as (r1 & w1 & Hrun1 & Hyoung1 & Hin1 & Hrows1 & Hdom1).
  { split; [done|]. split; [by intros t ?%elem_of_nil|].
    split; [intros t r; by rewrite lookup_empty|by rewrite dom_empty_L]. }
  { intros pre x post acc w0 _ (Hy & Hin & Hrows & Hdom).
    rewrite prices_body_eq. eexists _, _. split; [done|].
    assert (∀ r : Row.t, dom (<[x := r]> acc) = list_to_set (pre ++ [x]))
      as Hdom'.
    { intros r. rewrite dom_insert_L, Hdom, list_to_set_app_L. simpl.
      rewrite (right_id_L ∅ (∪)). apply (comm_L (∪)). }
    destruct (company_info_cache w0 !! to_symbol x) as [e|] eqn:He.
    - destruct (young_hit env _ w0 e Hy He) as [-> ->]. simpl.
      split; [exact Hy|]. split; [|split; [|done]].
      + intros t [Ht|Ht%list_elem_of_singleton]%elem_of_app;
          [by apply Hin|subst; by rewrite He].
      + intros t r. rewrite lookup_insert. case_decide as E; [|apply Hrows].
        intros [= <-]. subst t. by exists e.
    - destruct (young_miss env _ w0 Hclock Hy He) as (-> & Hcache & Hy').
      split; [done|]. rewrite Hcache. split; [|split; [|done]].
      + intros t Ht. rewrite lookup_insert. case_decide; [done|].
        apply elem_of_app in Ht as [Ht|Ht%list_elem_of_singleton];
          [by apply Hin|by subst].
      + intros t r. rewrite lookup_insert. case_decide as E.
        * intros [= <-]. subst t. rewrite lookup_insert_eq. by eexists.
        * intros (e & Hte & ->)%Hrows. exists e. split; [|done].
          rewrite lookup_insert_ne; [done|]. intros Hsym.
          rewrite <- Hsym, He in Hte. done. }
  (* the second run *)
  destruct (prices_run env tickers w1) as (pd2 & cs2 & Hpd2 & Hprices2).
  destruct (get_latest_prices_run_length _ _ _ _ _ Hpd2) as [_ Hcs2].
  destruct (for_each_inv
    (λ pre (acc : gmap string Row.t) w',
       company_info_cache w' = company_info_cache w1
       ∧ upstream_log w' = upstream_log w1 ++ cs2
       ∧ (∀ t r, acc !! t = Some r →
            ∃ e, company_info_cache w1 !! to_symbol t = Some e
                 ∧ r = row_of pd2 t (Entry.info e))
       ∧ dom acc = list_to_set pre)
    (capped tickers) (prices_body env pd2) ∅ (log_calls cs2 w1))
    as (r2 & w2 & Hrun2 & Hcache2 & Hlog2 & Hrows2 & Hdom2).
  { split; [done|]. split; [done|].
    split; [intros t r; by rewrite lookup_empty|by rewrite dom_empty_L]. }
  { intros pre x post acc w0 Hsplit (Hc & Hl & Hrows & Hdom).
    rewrite prices_body_eq. eexists _, _. split; [done|].
    destruct (Hin1 x) as [e He].
    { rewrite Hsplit. apply elem_of_app. right. by apply elem_of_cons; left. }
    assert (all_young env w0) as Hy0.
    { intros s e0. rewrite Hc. apply Hyoung1. }
    destruct (young_hit env (to_symbol x) w0 e Hy0) as [-> ->];
      [by rewrite Hc|]. simpl.
    split; [done|]. split; [done|]. split.
    - intros t r. rewrite lookup_insert. case_decide as E; [|apply Hrows].
      intros [= <-]. subst t. by exists e.
    - rewrite dom_insert_L, Hdom, list_to_set_app_L. simpl.
      rewrite (right_id_L ∅ (∪)). apply (comm_L (∪)). }
  exists r1, w1, r2, w2. split; [done|]. split; [by rewrite Hprices2|].
  split; [done|]. split.
  - intros s. rewrite Hlog2, drop_app_length. apply Hcs2.
  - intros t row1 Ht1.
    assert (is_Some (r2 !! t)) as [row2 Ht2].
    { apply elem_of_dom. rewrite Hdom2, <- Hdom1. apply elem_of_dom.
      by eexists. }
    exists row2. split; [done|].
    destruct (Hrows1 t row1 Ht1) as (e1 & He1 & ->).
    destruct (Hrows2 t row2 Ht2) as (e2 & He2 & ->).
    rewrite He1 in He2. by injection He2 as <-.
Qed.

Lemma repeated_request_hits_cache_witness :
  ∃ r1 w1 r2 w2,
    prices tcs_only_provider ["TCS"; "FAKE123"] initial_world
    = (Returns r1, w1)
    ∧ prices tcs_only_provider ["TCS"; "FAKE123"] w1 = (Returns r2, w2)
    ∧ company_info_cache w2 = company_info_cache w1
    ∧ ∀ s, TickerInfo s
           ∉ drop (length (upstream_log w1)) (upstream_log w2).
Proof.
  destruct (repeated_request_hits_cache tcs_only_provider
              ["TCS"; "FAKE123"] initial_world)
    as (r1 & w1 & r2 & w2 & H1 & H2 & Hcache & Hlog & _).
  - intros n m. reflexivity.
  - intros s e He. vm_compute in He. discriminate He.
  - exists r1, w1, r2, w2.
    split; [exact H1|]. split; [exact H2|]. split; [exact Hcache|exact Hlog].
Defined.

(** ** From the provider's closes to the rows *)

Lemma row_lookup env tickers w :
  ∃ price_data cs response w',
    get_latest_prices env (capped tickers) w
    = (Returns price_data, log_calls cs w)
    ∧ prices env tickers w = (Returns response, w')
    ∧ ∀ t, t ∈ capped tickers →
        ∃ info, response !! t = Some (row_of price_data t info).
Proof.
  destruct (prices_spec env (λ _, True) (λ _ _, True) tickers w)
    as (pd & cs & response & w' & Hpd & Hrun & _ & Hdom & Hrows); [done..|].
  exists pd, cs, response, w'. split; [done|]. split; [done|].
  intros t Ht.
  assert (is_Some (response !! t)) as [r Hr].
  { apply elem_of_dom. rewrite Hdom. by apply elem_of_list_to_set. }
  destruct (Hrows t r Hr) as (info & _ & ->). by exists info.
Qed.

(** X11: a ticker that is spelled in upper case like every other requested
    ticker of its symbol is given the quote of that symbol: the last two
    numbers of its column when the batch frame has one column per symbol,
    and the last two closes of the last individual query for its symbol
    when the batch failed. *)
Theorem rows_carry_the_quotes env tickers w t :
  t ∈ take 200 tickers →
  (∀ t', t' ∈ take 200 tickers → to_symbol t' = to_symbol t →
         py_upper t' = t) →
  ∃ response w' r,
    prices env tickers w = (Returns response, w')
    ∧ response !! t = Some r
    ∧ (∀ close col older p l,
         batch_answer env (take 200 tickers) w
         = DownloadReturns (MultiIndexFrame close) →
         close (to_symbol t) = Some col →
         dropna col = older ++ [p; l] →
         Row.price r = Some (py_round l 4)
         ∧ Row.change_pct r = Some (change_pct_of l p))
    ∧ (∀ i older p l,
         batch_failed (batch_answer env (take 200 tickers) w) = true →
         last_at (symbols_of (take 200 tickers)) i (to_symbol t) →
         yf_history env (S (length (upstream_log w)) + i) (to_symbol t)
         = HistoryReturns (HistoryFrame (Some (older ++ [p; l]))) →
         Row.price r = Some (py_round l 4)
         ∧ Row.change_pct r = Some (change_pct_of l p)).
Proof.
  intros Ht Hspell.
  change (take 200 tickers) with (capped tickers) in Ht, Hspell |- *.
  destruct (row_lookup env tickers w)
    as (pd & cs & response & w' & Hpd & Hrun & Hrows).
  destruct (Hrows t Ht) as [info Hr].
  exists response, w', (row_of pd t info). split; [done|]. split; [done|].
  assert (capped tickers ≠ []) as Hne.
  { intros E. rewrite E in Ht. by apply elem_of_nil in Ht. }
  destruct (sym_map_of_lookup (capped tickers) t Ht)
    as (t0 & Ht0 & Hsame & Hk).
  rewrite (Hspell t0 Ht0 Hsame) in Hk.
  unfold row_of. cbn [Row.price Row.change_pct].
  split.
  - intros close col older p l Hans Hcol Hseries.
    destruct (multi_batch_run env (capped tickers) w Hne close Hans)
      as (results & Hrun' & Hall & _).
    rewrite Hpd in Hrun'. injection Hrun' as -> _.
    destruct (Hall t Ht) as (t1 & Ht1 & Hsame1 & _ & Hq).
    rewrite (Hspell t1 Ht1 Hsame1) in Hq. rewrite Hq. simpl.
    unfold multi_quote. by rewrite Hcol, Hseries, pure_quote_two.
  - intros i older p l Hfail Hlast Hh.
    destruct (failed_batch_run env (capped tickers) w Hne Hfail)
      as (results & Hrun' & Hstored & _).
    rewrite Hpd in Hrun'. injection Hrun' as -> _.
    rewrite (Hstored i (to_symbol t) t Hlast Hk); rewrite Hh; [|done].
    simpl. by rewrite pure_quote_two.
Qed.

Lemma rows_carry_the_quotes_witness :
  (∃ response w' r,
     prices tcs_only_provider ["TCS"; "FAKE123"] initial_world
     = (Returns response, w')
     ∧ response !! "TCS" = Some r
     ∧ Row.price r = Some 4100%float
     ∧ Row.change_pct r = Some 2.5%float)
  ∧ (∃ response w' r,
       prices batch_down_provider ["TCS"; "INFY"] initial_world
       = (Returns response, w')
       ∧ response !! "INFY" = Some r
       ∧ Row.price r = Some 11%float
       ∧ Row.change_pct r = Some 10%float).
Proof.
  split.
  - destruct (rows_carry_the_quotes tcs_only_provider ["TCS"; "FAKE123"]
                initial_world "TCS")
      as (response & w' & r & Hrun & Hr & Hmulti & _).
    { apply elem_of_cons. left. reflexivity. }
    { intros t' [->|[->|Hin]%elem_of_cons]%elem_of_cons;
        [reflexivity|discriminate|inversion Hin]. }
    exists response, w', r. split; [exact Hrun|]. split; [exact Hr|].
    apply (Hmulti (λ s, if String.eqb s "TCS.NS"
                        then Some [4000%float; 4100%float] else None)
             [4000%float; 4100%float] [] 4000%float 4100%float); reflexivity.
  - destruct (rows_carry_the_quotes batch_down_provider ["TCS"; "INFY"]
                initial_world "INFY")
      as (response & w' & r & Hrun & Hr & _ & Hfailed).
    { apply elem_of_cons. right. apply elem_of_cons. left. reflexivity. }
    { intros t' [->|[->|Hin]%elem_of_cons]%elem_of_cons;
        [discriminate|reflexivity|inversion Hin]. }
    exists response, w', r. split; [exact Hrun|]. split; [exact Hr|].
    apply (Hfailed 1 [] 10%float 11%float).
    + reflexivity.
    + split; [reflexivity|]. intros Hin. inversion Hin.
    + reflexivity.
Defined.

(** ** Names *)

Lemma py_or_not_blank a b : b ≠ "" → py_or a b ≠ "".
Proof.
  intros Hb. unfold py_or. destruct a as [s|]; [|done].
  by destruct s.
Qed.

Lemma refreshed_name_not_blank env sym w :
  sym ≠ "" → Info.name (refreshed_info env sym w) ≠ "".
Proof.
  intros Hsym. unfold refreshed_info.
  destruct (yf_info env _ sym) as [|d]; [done|]. simpl.
  by apply py_or_not_blank, py_or_not_blank.
Qed.

(** X12: if no cache entry has an empty name, then no row of the response
    has an empty name or an empty symbol, and the cache still has no entry
    with an empty name afterwards: a company whose provider record has
    empty names is shown under its symbol. *)
Theorem row_names_not_blank env tickers w :
  (∀ s e, company_info_cache w !! s = Some e →
          Info.name (Entry.info e) ≠ "") →
  ∃ response w',
    prices env tickers w = (Returns response, w')
    ∧ (∀ t r, response !! t = Some r →
         Row.name r ≠ "" ∧ Row.symbol r ≠ "")
    ∧ (∀ s e, company_info_cache w' !! s = Some e →
              Info.name (Entry.info e) ≠ "").
Proof.
  intros Hnames.
  destruct (prices_run env tickers w) as (pd & cs & _ & ->).
  destruct (for_each_inv
    (λ pre (acc : gmap string Row.t) w',
       (∀ s e, company_info_cache w' !! s = Some e →
               Info.name (Entry.info e) ≠ "")
       ∧ ∀ t r, acc !! t = Some r → Row.name r ≠ "" ∧ Row.symbol r ≠ "")
    (capped tickers) (prices_body env pd) ∅ (log_calls cs w))
    as (response & w' & Hrun & Hcache & Hrows).
  - split; [done|]. intros t r. by rewrite lookup_empty.
  - intros pre x post acc w0 _ (Hc & Hrows).
    rewrite prices_body_eq. eexists _, _. split; [done|].
    pose proof (to_symbol_nonempty x) as Hx.
    pose proof (refreshed_name_not_blank env (to_symbol x) w0 Hx) as Hnew.
    split.
    + unfold after_fetch. destruct (is_fresh env (to_symbol x) w0); [done|].
      intros s e. simpl. rewrite lookup_insert. case_decide; [|apply Hc].
      by intros [= <-].
    + intros t r. rewrite lookup_insert. case_decide; [|apply Hrows].
      intros [= <-]. subst t. unfold row_of. cbn [Row.name Row.symbol].
      split; [|done]. unfold served_info.
      destruct (company_info_cache w0 !! to_symbol x) as [e|] eqn:He; [|done].
      destruct (is_fresh env (to_symbol x) w0);
        [by apply (Hc (to_symbol x) e)|done].
  - by exists response, w'.
Qed.

Lemma row_names_not_blank_witness :
  ∃ response w',
    prices tcs_only_provider ["TCS"; "FAKE123"] initial_world
    = (Returns response, w')
    ∧ ∀ t r, response !! t = Some r → Row.name r ≠ "" ∧ Row.symbol r ≠ "".
Proof.
  destruct (row_names_not_blank tcs_only_provider ["TCS"; "FAKE123"]
              initial_world) as (response & w' & Hrun & Hrows & _).
  - intros s e He. vm_compute in He. discriminate He.
  - exists response, w'. split; [exact Hrun|exact Hrows].
Defined.

(** ** Decoding the query string *)

Lemma py_upper_nonempty s : s ≠ "" → py_upper s ≠ "".
Proof. by destruct s. Qed.

Lemma py_truthy_spec s : py_truthy s = true ↔ s ≠ "".
Proof. by destruct s. Qed.

Lemma eqb_upper_comma c :
  Ascii.eqb (upper_char c) ","%char = Ascii.eqb c ","%char.
Proof. by destruct c as [[] [] [] [] [] [] [] []]. Qed.

Lemma has_comma_upper s :
  has_char ","%char (py_upper s) = has_char ","%char s.
Proof.
  induction s as [|c s IH]; simpl; [done|]. by rewrite eqb_upper_comma, IH.
Qed.

Lemma has_char_lstrip c s :
  has_char c s = false → has_char c (py_lstrip s) = false.
Proof.
  induction s as [|d s IH]; simpl; [done|].
  intros [Hd Hs]%orb_false_iff.
  destruct (py_isspace d); [by apply IH|]. simpl. by rewrite Hd, Hs.
Qed.

Lemma has_char_rstrip c s :
  has_char c s = false → has_char c (py_rstrip s) = false.
Proof.
  induction s as [|d s IH]; simpl; [done|].
  intros [Hd Hs]%orb_false_iff. specialize (IH Hs).
  destruct (py_rstrip s) as [|d' r].
  - destruct (py_isspace d); simpl; [done|]. by rewrite Hd.
  - simpl in *. by rewrite Hd, IH.
Qed.

Lemma py_split_no_sep c s x : x ∈ py_split c s → has_char c x = false.
Proof.
  revert x. induction s as [|d s IH]; intros x; simpl.
  - by intros ->%list_elem_of_singleton.
  - destruct (Ascii.eqb d c) eqn:Hd.
    + intros [->|Hx]%elem_of_cons; [done|by apply IH].
    + destruct (py_split c s) as [|w ws].
      * intros ->%list_elem_of_singleton. simpl. by rewrite Hd.
      * intros [->|Hx]%elem_of_cons.
        -- simpl. rewrite Hd. simpl. apply IH. by apply elem_of_cons; left.
        -- apply IH. by apply elem_of_cons; right.
Qed.

(** X13: every ticker decoded from the [tickers] parameter is non-empty,
    free of surrounding white space, free of lower-case letters and free of
    commas; in particular the batch fetch, which files quotes under the
    upper-cased ticker, files them under the decoded ticker itself. *)
Theorem decoded_tickers_normal tickers_param t :
  t ∈ tickers_of_param tickers_param →
  t ≠ "" ∧ py_strip t = t ∧ py_upper t = t ∧ has_char ","%char t = false.
Proof.
  unfold tickers_of_param.
  intros (x & -> & [Hx Hin]%list_elem_of_filter)%list_elem_of_fmap.
  apply py_truthy_spec in Hx.
  split; [by apply py_upper_nonempty|].
  split; [by rewrite py_strip_upper, py_strip_idemp|].
  split; [apply py_upper_idemp|].
  rewrite has_comma_upper. unfold py_strip.
  apply has_char_lstrip, has_char_rstrip. by eapply py_split_no_sep.
Qed.

Lemma decoded_tickers_normal_witness :
  py_upper "INFY.NS" = "INFY.NS" ∧ py_strip "INFY.NS" = "INFY.NS".
Proof.
  destruct (decoded_tickers_normal " tcs, infy.ns ,," "INFY.NS")
    as (_ & Hs & Hu & _).
  - apply elem_of_cons. right. apply elem_of_cons. left. reflexivity.
  - split; [exact Hu|exact Hs].
Defined.

Lemma py_split_plain c x : has_char c x = false → py_split c x = [x].
Proof.
  induction x as [|d x IH]; simpl; [done|].
  intros [-> Hx]%orb_false_iff. by rewrite (IH Hx).
Qed.

Lemma py_split_app c x rest :
  has_char c x = false →
  py_split c (x +:+ String c rest) = x :: py_split c rest.
Proof.
  induction x as [|d x IH].
  - intros _. change ("" +:+ String c rest) with (String c rest).
    simpl. by rewrite Ascii.eqb_refl.
  - simpl. intros [Hd Hx]%orb_false_iff.
    change (String d x +:+ String c rest)
      with (String d (x +:+ String c rest)).
    simpl. by rewrite Hd, (IH Hx).
Qed.

Lemma py_split_join c l :
  l ≠ [] →
  (∀ x, x ∈ l → has_char c x = false) →
  py_split c (py_join (String c "") l) = l.
Proof.
  induction l as [|x l IH]; [done|]. intros _ Hl.
  destruct l as [|y l].
  - simpl. apply py_split_plain, Hl. by apply elem_of_cons; left.
  - change (py_join (String c "") (x :: y :: l))
      with (x +:+ String c "" +:+ py_join (String c "") (y :: l)).
    change (String c "" +:+ py_join (String c "") (y :: l))
      with (String c (py_join (String c "") (y :: l))).
    rewrite py_split_app by (apply Hl; by apply elem_of_cons; left).
    rewrite IH; [done|done|].
    intros z Hz. apply Hl. by apply elem_of_cons; right.
Qed.

(** X14: joining tickers with commas and decoding the result gives the
    tickers back, provided each one is non-empty, already trimmed and in
    upper case, and holds no comma. *)
Theorem decode_join_roundtrip tickers :
  (∀ t, t ∈ tickers →
        t ≠ "" ∧ py_upper (py_strip t) = t ∧ has_char ","%char t = false) →
  tickers_of_param (py_join "," tickers) = tickers.
Proof.
  intros Hl. unfold tickers_of_param.
  destruct (decide (tickers = [])) as [->|Hne]; [done|].
  rewrite py_split_join; [|done|intros x Hx; by apply Hl].
  clear Hne. induction tickers as [|t tickers IH]; [done|].
  destruct (Hl t) as (Hne & Hnorm & _); [by apply elem_of_cons; left|].
  rewrite filter_cons_True.
  - rewrite fmap_cons, Hnorm, IH; [done|].
    intros t' Ht'. apply Hl. by apply elem_of_cons; right.
  - apply py_truthy_spec. intros E. rewrite E in Hnorm. by subst t.
Qed.

Lemma decode_join_roundtrip_witness :
  tickers_of_param (py_join "," ["TCS"; "INFY.NS"; "SBIN"])
  = ["TCS"; "INFY.NS"; "SBIN"].
Proof.
  apply decode_join_roundtrip.
  intros t [->|[->|[->|Hin]%elem_of_cons]%elem_of_cons]%elem_of_cons;
    [repeat split; discriminate ..|inversion Hin].
Defined.

(** ** The routes, from the query string *)

(** The route body over provider values of any kind either returns a row
    for every ticker within the cap or raises [TypeError]. *)
Lemma dyn_prices_outcome env tickers w :
  (∃ response w',
     Dyn.prices env tickers w = (Returns response, w')
     ∧ dom response = list_to_set (take 200 tickers))
  ∨ (∃ w', Dyn.prices env tickers w = (Raises TypeError, w')).
Proof.
  destruct (dyn_prices_spec env (λ _, True) (λ _ _, True) tickers w)
    as (pd & cs & _
        & [(response & w' & Hrun & _ & Hdom & _)|(w' & Hrun & _)]);
    [done..| |].
  - left. by exists response, w'.
  - right. by exists w'.
Qed.

Lemma dyn_prices_served env tickers w :
  Dyn.sliceable_answers env → Dyn.sliceable_cache w →
  ∃ response w',
    Dyn.prices env tickers w = (Returns response, w')
    ∧ dom response = list_to_set (take 200 tickers).
Proof.
  intros Henv Hw.
  destruct (dyn_prices_spec env Dyn.sliceable_cache
              (λ _ info, Dyn.sliceable (Dyn.Info.description info) = true)
              tickers w)
    as (pd & cs & _
        & [(response & w' & Hrun & _ & Hdom & _)
          |(w' & _ & t & info & _ & Hyes & Hno)]);
    [done|by intros ?? H|by apply dyn_sliceable_invariant| |congruence].
  by exists response, w'.
Qed.

(** X15: the [/prices] route lets no exception of the provider out: it is
    ended only by the [TypeError] of slicing a description that is neither
    text nor a list, or by the [ValueError] of [int]. The latter happens
    exactly when there is no [tickers] parameter, or an empty one, and
    [count] is present and is no integer; then nothing has been asked of
    the provider. With descriptions that can be sliced, a non-empty
    [tickers] parameter is always served, whatever the [count] parameter
    holds, with the rows of the decoded tickers, and otherwise a readable
    [count] is served with the rows of a prefix of the default tickers. *)
Theorem prices_route_outcomes env int_of_str file args w :
  (∀ e w',
     Dyn.prices_route env int_of_str file args w = (Uncaught e, w') →
     e = TypeError)
  ∧ ((∃ w', Dyn.prices_route env int_of_str file args w = (ValueError, w'))
     ↔ (arg_tickers args = None ∨ arg_tickers args = Some "")
       ∧ count_arg int_of_str args = None)
  ∧ (∀ w', Dyn.prices_route env int_of_str file args w = (ValueError, w') →
           w' = w)
  ∧ (Dyn.sliceable_answers env → Dyn.sliceable_cache w →
     (∀ tickers_param,
        arg_tickers args = Some tickers_param → tickers_param ≠ "" →
        ∃ response w',
          Dyn.prices_route env int_of_str file args w = (Served response, w')
          ∧ dom response
            = list_to_set (take 200 (tickers_of_param tickers_param)))
     ∧ (arg_tickers args = None ∨ arg_tickers args = Some "" →
        ∀ count, count_arg int_of_str args = Some count →
          ∃ response w',
            Dyn.prices_route env int_of_str file args w
            = (Served response, w')
            ∧ dom response
              = list_to_set
                  (take 200 (py_slice_to count (DEFAULT_TICKERS file))))).
Proof.
  set (run := λ tickers : list string,
        match Dyn.prices env tickers w with
        | (Returns response, w') => (Served response, w')
        | (Raises e, w') => (Uncaught e, w')
        end).
  assert (Dyn.prices_route env int_of_str file args w
          = let by_count :=
              match count_arg int_of_str args with
              | Some count => run (py_slice_to count (DEFAULT_TICKERS file))
              | None => (ValueError, w)
              end in
            match arg_tickers args with
            | Some tickers_param =>
                if py_truthy tickers_param
                then run (tickers_of_param tickers_param) else by_count
            | None => by_count
            end) as Hroute by done.
  assert (∀ tickers e w', run tickers = (Uncaught e, w') → e = TypeError)
    as Hexn.
  { intros tickers e w'. unfold run.
    destruct (dyn_prices_outcome env tickers w)
      as [(r & w0 & -> & _)|(w0 & ->)]; [done|]. by intros [= <- _]. }
  assert (∀ tickers w', run tickers ≠ (ValueError, w')) as Hval.
  { intros tickers w'. unfold run.
    by destruct (Dyn.prices env tickers w) as [[r|e] w0]. }
  rewrite Hroute. cbv zeta. split; [|split; [|split]].
  - intros e w'.
    destruct (arg_tickers args) as [p|]; [destruct (py_truthy p)|];
      try apply Hexn;
      destruct (count_arg int_of_str args); try done; apply Hexn.
  - split.
    + intros [w' Hbad].
      destruct (arg_tickers args) as [[|c p]|]; simpl in Hbad;
        try (by apply Hval in Hbad);
        (destruct (count_arg int_of_str args);
           [by apply Hval in Hbad|]); split; auto.
    + intros [[-> | ->] ->]; by exists w.
  - intros w'.
    destruct (arg_tickers args) as [[|c p]|]; simpl;
      try (by intros ?%Hval);
      (destruct (count_arg int_of_str args); [by intros ?%Hval|]);
      by intros [= <-].
  - intros Henv Hw.
    assert (∀ tickers,
              ∃ response w',
                run tickers = (Served response, w')
                ∧ dom response = list_to_set (take 200 tickers)) as Hrun.
    { intros tickers. unfold run.
      destruct (dyn_prices_served env tickers w Henv Hw)
        as (r & w' & -> & Hdom). by exists r, w'. }
    split.
    + intros p -> Hne. destruct p; [done|]. apply Hrun.
    + intros [-> | ->] count ->; apply Hrun.
Qed.

Lemma prices_route_outcomes_witness :
  (∃ w',
     Dyn.prices_route Dyn.numeric_summary_provider sample_int None
       {| arg_tickers := Some "tcs"; arg_count := None |} Dyn.initial_world
     = (Uncaught TypeError, w'))
  ∧ Dyn.prices_route Dyn.verbose_provider sample_int None
      {| arg_tickers := None; arg_count := Some "abc" |} Dyn.initial_world
    = (ValueError, Dyn.initial_world)
  ∧ (∃ response w',
       Dyn.prices_route Dyn.verbose_provider sample_int None
         {| arg_tickers := Some "tcs,infy"; arg_count := Some "abc" |}
         Dyn.initial_world = (Served response, w')
       ∧ dom response = list_to_set ["TCS"; "INFY"])
  ∧ (∃ response w',
       Dyn.prices_route Dyn.verbose_provider sample_int None
         {| arg_tickers := Some ""; arg_count := Some "3" |}
         Dyn.initial_world = (Served response, w')
       ∧ dom response = list_to_set ["RELIANCE"; "TCS"; "HDFCBANK"]).
Proof.
  assert (Dyn.sliceable_answers Dyn.verbose_provider) as Henv.
  { intros n symbol. unfold Dyn.verbose_provider. simpl.
    destruct (String.eqb symbol "TCS.NS"); reflexivity. }
  assert (Dyn.sliceable_cache Dyn.initial_world) as Hw.
  { intros symbol e He. vm_compute in He. discriminate He. }
  split; [|split; [|split]].
  - destruct (Dyn.prices_route Dyn.numeric_summary_provider sample_int None
                {| arg_tickers := Some "tcs"; arg_count := None |}
                Dyn.initial_world) as [[r|e|] w'] eqn:Hrun;
      [vm_compute in Hrun; discriminate Hrun| |vm_compute in Hrun;
                                                discriminate Hrun].
    exists w'.
    by rewrite (proj1 (prices_route_outcomes Dyn.numeric_summary_provider
                         sample_int None
                         {| arg_tickers := Some "tcs"; arg_count := None |}
                         Dyn.initial_world) e w' Hrun).
  - destruct (proj2 (proj1 (proj2 (prices_route_outcomes Dyn.verbose_provider
                sample_int None
                {| arg_tickers := None; arg_count := Some "abc" |}
                Dyn.initial_world)))) as [w' Hbad].
    { split; [left|]; reflexivity. }
    rewrite Hbad. f_equal.
    apply (proj1 (proj2 (proj2 (prices_route_outcomes Dyn.verbose_provider
             sample_int None
             {| arg_tickers := None; arg_count := Some "abc" |}
             Dyn.initial_world))) w' Hbad).
  - apply (proj1 (proj2 (proj2 (proj2 (prices_route_outcomes
             Dyn.verbose_provider sample_int None
             {| arg_tickers := Some "tcs,infy"; arg_count := Some "abc" |}
             Dyn.initial_world))) Henv Hw) "tcs,infy");
      [reflexivity|discriminate].
  - apply (proj2 (proj2 (proj2 (proj2 (prices_route_outcomes
             Dyn.verbose_provider sample_int None
             {| arg_tickers := Some ""; arg_count := Some "3" |}
             Dyn.initial_world))) Henv Hw) (or_intror eq_refl) 3%Z).
    reflexivity.
Defined.

Lemma py_slice_to_prefix {A} (n : Z) (l : list A) :
  ∃ rest, l = py_slice_to n l ++ rest
          ∧ ((0 ≤ n)%Z → length (py_slice_to n l) = min (Z.to_nat n) (length l))
          ∧ ((n < 0)%Z → length rest = min (Z.to_nat (- n)) (length l)).
Proof.
  unfold py_slice_to. destruct (Z.leb_spec 0 n) as [Hn|Hn].
  - exists (drop (Z.to_nat n) l). split; [by rewrite take_drop|].
    split; [intros _; apply length_take|lia].
  - exists (drop (length l - Z.to_nat (- n)) l).
    split; [by rewrite take_drop|]. split; [lia|].
    intros _. rewrite length_drop. lia.
Qed.

(** X16: the index route hands the template a prefix of the default tickers:
    the first [count] of them, or all when there are fewer, for a count
    that is not negative; all but the last [-count] for a negative one; the
    first fifty when no count is given; and it ends with a ValueError when
    the count is no integer. *)
Theorem index_outcomes int_of_str file args :
  (count_arg int_of_str args = None →
   index int_of_str file args = ValueError)
  ∧ (arg_count args = None →
     index int_of_str file args = Served (take 50 (DEFAULT_TICKERS file)))
  ∧ (∀ count, count_arg int_of_str args = Some count →
       ∃ tickers rest,
         index int_of_str file args = Served tickers
         ∧ DEFAULT_TICKERS file = tickers ++ rest
         ∧ ((0 ≤ count)%Z →
            length tickers
            = min (Z.to_nat count) (length (DEFAULT_TICKERS file)))
         ∧ ((count < 0)%Z →
            length rest
            = min (Z.to_nat (- count)) (length (DEFAULT_TICKERS file)))).
Proof.
  unfold index. split; [by intros ->|]. split.
  - intros Hc. unfold count_arg. by rewrite Hc.
  - intros count ->.
    destruct (py_slice_to_prefix count (DEFAULT_TICKERS file))
      as (rest & Hsplit & Hlen).
    by exists (py_slice_to count (DEFAULT_TICKERS file)), rest.
Qed.

Lemma index_outcomes_witness :
  index sample_int None {| arg_tickers := None; arg_count := Some "x" |}
  = ValueError
  ∧ index sample_int None {| arg_tickers := None; arg_count := None |}
    = Served SAMPLE_TICKERS
  ∧ ∃ tickers rest,
      index sample_int None {| arg_tickers := None; arg_count := Some "-2" |}
      = Served tickers
      ∧ SAMPLE_TICKERS = tickers ++ rest
      ∧ length rest = 2.
Proof.
  split; [|split].
  - apply (proj1 (index_outcomes sample_int None
                    {| arg_tickers := None; arg_count := Some "x" |})).
    reflexivity.
  - apply (proj1 (proj2 (index_outcomes sample_int None
                           {| arg_tickers := None; arg_count := None |}))).
    reflexivity.
  - destruct (proj2 (proj2 (index_outcomes sample_int None
                              {| arg_tickers := None;
                                 arg_count := Some "-2" |})) (-2)%Z eq_refl)
      as (tickers & rest & Hrun & Hsplit & _ & Hneg).
    exists tickers, rest. split; [exact Hrun|]. split; [exact Hsplit|].
    apply Hneg. reflexivity.
Defined.

(** ** The default tickers *)

Lemma default_line_dropped line :
  py_startswith line "#" = true ∨ all_space line = true →
  py_truthy (py_strip line) && negb (py_startswith line "#") = false.
Proof.
  intros [H|H].
  - rewrite H. apply andb_false_r.
  - by rewrite py_strip_blank.
Qed.

(** X17: every ticker loaded from the tickers file is non-empty, trimmed
    and in upper case, there are no more of them than lines, and a line
    that starts with [#] or holds white space only contributes none: the
    list is the same with or without it. *)
Theorem default_tickers_loaded lines :
  (∀ t, t ∈ DEFAULT_TICKERS (Some lines) →
        t ≠ "" ∧ py_strip t = t ∧ py_upper t = t)
  ∧ length (DEFAULT_TICKERS (Some lines)) ≤ length lines
  ∧ (∀ before line after,
       lines = before ++ line :: after →
       py_startswith line "#" = true ∨ all_space line = true →
       DEFAULT_TICKERS (Some lines) = DEFAULT_TICKERS (Some (before ++ after))).
Proof.
  unfold DEFAULT_TICKERS. split; [|split].
  - intros t (x & -> & [Hx _]%list_elem_of_filter)%list_elem_of_fmap.
    apply andb_true_iff in Hx as [Hx%py_truthy_spec _].
    split; [by apply py_upper_nonempty|].
    split; [by rewrite py_strip_upper, py_strip_idemp|apply py_upper_idemp].
  - rewrite length_fmap. apply length_filter.
  - intros before line after -> Hline.
    rewrite !filter_app, filter_cons_False; [done|].
    rewrite (default_line_dropped line Hline). done.
Qed.

Lemma default_tickers_loaded_witness :
  DEFAULT_TICKERS (Some ["tcs"; "# banks"; "  "; " sbin "])
  = DEFAULT_TICKERS (Some ["tcs"; "  "; " sbin "])
  ∧ DEFAULT_TICKERS (Some ["tcs"; "  "; " sbin "])
    = DEFAULT_TICKERS (Some ["tcs"; " sbin "])
  ∧ py_upper "SBIN" = "SBIN".
Proof.
  split; [|split].
  - apply (proj2 (proj2 (default_tickers_loaded
                           ["tcs"; "# banks"; "  "; " sbin "]))
             ["tcs"] "# banks" ["  "; " sbin "]); [reflexivity|].
    left. reflexivity.
  - apply (proj2 (proj2 (default_tickers_loaded ["tcs"; "  "; " sbin "]))
             ["tcs"] "  " [" sbin "]); [reflexivity|].
    right. reflexivity.
  - apply (proj1 (default_tickers_loaded ["tcs"; " sbin "]) "SBIN").
    apply elem_of_cons. right. apply elem_of_cons. left. reflexivity.
Defined.

(** ** Provider values of any kind *)

(** X22: on a provider whose names and descriptions are text, or missing,
    the route over arbitrary values and the cached lookup under it compute
    what the route and the lookup over strings compute: the same rows, the
    same cache, the same provider calls and clock readings. *)
Theorem text_route_agrees env tickers w :
  Dyn.prices (Text.provider env) tickers (Text.world w)
  = Text.run (fmap Text.row) (prices env tickers w)
  ∧ ∀ symbol,
      Dyn.fetch_company_info (Text.provider env) symbol (Text.world w)
      = Text.run Text.info (fetch_company_info env symbol w).
Proof.
  split.
  - rewrite dyn_prices_unfold, prices_unfold, text_quotes.
    destruct (get_latest_prices_returns env (capped tickers) w)
      as (pd & cs & ->).
    unfold Text.run at 1. simpl.
    rewrite <- (fmap_empty Text.row). apply text_loop.
  - intros symbol.
    rewrite dyn_fetch_company_info_eq, fetch_company_info_eq,
      text_served_info, text_after_fetch. done.
Qed.

(** X23: when the route over arbitrary values returns, the description of
    every row is a slice of the description supplied for the ticker's
    symbol, by the cache as the request found it or by an answer of the
    provider: the first 600 characters of a text, or the first 600 items of
    a list, and all of it when it is shorter. *)
Theorem sliced_descriptions env tickers w response w' :
  Dyn.prices env tickers w = (Returns response, w') →
  dom response = list_to_set (take 200 tickers)
  ∧ ∀ t r, response !! t = Some r →
      ∃ d, Dyn.supplied env w (to_symbol t) d
           ∧ ((∃ s kept rest,
                 d = Dyn.PyStr s ∧ Dyn.Row.description r = Dyn.PyStr kept
                 ∧ s = kept +:+ rest
                 ∧ String.length kept = min 600 (String.length s))
              ∨ (∃ items kept rest,
                   d = Dyn.PyList items
                   ∧ Dyn.Row.description r = Dyn.PyList kept
                   ∧ items = kept ++ rest
                   ∧ length kept = min 600 (length items))).
Proof. apply dyn_rows_sliced. Qed.

Lemma sliced_descriptions_witness :
  ∃ response w' r kept rest,
    Dyn.prices Dyn.verbose_provider ["TCS"] Dyn.initial_world
    = (Returns response, w')
    ∧ response !! "TCS" = Some r
    ∧ Dyn.Row.description r = Dyn.PyStr kept
    ∧ String.string_of_list_ascii (replicate 700 "x"%char) = kept +:+ rest
    ∧ String.length kept = 600.
Proof.
  destruct (Dyn.prices Dyn.verbose_provider ["TCS"] Dyn.initial_world)
    as [[response|e] w'] eqn:Hrun;
    [|vm_compute in Hrun; discriminate Hrun].
  destruct (sliced_descriptions Dyn.verbose_provider ["TCS"]
              Dyn.initial_world response w' Hrun) as [Hdom Hrows].
  assert (is_Some (response !! "TCS")) as [r Hr].
  { apply elem_of_dom. rewrite Hdom. apply elem_of_list_to_set.
    apply elem_of_cons. left. reflexivity. }
  destruct (Hrows "TCS" r Hr) as (d & Hsup & Hd).
  assert (d = Dyn.PyStr (String.string_of_list_ascii (replicate 700 "x"%char)))
    as Ed.
  { destruct Hsup as [(e & He & _)|(n & Hn)].
    - vm_compute in He. discriminate He.
    - exact Hn. }
  destruct Hd as [(s & kept & rest & Es & Hdesc & Hs & Hlen)
                 |(items & kept & rest & Ei & _)].
  - rewrite Ed in Es. injection Es as <-.
    exists response, w', r, kept, rest.
    split; [reflexivity|]. split; [exact Hr|]. split; [exact Hdesc|].
    split; [exact Hs|]. rewrite Hlen. reflexivity.
  - rewrite Ed in Ei. discriminate Ei.
Defined.

(** ** The analyzer *)

Section analyzer.
Import Analyzer.

Lemma first_listed_skip before rest :
  (∀ x, x ∈ before → listed_symbol (get (symbol x)) = false) →
  first_listed (before ++ rest) = first_listed rest.
Proof.
  induction before as [|x before IH]; intros Hb; [done|].
  simpl. rewrite (Hb x) by (by apply elem_of_cons; left).
  apply IH. intros y Hy. apply Hb. by apply elem_of_cons; right.
Qed.

Lemma first_listed_none data :
  (∀ x, x ∈ data → listed_symbol (get (symbol x)) = false) →
  first_listed data = None.
Proof.
  intros Hd. rewrite <- (app_nil_r data). by rewrite first_listed_skip.
Qed.

Lemma first_listed_name data r : first_listed data = Some r → r.2 ≠ NonePair.
Proof.
  induction data as [|x data IH]; simpl; [done|].
  destruct (listed_symbol (get (symbol x))); [|done]. by intros [= <-].
Qed.

(** X18: the company search never lets an exception out and never returns
    the pair of line 49's second arm. When some hit carries a non-empty
    symbol ending in ".NS", ".BO" or "-USD", the first such hit wins,
    whatever its rank, with its short name or else its long name. When
    none does, the first hit is returned with its short name, and an empty
    answer, a failed request or a first hit without a symbol key gives
    [(None, None)]. *)
Theorem search_company_outcomes :
  (∀ answer, (search_company answer).2 ≠ NonePair)
  ∧ search_company SearchRaises = (None, Name None)
  ∧ (∀ before item after,
       (∀ x, x ∈ before → listed_symbol (get (symbol x)) = false) →
       listed_symbol (get (symbol item)) = true →
       search_company (SearchReturns (before ++ item :: after))
       = (get (symbol item),
          Name (or_else (get (shortname item)) (get (longname item))))
         ∧ ∃ s, get (symbol item) = Some s ∧ s ≠ ""
                ∧ (py_endswith s ".NS" = true ∨ py_endswith s ".BO" = true
                   ∨ py_endswith s "-USD" = true))
  ∧ (∀ data,
       (∀ x, x ∈ data → listed_symbol (get (symbol x)) = false) →
       search_company (SearchReturns data)
       = match data with
         | [] => (None, Name None)
         | item :: _ =>
             match symbol item with
             | Missing => (None, Name None)
             | Null => (None, Name (get (shortname item)))
             | Value s => (Some s, Name (get (shortname item)))
             end
         end).
Proof.
  split; [|split; [done|split]].
  - intros [|data]; [done|]. unfold search_company.
    destruct (first_listed data) as [r|] eqn:Hr.
    + by apply (first_listed_name data).
    + destruct data as [|item rest]; [done|]. simpl.
      by destruct (symbol item).
  - intros before item after Hb Hitem. split.
    + unfold search_company. rewrite first_listed_skip by done.
      simpl. by rewrite Hitem.
    + unfold listed_symbol in Hitem.
      destruct (get (symbol item)) as [s|]; [|done].
      apply andb_true_iff in Hitem as [Hs%py_truthy_spec Hsuf].
      exists s. split; [done|]. split; [done|].
      apply orb_true_iff in Hsuf as [Hsuf%orb_true_iff|Hsuf]; tauto.
  - intros data Hd. unfold search_company.
    rewrite first_listed_none by done.
    destruct data as [|item rest]; [done|]. simpl.
    by destruct (symbol item).
Qed.

Lemma search_company_outcomes_witness :
  search_company
    (SearchReturns
       [ {| symbol := Value "TCS"; shortname := Value "Tata (US)";
            longname := Missing |};
         {| symbol := Value "TCS.NS"; shortname := Value "";
            longname := Value "Tata Consultancy Services" |} ])
  = (Some "TCS.NS", Name (Some "Tata Consultancy Services"))
  ∧ search_company
      (SearchReturns
         [ {| symbol := Value "AAPL"; shortname := Value "Apple Inc.";
              longname := Missing |} ])
    = (Some "AAPL", Name (Some "Apple Inc.")).
Proof.
  destruct search_company_outcomes as (_ & _ & Hfirst & Hnone).
  split.
  - apply (Hfirst
             [ {| symbol := Value "TCS"; shortname := Value "Tata (US)";
                  longname := Missing |} ]
             {| symbol := Value "TCS.NS"; shortname := Value "";
                longname := Value "Tata Consultancy Services" |} []).
    + intros x Hx. apply list_elem_of_singleton in Hx. subst x. reflexivity.
    + reflexivity.
  - apply (Hnone
             [ {| symbol := Value "AAPL"; shortname := Value "Apple Inc.";
                  longname := Missing |} ]).
    intros x Hx. apply list_elem_of_singleton in Hx. subst x. reflexivity.
Defined.

(** X19: with a history that is not empty, a previous close that is
    missing, null or zero makes the analysis report a change of 0 and a
    percentage of 0 without dividing, and without failing even when no
    current price is known. *)
Theorem analysis_without_previous_close info closes :
  closes ≠ [] →
  (previousClose info = Missing ∨ previousClose info = Null
   ∨ ∃ v, previousClose info = Value v ∧ f_nonzero v = false) →
  ∃ a,
    get_full_analysis (InfoIs info) (HistoryIs closes) = Done (Some a)
    ∧ change a = 0%float ∧ pct_change a = 0%float
    ∧ history a = closes
    ∧ Analyzer.info a = info.
Proof.
  intros Hne Hprev. unfold get_full_analysis.
  destruct closes as [|c closes]; [done|].
  destruct Hprev as [-> | [-> | (v & -> & Hv)]]; simpl; rewrite ?Hv;
    by eexists.
Qed.

Lemma analysis_without_previous_close_witness :
  ∃ a,
    get_full_analysis
      (InfoIs {| currentPrice := Missing; regularMarketPrice := Null;
                 previousClose := Value 0%float |})
      (HistoryIs [10%float])
    = Done (Some a)
    ∧ change a = 0%float ∧ pct_change a = 0%float.
Proof.
  destruct (analysis_without_previous_close
              {| currentPrice := Missing; regularMarketPrice := Null;
                 previousClose := Value 0%float |} [10%float])
    as (a & Hrun & Hc & Hp & _).
  - discriminate.
  - right. right. exists 0%float. split; reflexivity.
  - exists a. split; [exact Hrun|]. split; [exact Hc|exact Hp].
Defined.

(** X20: the analysis fails with a TypeError exactly when the provider
    answered, the history is not empty, the previous close is a number
    other than zero, and no current price is known: [currentPrice] missing,
    null or zero, and [regularMarketPrice] missing or null. *)
Theorem analysis_type_error about hist :
  get_full_analysis about hist = Failed TypeError
  ↔ ∃ info closes v,
      about = InfoIs info ∧ hist = HistoryIs closes ∧ closes ≠ []
      ∧ previousClose info = Value v ∧ f_nonzero v = true
      ∧ truthy_number (get (currentPrice info)) = false
      ∧ get (regularMarketPrice info) = None.
Proof.
  split.
  - destruct about as [|info]; [done|]. destruct hist as [|closes]; [done|].
    destruct closes as [|c closes]; [done|]. unfold get_full_analysis.
    destruct (previousClose info) as [| |v] eqn:Hprev; simpl; [done..|].
    destruct (f_nonzero v) eqn:Hv; [|done].
    destruct (truthy_number (get (currentPrice info))) eqn:Hcp.
    + destruct (get (currentPrice info)); done.
    + destruct (get (regularMarketPrice info)) eqn:Hrmp; [done|].
      intros _. by exists info, (c :: closes), v.
  - intros (info & closes & v & -> & -> & Hne & Hprev & Hv & Hcp & Hrmp).
    destruct closes as [|c closes]; [done|]. unfold get_full_analysis.
    rewrite Hprev, Hcp, Hrmp. simpl. by rewrite Hv.
Qed.

Lemma analysis_type_error_witness :
  get_full_analysis
    (InfoIs {| currentPrice := Value 0%float; regularMarketPrice := Missing;
               previousClose := Value 95%float |})
    (HistoryIs [95%float; 96%float])
  = Failed TypeError.
Proof.
  apply (proj2 (analysis_type_error _ _)).
  exists {| currentPrice := Value 0%float; regularMarketPrice := Missing;
            previousClose := Value 95%float |}, [95%float; 96%float], 95%float.
  repeat split; try reflexivity. discriminate.
Defined.

End analyzer.
